(** * RegimAI-Gateway: the gateway server, the cognitive layer and the site builder

  A shallow embedding of the three JavaScript programs of the repository:

  - [Gateway]        scripts/gateway-server.js   (class RegimAIGateway)
  - [CognitiveLayer] public/assets/js/cognitive-layer.js (class CognitiveLayer)
  - [SiteBuilder]    the build script             (class SiteBuilder)

  Conventions of the embedding.

  - A JavaScript string is a [string]: a sequence of code units below 256.
  - A plain object used as a dictionary ([requestStats.byService], the
    [frontmatter] object) is the [gmap string _] of its own properties;
    reading and assigning a property go through the members that every
    object inherits from [Object.prototype], as the language has it.
  - Counters are natural numbers ([N]); a JavaScript number that is the
    result of arithmetic on them is the rational it denotes ([Q]).
  - Code that throws returns an explicit error value.
  - What comes from outside a function ([Math.random()], [Date.now()],
    the file system, the markdown renderer) is an argument of it. *)

From Stdlib Require Import String Ascii NArith ZArith QArith Lqa List Permutation Sorted.
From Stdlib Require Import DecimalString.
From stdpp Require Import base option list gmap strings.
Import ListNotations.

Local Open Scope string_scope.

(* stdpp blocks the unfolding of string concatenation; the proofs below
 compute with it. *)
#[local] Arguments String.append !s1 s2 : simpl nomatch.

(* Characters are compared by computation only when both are known. *)
#[local] Arguments Ascii.eqb !a !b.

(** ** JavaScript string primitives *)

Module JsString.

(** [s.startsWith(p)] *)
Fixpoint startsWith (s p : string) {struct p} : bool :=
  match p with
  | EmptyString => true
  | String a p' =>
      match s with
      | EmptyString => false
      | String b s' => Ascii.eqb a b && startsWith s' p'
      end
  end.

(** [s.includes(sub)] *)
Fixpoint includes (s sub : string) : bool :=
  startsWith s sub ||
  match s with
  | EmptyString => false
  | String _ s' => includes s' sub
  end.

(** [s.endsWith(suffix)] *)
Definition endsWith (s suffix : string) : bool :=
  let n := String.length s in
  let m := String.length suffix in
  (m <=? n)%nat && String.eqb (substring (n - m) m s) suffix.

(** [s.substring(n)]: the string without its first [n] code units. *)
Fixpoint substring_from (s : string) (n : nat) : string :=
  match n, s with
  | O, _ => s
  | S _, EmptyString => EmptyString
  | S n', String _ s' => substring_from s' n'
  end.

(** The code unit [n]. *)
Definition chr (n : nat) : ascii := ascii_of_nat n.

(** Line feed, as a one-character string. *)
Definition LF : string := String (chr 10) "".

(** [toLowerCase] on one code unit: the letters A-Z and the upper-case
    letters of the Latin-1 range (U+00C0-U+00DE without U+00D7) move up by
    32; everything else stays. *)
Definition lower_char (c : ascii) : ascii :=
  let n := nat_of_ascii c in
  if ((65 <=? n) && (n <=? 90) || (192 <=? n) && (n <=? 222) && negb (n =? 215))%nat
  then chr (n + 32) else c.

(** [s.toLowerCase()] *)
Fixpoint toLowerCase (s : string) : string :=
  match s with
  | EmptyString => EmptyString
  | String c s' => String (lower_char c) (toLowerCase s')
  end.

(** The white space and line terminators that [trim] removes: TAB, LF, VT,
    FF, CR, SP and NBSP. *)
Definition is_whitespace (c : ascii) : bool :=
  let n := nat_of_ascii c in
  ((9 <=? n) && (n <=? 13) || (n =? 32) || (n =? 160))%nat.

Fixpoint trimStart (s : string) : string :=
  match s with
  | EmptyString => EmptyString
  | String c s' => if is_whitespace c then trimStart s' else s
  end.

Fixpoint trimEnd (s : string) : string :=
  match s with
  | EmptyString => EmptyString
  | String c s' =>
      match trimEnd s' with
      | EmptyString => if is_whitespace c then EmptyString else String c EmptyString
      | t => String c t
      end
  end.

(** [s.trim()] *)
Definition trim (s : string) : string := trimEnd (trimStart s).

(** [s.indexOf(c)] for a one-character [c]; [-1] when [c] does not occur. *)
Fixpoint indexOf_from (i : nat) (s : string) (c : ascii) : Z :=
  match s with
  | EmptyString => (-1)%Z
  | String a s' => if Ascii.eqb a c then Z.of_nat i else indexOf_from (S i) s' c
  end.

Definition indexOf (s : string) (c : ascii) : Z := indexOf_from 0 s c.

(** [s.substring(start, end)] *)
Definition substring_between (s : string) (from to : nat) : string :=
  substring from (to - from) s.

(** [s.split(c)] for a one-character separator: the pieces between the
    occurrences of [c]; never the empty list. *)
Fixpoint split (s : string) (c : ascii) : list string :=
  match s with
  | EmptyString => [EmptyString]
  | String a s' =>
      if Ascii.eqb a c then EmptyString :: split s' c
      else
        match split s' c with
        | piece :: pieces => String a piece :: pieces
        | [] => [String a EmptyString]
        end
  end.

(** Every character of the string passes the test. *)
Fixpoint forall_chars (test : ascii -> bool) (s : string) : bool :=
  match s with
  | EmptyString => true
  | String c s' => test c && forall_chars test s'
  end.

(** The first and the last character of a string, if any. *)
Definition first_char (s : string) : option ascii :=
  match s with
  | EmptyString => None
  | String c _ => Some c
  end.

Fixpoint last_char (s : string) : option ascii :=
  match s with
  | EmptyString => None
  | String c EmptyString => Some c
  | String _ s' => last_char s'
  end.

End JsString.

(** ** The gateway server (scripts/gateway-server.js) *)

Module Gateway.
Import JsString.

(** *** Data *)

(** A JSON document, as passed to [res.json] and found in [req.body]. *)
#[warnings="-register-all"]
Inductive Json : Type :=
| JNull
| JBool (b : bool)
| JNum (q : Q)
| JStr (s : string)
| JArr (items : list Json)
| JObj (fields : list (string * Json)).

(** A member of [req.query]: the query-string parser yields a string for a
    parameter given once, an array for a repeated parameter and an object
    for a bracketed one. *)
#[warnings="-register-all"]
Inductive QueryValue : Type :=
| QString (s : string)
| QArray (items : list QueryValue)
| QObject (fields : list (string * QueryValue)).

(** [req.user], set by the authentication middleware. *)
Record User := { apiKey : QueryValue; role : string }.

(** Header names are lower-cased by the HTTP layer; a header value is
    always a string. *)
Record Request := {
  method : string;
  path : string;
  headers : gmap string string;
  query : gmap string QueryValue;
  body : Json;
  user : option User
}.

Record Response := {
  statusCode : nat;
  sent : option Json
}.

(** The response object a handler receives: status 200, nothing sent. *)
Definition fresh_response : Response := {| statusCode := 200; sent := None |}.

(** [res.status(code)] and [res.json(obj)] *)
Definition status (res : Response) (code : nat) : Response :=
  {| statusCode := code; sent := sent res |}.

Definition json (res : Response) (obj : Json) : Response :=
  {| statusCode := statusCode res; sent := Some obj |}.

(** A value that [requestStats.byService] holds under a name: a count,
    or [NaN]. *)
Inductive Counter : Type :=
| Count (n : N)
| NotANumber.

(** [this.requestStats]; [byService] is a plain object, given by its own
    properties. *)
Record RequestStats := {
  total : N;
  byService : gmap string Counter;
  errors : N
}.

(** The constructor's initial statistics. *)
Definition initial_stats : RequestStats :=
  {| total := 0; byService := ∅; errors := 0 |}.

(** The result of an expression that may throw. *)
Inductive Completion (A : Type) : Type :=
| Normal (a : A)
| Throw (error : string).
Arguments Normal {A} a.
Arguments Throw {A} error.

(** *** Authentication *)

(** JavaScript truthiness of a header or query value ([None] is
    [undefined]): the empty string is falsy, arrays and objects are
    truthy. *)
Definition truthy (v : option QueryValue) : bool :=
  match v with
  | None => false
  | Some (QString s) => negb (String.eqb s "")
  | Some _ => true
  end.

(** [a || b] *)
Definition js_or (a b : option QueryValue) : option QueryValue :=
  if truthy a then a else b.

(** [validateApiKey(apiKey)]. Only strings have [startsWith]: on an array
    or an object the member is [undefined] and the call throws. *)
Definition validateApiKey (apiKey : QueryValue) : Completion bool :=
  match apiKey with
  | QString s => Normal (startsWith s "regima_" && (20 <? String.length s)%nat)
  | _ => Throw "TypeError: apiKey.startsWith is not a function"
  end.

(** What a middleware does with a request: end it with a response, pass it
    on with [next()], or throw. *)
Inductive Outcome : Type :=
| Responded (res : Response)
| Next (req : Request)
| Threw (error : string).

Definition with_user (req : Request) (u : User) : Request :=
  {| method := method req; path := path req; headers := headers req;
     query := query req; body := body req; user := Some u |}.

Definition authentication_required : Json :=
  JObj [("error", JStr "Authentication required");
        ("message", JStr "API key must be provided in X-API-Key header or apiKey query parameter")].

Definition invalid_api_key : Json :=
  JObj [("error", JStr "Invalid API key");
        ("message", JStr "The provided API key is not valid")].

(** [authenticateRequest(req, res, next)] *)
Definition authenticateRequest (req : Request) (res : Response) : Outcome :=
  let apiKey := js_or (QString <$> headers req !! "x-api-key") (query req !! "apiKey") in
  match apiKey with
  | None => Responded (json (status res 401) authentication_required)
  | Some key =>
      if negb (truthy apiKey) then
        Responded (json (status res 401) authentication_required)
      else
        match validateApiKey key with
        | Throw e => Threw e
        | Normal false => Responded (json (status res 403) invalid_api_key)
        | Normal true => Next (with_user req {| apiKey := key; role := "user" |})
        end
  end.

(** *** Request statistics *)

(** The names that [Object.prototype] defines; a plain object inherits
    a member under each of them. *)
Definition object_prototype_names : list string :=
  [ "constructor"; "__defineGetter__"; "__defineSetter__"; "hasOwnProperty";
    "__lookupGetter__"; "__lookupSetter__"; "isPrototypeOf";
    "propertyIsEnumerable"; "toString"; "valueOf"; "__proto__";
    "toLocaleString" ].

Definition inherited (name : string) : bool :=
  existsb (String.eqb name) object_prototype_names.

(** What [byService[name]] reads: the own property if there is one, else
    the inherited member (a function, or for [__proto__] the prototype
    itself), else [undefined]. *)
Inductive Member : Type :=
| Own (c : Counter)
| FromPrototype
| Undefined.

Definition read_counter (table : gmap string Counter) (name : string) : Member :=
  match table !! name with
  | Some c => Own c
  | None => if inherited name then FromPrototype else Undefined
  end.

(** [!value]: zero, [NaN] and [undefined] are falsy, a function or an
    object is not. *)
Definition falsy (v : Member) : bool :=
  match v with
  | Own (Count n) => (n =? 0)%N
  | Own NotANumber | Undefined => true
  | FromPrototype => false
  end.

(** The new value of [value++]: a count goes up by one; a function or an
    object converts to [NaN], and so does [undefined]. *)
Definition incremented (v : Member) : Counter :=
  match v with
  | Own (Count n) => Count (n + 1)
  | Own NotANumber | FromPrototype | Undefined => NotANumber
  end.

(** [byService[name] = value] for a number: the own property is created
    or overwritten, except that without an own property the name
    [__proto__] reaches the setter of [Object.prototype], which ignores a
    value that is not an object. *)
Definition write_counter (table : gmap string Counter) (name : string) (value : Counter)
    : gmap string Counter :=
  match table !! name with
  | None => if String.eqb name "__proto__" then table else <[name := value]> table
  | Some _ => <[name := value]> table
  end.

(** [updateServiceStats(serviceName)] *)
Definition updateServiceStats (serviceName : string) (st : RequestStats) : RequestStats :=
  let byService1 :=
    if falsy (read_counter (byService st) serviceName)
    then write_counter (byService st) serviceName (Count 0)
    else byService st in
  let byService2 :=
    write_counter byService1 serviceName
      (incremented (read_counter byService1 serviceName)) in
  {| total := total st; byService := byService2; errors := errors st |}.

(** The count that a call of [updateServiceStats] starts from: the count
    stored, and zero when the name has no own property or holds [NaN]. *)
Definition count_before (c : option Counter) : N :=
  match c with
  | Some (Count n) => n
  | Some NotANumber | None => 0
  end.

(** A JavaScript number obtained by division. *)
Inductive JsNumber : Type :=
| Finite (q : Q)
| PosInfinity
| NaN.

(** [a / b] on two counters. *)
Definition js_div (a b : N) : JsNumber :=
  match b with
  | N0 => if (a =? 0)%N then NaN else PosInfinity
  | Npos d => Finite (Z.of_N a # d)
  end.

(** A computation together with the divisions (dividend, divisor) it
    performed. *)
Definition Traced (A : Type) : Type := (A * list (N * N))%type.

Definition traced_div (a b : N) : Traced JsNumber := (js_div a b, [(a, b)]).

Record ServiceMetrics := {
  totalRequests : N;
  requestsByService : gmap string Counter;
  errorRate : JsNumber
}.

(** [getServiceMetrics()] *)
Definition getServiceMetrics (st : RequestStats) : Traced ServiceMetrics :=
  let '(rate, divisions) :=
    if (0 <? total st)%N then traced_div (errors st) (total st)
    else (Finite 0, []) in
  ({| totalRequests := total st;
      requestsByService := byService st;
      errorRate := rate |}, divisions).

(** *** Placeholder handlers *)

Definition handleAzureOpenAIChat (req : Request) (res : Response) : Response :=
  json res (JObj [("message", JStr "Azure OpenAI endpoint - implementation pending")]).

Definition handleCognitiveAnalysis (req : Request) (res : Response) : Response :=
  json res (JObj [("message", JStr "Cognitive analysis endpoint - implementation pending")]).

Definition handleDermatologyAssistant (req : Request) (res : Response) : Response :=
  json res (JObj [("message", JStr "Dermatology assistant endpoint - implementation pending")]).

Definition handleProductAdvisor (req : Request) (res : Response) : Response :=
  json res (JObj [("message", JStr "Product advisor endpoint - implementation pending")]).

Definition handleVectorSearch (req : Request) (res : Response) : Response :=
  json res (JObj [("message", JStr "Vector search endpoint - implementation pending")]).

Definition handleKnowledgeQuery (req : Request) (res : Response) : Response :=
  json res (JObj [("message", JStr "Knowledge query endpoint - implementation pending")]).

Definition handleRoutineGenerator (req : Request) (res : Response) : Response :=
  json res (JObj [("message", JStr "Routine generator endpoint - implementation pending")]).

Definition handleAtomSpaceQuery (req : Request) (res : Response) : Response :=
  json res (JObj [("message", JStr "AtomSpace query endpoint - implementation pending")]).

Definition handlePLNReasoning (req : Request) (res : Response) : Response :=
  json res (JObj [("message", JStr "PLN reasoning endpoint - implementation pending")]).

Definition handlePatternMining (req : Request) (res : Response) : Response :=
  json res (JObj [("message", JStr "Pattern mining endpoint - implementation pending")]).

(** The ten placeholder handlers, by name. *)
Inductive Placeholder : Type :=
| AzureOpenAIChat
| CognitiveAnalysis
| DermatologyAssistant
| ProductAdvisor
| VectorSearch
| KnowledgeQuery
| RoutineGenerator
| AtomSpaceQuery
| PLNReasoning
| PatternMining.

Definition placeholder (h : Placeholder) : Request -> Response -> Response :=
  match h with
  | AzureOpenAIChat => handleAzureOpenAIChat
  | CognitiveAnalysis => handleCognitiveAnalysis
  | DermatologyAssistant => handleDermatologyAssistant
  | ProductAdvisor => handleProductAdvisor
  | VectorSearch => handleVectorSearch
  | KnowledgeQuery => handleKnowledgeQuery
  | RoutineGenerator => handleRoutineGenerator
  | AtomSpaceQuery => handleAtomSpaceQuery
  | PLNReasoning => handlePLNReasoning
  | PatternMining => handlePatternMining
  end.

(** *** Protected routes *)

(** The handlers registered under the four protected prefixes by
    [setupServiceRoutes], [setupAgentRoutes], [setupDataServiceRoutes] and
    [setupToolRoutes]; the four [Info] handlers are the inline ones. *)
Inductive RouteHandler : Type :=
| OpenAIChat
| Stub (h : Placeholder)
| ServicesInfo
| SkincareConsultant
| AgentCapabilities
| DataServicesInfo
| ImageAnalysis
| ToolsInfo.

Definition routes : list (string * string * RouteHandler) :=
  [ ("POST", "/v1/openai/chat/completions", OpenAIChat);
    ("POST", "/v1/azure-openai/chat/completions", Stub AzureOpenAIChat);
    ("POST", "/v1/cognitive/analyze", Stub CognitiveAnalysis);
    ("GET", "/v1/services", ServicesInfo);
    ("POST", "/agents/skincare-consultant", SkincareConsultant);
    ("POST", "/agents/dermatology-assistant", Stub DermatologyAssistant);
    ("POST", "/agents/product-advisor", Stub ProductAdvisor);
    ("GET", "/agents/capabilities", AgentCapabilities);
    ("GET", "/data/vectors/search", Stub VectorSearch);
    ("POST", "/data/knowledge/query", Stub KnowledgeQuery);
    ("GET", "/data/services", DataServicesInfo);
    ("POST", "/tools/image-analysis", ImageAnalysis);
    ("POST", "/tools/routine-generator", Stub RoutineGenerator);
    ("GET", "/tools/available", ToolsInfo) ].

(** How the framework matches a request with a route, in its default
    settings (routing is neither case sensitive nor strict). The path of
    the request is compared with the path of the route without regard to
    letter case, and one slash more at the end is accepted; the paths of
    the routes are written in lower case. A route registered for GET also
    answers HEAD. A request path holds no line terminator, and an OPTIONS
    request is answered by the [cors] middleware before it gets here. *)
Definition path_matches (route p : string) : bool :=
  String.eqb (toLowerCase p) route || String.eqb (toLowerCase p) (route ++ "/").

Definition method_matches (route_method m : string) : bool :=
  String.eqb (toLowerCase m) (toLowerCase route_method)
  || String.eqb (toLowerCase m) "head" && String.eqb (toLowerCase route_method) "get".

Definition find_route (m p : string) : option RouteHandler :=
  snd <$> List.find (fun r => method_matches (fst (fst r)) m
                              && path_matches (snd (fst r)) p) routes.

(** The mount paths of the authentication middleware: ['/v1/*'],
    ['/agents/*'], ['/data/*'], ['/tools/*']. A mount path is matched as
    a prefix, without regard to letter case, and its star stands for any
    text, the empty one included. *)
Definition protected_prefixes : list string :=
  ["/v1/"; "/agents/"; "/data/"; "/tools/"].

Definition is_protected (p : string) : bool :=
  existsb (startsWith (toLowerCase p)) protected_prefixes.

(** What the gateway did with a request: the response, and the route
    handlers that were invoked on the way. *)
Record Served := {
  response : Response;
  invoked : list RouteHandler
}.

(** The framework's answers: its default error handler ends a request whose
    middleware threw with status 500, and a request no route matches with
    status 404. *)
Definition internal_server_error : Response := {| statusCode := 500; sent := None |}.
Definition not_found : Response := {| statusCode := 404; sent := None |}.

(** A request on its way through the authentication middleware and the
    route table, from the point where it has passed the body parsers and
    the request logger. [run] is the body of each route handler. *)
Definition serve (run : RouteHandler -> Request -> Response -> Response)
    (req : Request) : Served :=
  let dispatch (r : Request) :=
    match find_route (method r) (path r) with
    | Some h => {| response := run h r fresh_response; invoked := [h] |}
    | None => {| response := not_found; invoked := [] |}
    end in
  if is_protected (path req) then
    match authenticateRequest req fresh_response with
    | Responded res => {| response := res; invoked := [] |}
    | Threw _ => {| response := internal_server_error; invoked := [] |}
    | Next req' => dispatch req'
    end
  else dispatch req.

(** *** A request with a repeated key *)

(** The request [GET /v1/services?apiKey=a&apiKey=b], sent without an
    [X-API-Key] header: the repeated parameter reaches the gateway as the
    array of its two values. *)
Definition repeated_key_request : Request :=
  {| method := "GET";
     path := "/v1/services";
     headers := ∅;
     query := {[ "apiKey" := QArray [QString "a"; QString "b"] ]};
     body := JObj [];
     user := None |}.

(** *** The request logger *)

(** The first statement of the logging middleware: [requestStats.total++]. *)
Definition request_received (st : RequestStats) : RequestStats :=
  {| total := total st + 1; byService := byService st; errors := errors st |}.

(** Its [finish] listener: [if (res.statusCode >= 400) requestStats.errors++]. *)
Definition response_finished (code : nat) (st : RequestStats) : RequestStats :=
  if (400 <=? code)%nat then
    {| total := total st; byService := byService st; errors := errors st + 1 |}
  else st.

(** What changes [requestStats] while the gateway runs: a request arrives
    at the logger, a response finishes, a handler counts its service. *)
Inductive StatsEvent : Type :=
| Received
| Finished (code : nat)
| Counted (serviceName : string).

Definition stats_step (st : RequestStats) (e : StatsEvent) : RequestStats :=
  match e with
  | Received => request_received st
  | Finished code => response_finished code st
  | Counted serviceName => updateServiceStats serviceName st
  end.

Definition stats_run (events : list StatsEvent) (st : RequestStats) : RequestStats :=
  fold_left stats_step events st.

(** The requests received and not yet finished after [events], starting
    from [open] of them; [None] when a response finishes that belongs to no
    received request, which the framework never produces. *)
Fixpoint in_flight (events : list StatsEvent) (open : nat) : option nat :=
  match events with
  | [] => Some open
  | Received :: events' => in_flight events' (S open)
  | Finished _ :: events' =>
      match open with
      | O => None
      | S open' => in_flight events' open'
      end
  | Counted _ :: events' => in_flight events' open
  end.

(** *** The mock handlers *)

(** What a handler takes from the runtime: [Date.now()] and
    [new Date().toISOString()] at the time of the call, and the message of
    the TypeError that the engine throws when the member [key] of [null]
    is read. *)
Record Runtime := {
  now : N;
  isoString : string;
  typeErrorMessage : string -> string
}.

(** The decimal text of a number, as a template literal prints it. *)
Definition decimal (n : N) : string := NilEmpty.string_of_uint (N.to_uint n).

(** Truthiness of a member read from a JSON document ([None] is
    [undefined]). *)
Definition json_truthy (v : option Json) : bool :=
  match v with
  | None | Some JNull => false
  | Some (JBool b) => b
  | Some (JNum q) => negb (Qeq_bool q 0)
  | Some (JStr s) => negb (String.eqb s "")
  | Some (JArr _) | Some (JObj _) => true
  end.

(** [v || fallback] *)
Definition json_or (v : option Json) (fallback : Json) : Json :=
  match v with
  | Some x => if json_truthy v then x else fallback
  | None => fallback
  end.

(** [body.key], for the keys the handlers read: an object has the member or
    not, reading a member of [null] throws, and an array or a primitive has
    none of these members. *)
Definition member (rt : Runtime) (body : Json) (key : string)
    : Completion (option Json) :=
  match body with
  | JNull => Throw (typeErrorMessage rt key)
  | JObj fields => Normal (snd <$> List.find (fun f => String.eqb (fst f) key) fields)
  | _ => Normal None
  end.

(** The [catch] block of the three handlers. *)
Definition internal_error (res : Response) (message : string) : Response :=
  json (status res 500) (JObj [("error", JStr message)]).

(** [handleOpenAIChat(req, res)], with the statistics it works on. *)
Definition handleOpenAIChat (rt : Runtime) (req : Request) (res : Response)
    (st : RequestStats) : Response * RequestStats :=
  match member rt (body req) "model" with
  | Throw message => (internal_error res message, st)
  | Normal model =>
      let response :=
        JObj [ ("id", JStr ("chatcmpl-" ++ decimal (now rt)));
               ("object", JStr "chat.completion");
               ("created", JNum (inject_Z (Z.of_N (now rt / 1000))));
               ("model", json_or model (JStr "gpt-3.5-turbo"));
               ("choices",
                 JArr [ JObj [ ("index", JNum 0);
                               ("message",
                                 JObj [ ("role", JStr "assistant");
                                        ("content", JStr "I'm a specialized dermatology AI assistant. How can I help you with your skincare concerns today?") ]);
                               ("finish_reason", JStr "stop") ] ]);
               ("usage",
                 JObj [ ("prompt_tokens", JNum 20);
                        ("completion_tokens", JNum 25);
                        ("total_tokens", JNum 45) ]) ] in
      (json res response, updateServiceStats "openai" st)
  end.

(** The part of the consultation that is the same for every request. *)
Definition consultation_recommendations : Json :=
  JArr [ JObj [ ("type", JStr "product");
                ("category", JStr "cleanser");
                ("recommendation", JStr "Gentle foaming cleanser for combination skin");
                ("reasoning", JStr "Based on your skin type and current routine") ];
         JObj [ ("type", JStr "routine");
                ("timeOfDay", JStr "morning");
                ("steps", JArr [JStr "cleanser"; JStr "vitamin-c-serum";
                                JStr "moisturizer"; JStr "sunscreen"]);
                ("reasoning", JStr "Protective morning routine for anti-aging goals") ] ].

(** [handleSkincareConsultant(req, res)] *)
Definition handleSkincareConsultant (rt : Runtime) (req : Request) (res : Response)
    (st : RequestStats) : Response * RequestStats :=
  match member rt (body req) "skinType", member rt (body req) "concerns",
        member rt (body req) "routine", member rt (body req) "goals" with
  | Normal skinType, Normal concerns, Normal routine, Normal goals =>
      let consultation :=
        JObj [ ("id", JStr ("consultation-" ++ decimal (now rt)));
               ("timestamp", JStr (isoString rt));
               ("analysis",
                 JObj [ ("skinType", json_or skinType (JStr "combination"));
                        ("primaryConcerns",
                          json_or concerns (JArr [JStr "hydration"; JStr "anti-aging"]));
                        ("currentRoutine", json_or routine (JStr "basic")) ]);
               ("recommendations", consultation_recommendations);
               ("confidence", JNum (85 # 100));
               ("disclaimer", JStr "This consultation is for informational purposes only and does not replace professional dermatological advice.") ] in
      (json res consultation, updateServiceStats "skincare-consultant" st)
  | Throw message, _, _, _ | _, Throw message, _, _
  | _, _, Throw message, _ | _, _, _, Throw message =>
      (internal_error res message, st)
  end.

(** [handleImageAnalysis(req, res)] *)
Definition handleImageAnalysis (rt : Runtime) (req : Request) (res : Response)
    (st : RequestStats) : Response * RequestStats :=
  match member rt (body req) "imageData", member rt (body req) "analysisType" with
  | Normal imageData, Normal analysisType =>
      let analysis :=
        JObj [ ("id", JStr ("analysis-" ++ decimal (now rt)));
               ("timestamp", JStr (isoString rt));
               ("analysisType", json_or analysisType (JStr "skin-assessment"));
               ("results",
                 JObj [ ("conditions", JArr [JStr "mild-acne"; JStr "hyperpigmentation"]);
                        ("severity", JStr "mild");
                        ("recommendations",
                          JArr [JStr "gentle-exfoliation"; JStr "targeted-treatment"]);
                        ("confidence", JNum (78 # 100)) ]);
               ("disclaimer", JStr "This analysis is for informational purposes only. Consult a dermatologist for medical diagnosis.") ] in
      (json res analysis, updateServiceStats "image-analysis" st)
  | Throw message, _ | _, Throw message => (internal_error res message, st)
  end.

(** The three handlers that count their service, by name. *)
Inductive Mock : Type := MockOpenAI | MockConsultant | MockImage.

Definition mock_handler (m : Mock)
    : Runtime -> Request -> Response -> RequestStats -> Response * RequestStats :=
  match m with
  | MockOpenAI => handleOpenAIChat
  | MockConsultant => handleSkincareConsultant
  | MockImage => handleImageAnalysis
  end.

Definition mock_service (m : Mock) : string :=
  match m with
  | MockOpenAI => "openai"
  | MockConsultant => "skincare-consultant"
  | MockImage => "image-analysis"
  end.

(** *** Routes outside the protected prefixes *)

(** The routes of [setupGatewayRoutes], [setupCognitiveIntegration],
    [setupMonitoring] and [setupDocumentation]. *)
Inductive OpenHandler : Type :=
| GatewayInfo
| Health
| GatewayConfig
| CognitiveStub (h : Placeholder)
| CognitiveStatus
| Metrics
| Policies
| Docs.

Definition open_routes : list (string * string * OpenHandler) :=
  [ ("GET", "/gateway/info", GatewayInfo);
    ("GET", "/health", Health);
    ("GET", "/gateway/config", GatewayConfig);
    ("GET", "/cognitive/atomspace", CognitiveStub AtomSpaceQuery);
    ("POST", "/cognitive/reasoning", CognitiveStub PLNReasoning);
    ("GET", "/cognitive/patterns", CognitiveStub PatternMining);
    ("GET", "/cognitive/status", CognitiveStatus);
    ("GET", "/metrics", Metrics);
    ("GET", "/policies", Policies);
    ("GET", "/docs", Docs) ].

Definition find_open_route (m p : string) : option OpenHandler :=
  snd <$> List.find (fun r => method_matches (fst (fst r)) m
                              && path_matches (snd (fst r)) p)
                    open_routes.

(** Where a request ends in the whole stack behind the logger: at a handler
    of a protected route (with the request as the middleware passed it on),
    at a handler of one of the other routes, at a response of the
    authentication middleware or of the framework's error handler, or at no
    route. *)
Inductive Reached : Type :=
| ReachedProtected (h : RouteHandler) (req : Request)
| ReachedOpen (h : OpenHandler)
| Rejected (res : Response)
| NoRoute.

Definition find_handler (req : Request) : Reached :=
  match find_open_route (method req) (path req) with
  | Some h => ReachedOpen h
  | None =>
      match find_route (method req) (path req) with
      | Some h => ReachedProtected h req
      | None => NoRoute
      end
  end.

Definition route_request (req : Request) : Reached :=
  if is_protected (path req) then
    match authenticateRequest req fresh_response with
    | Responded res => Rejected res
    | Threw _ => Rejected internal_server_error
    | Next req' => find_handler req'
    end
  else find_handler req.

(** *** Sample requests *)

(** A request with a valid key in its query string, for a GET route
    asked for with HEAD, in capitals and with a slash at the end. *)
Definition variant_request : Request :=
  {| method := "HEAD";
     path := "/V1/Services/";
     headers := ∅;
     query := {[ "apiKey" := QString "regima_0123456789abcdef" ]};
     body := JObj [];
     user := None |}.

(** A request with an invalid key in the header and a valid one in the
    query string. *)
Definition two_key_request : Request :=
  {| method := "GET";
     path := "/v1/services";
     headers := {[ "x-api-key" := "guest" ]};
     query := {[ "apiKey" := QString "regima_0123456789abcdef" ]};
     body := JObj [];
     user := None |}.

(** A request for the configuration without any key. *)
Definition config_request : Request :=
  {| method := "GET";
     path := "/gateway/config";
     headers := ∅;
     query := ∅;
     body := JObj [];
     user := None |}.

(** The members of the body that each of the three handlers uses in its
    answer. *)
Definition mock_inputs (m : Mock) : list string :=
  match m with
  | MockOpenAI => ["model"]
  | MockConsultant => ["skinType"; "concerns"; "routine"]
  | MockImage => ["analysisType"]
  end.

(** A consultation request and an image-analysis request. *)
Definition consultation_request (goals : Json) : Request :=
  {| method := "POST";
     path := "/agents/skincare-consultant";
     headers := ∅;
     query := ∅;
     body := JObj [("skinType", JStr "oily"); ("goals", goals)];
     user := None |}.

Definition image_request (imageData : string) : Request :=
  {| method := "POST";
     path := "/tools/image-analysis";
     headers := ∅;
     query := ∅;
     body := JObj [("imageData", JStr imageData)];
     user := None |}.

End Gateway.

(** ** The cognitive layer (public/assets/js/cognitive-layer.js) *)

Module CognitiveLayer.
Import JsString.

(** *** Data *)

Record Entity := { entity_type : string; value : string }.

Record Relationship := {
  relationship_type : string;
  source : string;
  target : string;
  strength : Q
}.

Record Attributes := {
  url : string;
  title : string;
  domain : string;
  keywords : list string;
  entities : list Entity;
  relationships : list Relationship
}.

Record TruthValue := { tv_strength : Q; confidence : Q }.

(** The [atomData] object that [sendToAtomSpace] builds and
    [storeKnowledgeNode] stores. *)
Record AtomData := {
  atom_type : string;
  name : string;
  truthValue : TruthValue;
  attributes : Attributes
}.

Record NavigationEntry := { path : string; timestamp : N }.

(** The two keys of [localStorage] that the script uses. An item holds the
    JSON text of an array; it is modelled by the array it parses to, and a
    missing item is [None]. *)
Record LocalStorage := {
  skintwin_knowledge : option (list AtomData);
  skintwin_navigation : option (list NavigationEntry)
}.

(** [JSON.parse(localStorage.getItem(key) || '[]')] *)
Definition parse_or_empty {A : Type} (item : option (list A)) : list A :=
  match item with
  | Some array => array
  | None => []
  end.

(** [storeKnowledgeNode(atomData)] *)
Definition storeKnowledgeNode (atomData : AtomData) (ls : LocalStorage) : LocalStorage :=
  let stored := (parse_or_empty (skintwin_knowledge ls) ++ [atomData])%list in
  {| skintwin_knowledge := Some stored;
     skintwin_navigation := skintwin_navigation ls |}.

(** *** Sorting *)

(** [array.sort(compare)]: a stable sort; [x] goes before [y] when
    [compare(x, y) <= 0].  The numbers compared are rationals, and the test
    is on the sign of the comparator's result. *)
Fixpoint insert_sorted {A : Type} (compare : A -> A -> Q) (x : A) (l : list A) : list A :=
  match l with
  | [] => [x]
  | y :: l' =>
      if Qle_bool (compare x y) 0 then x :: y :: l'
      else y :: insert_sorted compare x l'
  end.

Definition sort {A : Type} (compare : A -> A -> Q) (l : list A) : list A :=
  fold_right (insert_sorted compare) [] l.

(** *** Reasoning *)

Record ReasoningResult := {
  node : string;
  relevance : Q;
  result_attributes : Attributes
}.

(** The test of [performReasoning] on one stored node:
    [node.attributes.keywords.some(keyword =>
       query.toLowerCase().includes(keyword.toLowerCase()))] *)
Definition keyword_matches (query : string) (n : AtomData) : bool :=
  existsb (fun keyword => includes (toLowerCase query) (toLowerCase keyword))
          (keywords (attributes n)).

(** One round of the [forEach] of [performReasoning]. The state is the
    [results] array and the number of calls of [Math.random()] made so far;
    [random i] is what call number [i] returns. *)
Definition reasoning_step (random : nat -> Q) (query : string)
    (state : list ReasoningResult * nat) (n : AtomData) : list ReasoningResult * nat :=
  let '(results, calls) := state in
  if keyword_matches query n then
    ((results ++ [{| node := name n;
                     relevance := (random calls * (8 # 10) + (2 # 10))%Q;
                     result_attributes := attributes n |}])%list,
     S calls)
  else (results, calls).

(** [performReasoning(query)] *)
Definition performReasoning (random : nat -> Q) (ls : LocalStorage) (query : string)
    : list ReasoningResult :=
  let knowledge := parse_or_empty (skintwin_knowledge ls) in
  let results := fst (fold_left (reasoning_step random query) knowledge ([], 0%nat)) in
  sort (fun a b => (relevance b - relevance a)%Q) results.

(** *** Navigation *)

(** A [Map] from strings to counts, in insertion order. *)
Fixpoint map_get (key : string) (m : list (string * nat)) : option nat :=
  match m with
  | [] => None
  | (k, v) :: m' => if String.eqb k key then Some v else map_get key m'
  end.

Fixpoint map_set (key : string) (v : nat) (m : list (string * nat)) : list (string * nat) :=
  match m with
  | [] => [(key, v)]
  | (k, v') :: m' =>
      if String.eqb k key then (k, v) :: m' else (k, v') :: map_set key v m'
  end.

(** The loop of [generateNavigationPredictions] over the consecutive pairs
    of the history. *)
Fixpoint count_transitions (history : list NavigationEntry)
    (transitions : list (string * nat)) : list (string * nat) :=
  match history with
  | from :: (to :: _) as rest =>
      let key := path from ++ "_" ++ path to in
      let seen := match map_get key transitions with Some n => n | None => O end in
      count_transitions rest (map_set key (seen + 1)%nat transitions)
  | _ => transitions
  end.

(** [path] is the second piece of the key and is [undefined] ([None]) when
    there is none. *)
Record Prediction := { predicted_path : option string; probability : Q }.

(** [generateNavigationPredictions(history)]. A transition exists only in a
    history of two entries or more, so the divisor is positive. *)
Definition generateNavigationPredictions (history : list NavigationEntry)
    : list Prediction :=
  let transitions := count_transitions history [] in
  let currentPath := path <$> last history in
  let predictions :=
    flat_map (fun '(key, count) =>
      let pieces := split key "_" in
      if decide (pieces !! 0%nat = currentPath) then
        [{| predicted_path := pieces !! 1%nat;
            probability := Z.of_nat count # Pos.of_nat (length history) |}]
      else []) transitions in
  take 3 (sort (fun a b => (probability b - probability a)%Q) predictions).

(** [predictUserJourney(currentPath)]; [now] is [Date.now()]. Returns the
    storage after the call and the predictions. *)
Definition predictUserJourney (now : N) (currentPath : string) (ls : LocalStorage)
    : LocalStorage * list Prediction :=
  let pushed := (parse_or_empty (skintwin_navigation ls)
                 ++ [{| path := currentPath; timestamp := now |}])%list in
  let navigationHistory :=
    if (50 <? length pushed)%nat then drop (length pushed - 50) pushed else pushed in
  ({| skintwin_knowledge := skintwin_knowledge ls;
      skintwin_navigation := Some navigationHistory |},
   generateNavigationPredictions navigationHistory).

(** *** Vocabulary of the properties *)

(** The result that [performReasoning] builds for a matching node when the
    random number drawn for it is [r]. *)
Definition result_for (n : AtomData) (r : Q) : ReasoningResult :=
  {| node := name n;
     relevance := (r * (8 # 10) + (2 # 10))%Q;
     result_attributes := attributes n |}.

(** The last [k] entries of a list. *)
Definition last_entries {A : Type} (k : nat) (l : list A) : list A :=
  drop (length l - k) l.

(** The entry that one call pushes. *)
Definition pushed_entry (call : N * string) : NavigationEntry :=
  {| path := snd call; timestamp := fst call |}.

(** The storage after a sequence of calls, each with its [Date.now()] and
    its path. *)
Definition after_calls (calls : list (N * string)) (ls : LocalStorage) : LocalStorage :=
  fold_left (fun st call => fst (predictUserJourney (fst call) (snd call) st)) calls ls.

(** *** Pattern mining *)

(** The object that [minePatterns] returns; the second and the third member
    are created empty and never filled. *)
Record Patterns := {
  productConcernPairs : list (string * nat);
  commonIngredients : list (string * nat);
  pageNavigationPatterns : list string
}.

(** The body of the inner [forEach] of [minePatterns], on one relationship. *)
Definition mine_relationship (pairs : list (string * nat)) (rel : Relationship)
    : list (string * nat) :=
  if String.eqb (relationship_type rel) "treats" then
    let key := source rel ++ "_" ++ target rel in
    let seen := match map_get key pairs with Some n => n | None => O end in
    map_set key (seen + 1)%nat pairs
  else pairs.

(** [minePatterns()] *)
Definition minePatterns (ls : LocalStorage) : Patterns :=
  let knowledge := parse_or_empty (skintwin_knowledge ls) in
  {| productConcernPairs :=
       fold_left
         (fun pairs n => fold_left mine_relationship (relationships (attributes n)) pairs)
         knowledge [];
     commonIngredients := [];
     pageNavigationPatterns := [] |}.

(** [getKnowledgeGraph()] and [query(searchTerm)] *)
Definition getKnowledgeGraph (ls : LocalStorage) : list AtomData :=
  parse_or_empty (skintwin_knowledge ls).

Definition query (random : nat -> Q) (ls : LocalStorage) (searchTerm : string)
    : list ReasoningResult :=
  performReasoning random ls searchTerm.

(** *** The page *)

(** What the script reads of the document: the path of the location, the
    title, the [content] attribute of the description [meta] element
    ([None] without the element, [Some None] without the attribute) and
    the text content of the body. *)
Record Document := {
  pathname : string;
  document_title : string;
  meta_description : option (option string);
  textContent : string
}.

(** The [pageData] object of [extractPageKnowledge]. *)
Record PageData := {
  data_url : string;
  data_title : string;
  data_description : option string;
  data_keywords : list string;
  data_entities : list Entity;
  data_relationships : list Relationship;
  data_domain : string
}.

(** The fields of a layer. *)
Record Layer := {
  initialized : bool;
  knowledgeNodes : gmap string PageData;
  currentPage : string
}.

(** [getMetaContent('description')] *)
Definition getMetaContent (doc : Document) : option string :=
  match meta_description doc with
  | Some content => content
  | None => Some ""
  end.

Definition dermatologyKeywords : list string :=
  [ "skin"; "skincare"; "dermatology"; "anti-aging"; "wrinkles";
    "acne"; "pigmentation"; "moisturizer"; "serum"; "treatment";
    "cleansing"; "toning"; "rejuvenation"; "collagen"; "elastin";
    "vitamin"; "antioxidant"; "peptides"; "retinol"; "hyaluronic";
    "sunscreen"; "spf"; "exfoliation"; "inflammation"; "repair" ].

(** [extractKeywords()] *)
Definition extractKeywords (doc : Document) : list string :=
  let text := toLowerCase (textContent doc) in
  List.filter (fun keyword => includes text keyword) dermatologyKeywords.

(** [extractRelationships()] *)
Definition extractRelationships (layer : Layer) : list Relationship :=
  let entities :=
    match knowledgeNodes layer !! currentPage layer with
    | Some data => data_entities data
    | None => []
    end in
  let products := List.filter (fun e => String.eqb (entity_type e) "product") entities in
  let concerns := List.filter (fun e => String.eqb (entity_type e) "concern") entities in
  flat_map
    (fun product =>
       List.map
         (fun concern =>
            {| relationship_type := "treats";
               source := value product;
               target := value concern;
               strength := 8 # 10 |})
         concerns)
    products.

Definition is_alphanumeric (c : ascii) : bool :=
  let n := nat_of_ascii c in
  ((48 <=? n) && (n <=? 57) || (65 <=? n) && (n <=? 90) || (97 <=? n) && (n <=? 122))%nat.

Fixpoint map_chars (f : ascii -> ascii) (s : string) : string :=
  match s with
  | EmptyString => EmptyString
  | String c s' => String (f c) (map_chars f s')
  end.

(** The name of the node of a page: every character of the URL that is
    not a letter or a digit is replaced by an underscore. *)
Definition node_name (pageUrl : string) : string :=
  "Page_" ++ map_chars (fun c => if is_alphanumeric c then c else "_"%char) pageUrl.

(** The [atomData] object of [sendToAtomSpace]. *)
Definition atom_of (data : PageData) : AtomData :=
  {| atom_type := "ConceptNode";
     name := node_name (data_url data);
     truthValue := {| tv_strength := 9 # 10; confidence := 8 # 10 |};
     attributes :=
       {| url := data_url data;
          title := data_title data;
          domain := data_domain data;
          keywords := data_keywords data;
          entities := data_entities data;
          relationships := data_relationships data |} |}.

(** [sendToAtomSpace(data)] *)
Definition sendToAtomSpace (data : PageData) (ls : LocalStorage) : LocalStorage :=
  storeKnowledgeNode (atom_of data) ls.

Section PageLoad.

(** The emoji at the head of the indicator's text, which is outside the
    code units of this model, and the three regular-expression scans of
    [extractEntities] over the text of the page. *)
Variable brain : string.
Variable extractEntities : string -> list Entity.

(** [setupCognitiveIndicator()]: a new element with the indicator's text
    becomes the last child of the body. *)
Definition setupCognitiveIndicator (doc : Document) : Document :=
  {| pathname := pathname doc;
     document_title := document_title doc;
     meta_description := meta_description doc;
     textContent := textContent doc ++ brain ++ " SkinTwin Active" |}.

(** [extractPageKnowledge()] *)
Definition extractPageKnowledge (doc : Document) (layer : Layer) (ls : LocalStorage)
    : Layer * LocalStorage :=
  let pageData :=
    {| data_url := currentPage layer;
       data_title := document_title doc;
       data_description := getMetaContent doc;
       data_keywords := extractKeywords doc;
       data_entities := extractEntities (textContent doc);
       data_relationships := extractRelationships layer;
       data_domain := "dermatology" |} in
  ({| initialized := initialized layer;
      knowledgeNodes := <[currentPage layer := pageData]> (knowledgeNodes layer);
      currentPage := currentPage layer |},
   sendToAtomSpace pageData ls).

(** What a call leaves behind: the document, the layer and the storage,
    and how it ended. *)
Record Loaded := {
  document_after : Document;
  layer_after : Layer;
  storage_after : LocalStorage;
  completion : option string
}.

(** [init()]. The class does not define [setupAtomSpaceConnection], so
    calling it throws, and the assignment to [initialized] after it is not
    reached. *)
Definition init (doc : Document) (layer : Layer) (ls : LocalStorage) : Loaded :=
  let doc1 := setupCognitiveIndicator doc in
  let '(layer1, ls1) := extractPageKnowledge doc1 layer ls in
  {| document_after := doc1;
     layer_after := layer1;
     storage_after := ls1;
     completion := Some "TypeError: this.setupAtomSpaceConnection is not a function" |}.

(** [new CognitiveLayer()] on a page *)
Definition construct (doc : Document) (ls : LocalStorage) : Loaded :=
  init doc
    {| initialized := false; knowledgeNodes := ∅; currentPage := pathname doc |}
    ls.

(** The storage after the constructor has run on each of the pages, one
    page load after the other. *)
Definition page_loads (docs : list Document) (ls : LocalStorage) : LocalStorage :=
  fold_left (fun st doc => storage_after (construct doc st)) docs ls.

End PageLoad.

(** *** Vocabulary of the counting properties *)

(** How often a key occurs in a list of keys. *)
Definition occurrences (key : string) (l : list string) : nat :=
  length (List.filter (String.eqb key) l).

(** The keys of the consecutive pairs of a history, in order. *)
Fixpoint transition_keys (history : list NavigationEntry) : list string :=
  match history with
  | from :: (to :: _) as rest => (path from ++ "_" ++ path to) :: transition_keys rest
  | _ => []
  end.

(** The keys of the [treats] relationships of the stored nodes, in order. *)
Definition treats_keys (knowledge : list AtomData) : list string :=
  flat_map
    (fun n =>
       flat_map
         (fun rel =>
            if String.eqb (relationship_type rel) "treats"
            then [source rel ++ "_" ++ target rel] else [])
         (relationships (attributes n)))
    knowledge.

(** Counting the keys of a list into a map, one [get] and one [set] per
    key, as both loops of the script do. *)
Definition count_key (m : list (string * nat)) (key : string) : list (string * nat) :=
  map_set key (match map_get key m with Some n => n | None => O end + 1)%nat m.

End CognitiveLayer.

(** ** The site builder (the build script) *)

Module SiteBuilder.
Import JsString.

(** *** Front matter *)

(** A lazy group of arbitrary characters, then the literal [sep], then a
    greedy group that takes the rest of the input: the shortest prefix of
    [s] that [sep] follows, and what comes after that [sep]. *)
Fixpoint lazy_until (sep s : string) : option (string * string) :=
  if startsWith s sep then Some (EmptyString, substring_from s (String.length sep))
  else
    match s with
    | EmptyString => None
    | String c s' =>
        match lazy_until sep s' with
        | Some (group, rest) => Some (String c group, rest)
        | None => None
        end
    end.

(** The delimiters of the regex: three dashes and a line feed at the start
    of the input; a line feed, three dashes and a line feed after the
    block. *)
Definition opening : string := "---" ++ LF.
Definition closing : string := LF ++ "---" ++ LF.

(** [content.match(frontmatterRegex)]: the regex is anchored at both ends
    and reads three dashes, a line feed, the lazy group, a line feed, three
    dashes, a line feed and the greedy group. The result is the two
    groups. *)
Definition frontmatterRegex (content : string) : option (string * string) :=
  if startsWith content opening then
    lazy_until closing (substring_from content (String.length opening))
  else None.

Definition is_quote (c : ascii) : bool :=
  Ascii.eqb c (chr 34) || Ascii.eqb c (chr 39).

(** The second alternative of the quote regex: a quote character that is
    the last character. *)
Fixpoint strip_final_quote (s : string) : string :=
  match s with
  | EmptyString => EmptyString
  | String c EmptyString => if is_quote c then EmptyString else s
  | String c s' => String c (strip_final_quote s')
  end.

(** [s.replace(quoteRegex, '')] for the global regex of two alternatives,
    a double or single quote at the start and a double or single quote at
    the end: the first alternative can match at index 0 only, the second
    one at a later, last index. *)
Definition strip_quotes (s : string) : string :=
  match s with
  | EmptyString => EmptyString
  | String c s' =>
      if is_quote c then strip_final_quote s' else String c (strip_final_quote s')
  end.

(** [frontmatter[key] = value] for a string, on the own properties of
    the plain object: the own property is created or overwritten, except
    that without an own property the name [__proto__] reaches the setter
    of [Object.prototype], which ignores a value that is not an object. *)
Definition set_property (frontmatter : gmap string string) (key value : string)
    : gmap string string :=
  match frontmatter !! key with
  | None => if String.eqb key "__proto__" then frontmatter
            else <[key := value]> frontmatter
  | Some _ => <[key := value]> frontmatter
  end.

(** The body of the [forEach] over the lines of the front matter. *)
Definition frontmatter_line (frontmatter : gmap string string) (line : string)
    : gmap string string :=
  let colonIndex := indexOf line ":" in
  if (0 <? colonIndex)%Z then
    let key := trim (substring_between line 0 (Z.to_nat colonIndex)) in
    let value := strip_quotes (trim (substring_from line (Z.to_nat colonIndex + 1))) in
    set_property frontmatter key value
  else frontmatter.

(** [parseFrontmatter(content)]: the pair [{ frontmatter, body }]. *)
Definition parseFrontmatter (content : string) : gmap string string * string :=
  match frontmatterRegex content with
  | Some (frontmatterText, body) =>
      (fold_left frontmatter_line (split frontmatterText (chr 10)) ∅, body)
  | None => (∅, content)
  end.

(** **** Vocabulary of the front-matter properties *)

(** [content] begins with a front-matter block: the opening line, the
    block [t], the first closing line after it, and the rest [b]. *)
Definition frontmatter_block (content t b : string) : Prop :=
  content = opening ++ t ++ closing ++ b
  /\ forall t' b', content = opening ++ t' ++ closing ++ b' ->
       (String.length t <= String.length t')%nat.

Definition is_colon (c : ascii) : bool := Ascii.eqb c ":".

(** The line sets an entry: its first colon is at a positive index. *)
Definition has_entry (line : string) : bool := (0 <? indexOf line ":")%Z.

(** The key and the value that a line with an entry sets. *)
Definition line_key (line : string) : string :=
  trim (substring_between line 0 (Z.to_nat (indexOf line ":"))).

Definition line_value (line : string) : string :=
  strip_quotes (trim (substring_from line (Z.to_nat (indexOf line ":") + 1))).

(** One leading quote character less. *)
Definition strip_leading_quote (s : string) : string :=
  match s with
  | EmptyString => EmptyString
  | String c s' => if is_quote c then s' else s
  end.

(** The lines of a block. *)
Definition block_lines (t : string) : list string := split t (chr 10).

(** The reading of the front matter in which every line of the block with
    an entry has it in the result. *)
Definition every_line_yields_entry (t : string) (frontmatter : gmap string string) : Prop :=
  forall line, In line (block_lines t) -> has_entry line = true ->
    frontmatter !! line_key line = Some (line_value line).

(** *** Template *)

(** The [variables] object that [buildPage] passes. *)
Record Variables := {
  title : string;
  description : string;
  content : string;
  path : string;
  schemaType : string
}.

(** [Object.entries(variables)], in the order the properties are written. *)
Definition entries (variables : Variables) : list (string * string) :=
  [ ("title", title variables);
    ("description", description variables);
    ("content", content variables);
    ("path", path variables);
    ("schemaType", schemaType variables) ].

(** The source of [new RegExp(`{{${key}}}`, 'g')]; the braces stand for
    themselves. *)
Definition placeholder_pattern (key : string) : string := "{{" ++ key ++ "}}".

(** The expansion of a replacement string at one match, for a pattern
    without groups: [$$] is a dollar sign, [$&] the match, [$`] the text
    before it and [$'] the text after it. *)
Fixpoint getSubstitution (matched before after replacement : string) : string :=
  match replacement with
  | EmptyString => EmptyString
  | String c r =>
      if Ascii.eqb c "$" then
        match r with
        | EmptyString => String c EmptyString
        | String d r' =>
            if Ascii.eqb d "$" then
              String "$" (getSubstitution matched before after r')
            else if Ascii.eqb d "&" then
              matched ++ getSubstitution matched before after r'
            else if Ascii.eqb d "`" then
              before ++ getSubstitution matched before after r'
            else if Ascii.eqb d "'" then
              after ++ getSubstitution matched before after r'
            else String c (getSubstitution matched before after r)
        end
      else String c (getSubstitution matched before after r)
  end.

(** The scan of [str.replace(regex, replacement)] for a global regex of a
    literal, non-empty [pattern]: [rest] is [str] from [position] on, and
    [skip] counts the characters of a match still to pass. *)
Fixpoint replace_from (pattern replacement str : string) (position skip : nat)
    (rest : string) : string :=
  match rest with
  | EmptyString => EmptyString
  | String c rest' =>
      match skip with
      | S skip' => replace_from pattern replacement str (S position) skip' rest'
      | O =>
          if startsWith rest pattern then
            getSubstitution pattern
              (substring 0 position str)
              (substring_from str (position + String.length pattern))
              replacement
            ++ replace_from pattern replacement str (S position)
                 (String.length pattern - 1) rest'
          else String c (replace_from pattern replacement str (S position) 0 rest')
      end
  end.

Definition replace_global (pattern replacement str : string) : string :=
  replace_from pattern replacement str 0 0 str.

(** [processTemplate(template, variables)] *)
Definition processTemplate (template : string) (variables : Variables) : string :=
  fold_left
    (fun html '(key, value) => replace_global (placeholder_pattern key) value html)
    (entries variables) template.

(** *** Templates as text with holes *)

Inductive Key : Type := KTitle | KDescription | KContent | KPath | KSchemaType.

Definition key_name (k : Key) : string :=
  match k with
  | KTitle => "title"
  | KDescription => "description"
  | KContent => "content"
  | KPath => "path"
  | KSchemaType => "schemaType"
  end.

Definition key_value (variables : Variables) (k : Key) : string :=
  match k with
  | KTitle => title variables
  | KDescription => description variables
  | KContent => content variables
  | KPath => path variables
  | KSchemaType => schemaType variables
  end.

(** A template as a sequence of literal characters and placeholders. *)
Inductive Segment : Type :=
| Lit (c : ascii)
| Hole (k : Key).

Definition segment_text (seg : Segment) : string :=
  match seg with
  | Lit c => String c EmptyString
  | Hole k => placeholder_pattern (key_name k)
  end.

(** The text of a template. *)
Fixpoint template_text (segments : list Segment) : string :=
  match segments with
  | [] => EmptyString
  | seg :: rest => segment_text seg ++ template_text rest
  end.

(** The template with every placeholder replaced by the value of its
    variable, and every literal character kept. *)
Fixpoint instantiate (variables : Variables) (segments : list Segment) : string :=
  match segments with
  | [] => EmptyString
  | Lit c :: rest => String c (instantiate variables rest)
  | Hole k :: rest => key_value variables k ++ instantiate variables rest
  end.

Definition is_open_brace (c : ascii) : bool := Ascii.eqb c "{".

Definition starts_with_brace (s : string) : bool :=
  match s with
  | EmptyString => false
  | String c _ => is_open_brace c
  end.

(** No literal opening brace is directly followed by another opening
    brace: two opening braces in a row always begin a placeholder. *)
Fixpoint well_delimited (segments : list Segment) : bool :=
  match segments with
  | [] => true
  | Lit c :: rest =>
      negb (is_open_brace c && starts_with_brace (template_text rest))
      && well_delimited rest
  | Hole _ :: rest => well_delimited rest
  end.

(** No value has a dollar sign or an opening brace. *)
Definition plain_values (variables : Variables) : bool :=
  forallb (fun kv => forall_chars
                      (fun c => negb (Ascii.eqb c "$" || is_open_brace c)) (snd kv))
          (entries variables).

(** A text as a template without placeholders. *)
Fixpoint literal (s : string) : list Segment :=
  match s with
  | EmptyString => []
  | String c s' => Lit c :: literal s'
  end.

Definition same_key (a b : Key) : bool := String.eqb (key_name a) (key_name b).

(** The template after the placeholders of [k] have given way to [value]. *)
Fixpoint fill_hole (k : Key) (value : string) (segments : list Segment) : list Segment :=
  match segments with
  | [] => []
  | Lit c :: rest => Lit c :: fill_hole k value rest
  | Hole k' :: rest =>
      if same_key k k' then (literal value ++ fill_hole k value rest)%list
      else Hole k' :: fill_hole k value rest
  end.

(** The keys in the order of [entries]. *)
Definition keys : list Key := [KTitle; KDescription; KContent; KPath; KSchemaType].

(** The claim's reading of the substitution, on the text itself: one scan
    from left to right in which every occurrence of a placeholder gives way
    to the value of its variable and every other character is kept. *)
Fixpoint substitute_from (variables : Variables) (skip : nat) (s : string) : string :=
  match s with
  | EmptyString => EmptyString
  | String c s' =>
      match skip with
      | S skip' => substitute_from variables skip' s'
      | O =>
          match List.find (fun kv => startsWith s (placeholder_pattern (fst kv)))
                          (entries variables) with
          | Some (key, value) =>
              value ++ substitute_from variables
                         (String.length (placeholder_pattern key) - 1) s'
          | None => String c (substitute_from variables 0 s')
          end
      end
  end.

Definition substitute_placeholders (template : string) (variables : Variables) : string :=
  substitute_from variables 0 template.

(** *** The build *)

(** An absolute, normalised path: its components from the root down. *)
Definition Path : Type := list string.

(** [path.join(dir, segment)] for a segment without a slash: an empty
    segment and a single dot leave [dir] as it is, two dots go up. *)
Definition join (dir : Path) (segment : string) : Path :=
  if String.eqb segment "" || String.eqb segment "." then dir
  else if String.eqb segment ".." then removelast dir
  else (dir ++ [segment])%list.

(** [path.basename(file, ext)] for a file name without a slash. *)
Definition basename (file ext : string) : string :=
  if endsWith file ext then
    substring_between file 0 (String.length file - String.length ext)
  else file.

(** The file-system calls of the script, as they appear in the log of a
    run; a read is logged with what it returned. *)
Inductive FsOp : Type :=
| Remove (p : Path)
| EnsureDir (p : Path)
| Copy (src dst : Path)
| ReadDir (p : Path) (names : list string)
| ReadFile (p : Path) (data : string)
| WriteFile (p : Path) (data : string).

(** The file system under the script (the fs-extra calls it makes). Each
    call either throws ([None]) or succeeds. *)
Class FileSystem (World : Type) := {
  fs_remove : Path -> World -> option World;
  fs_ensureDir : Path -> World -> option World;
  fs_copy : Path -> Path -> World -> option World;
  fs_readdir : Path -> World -> option (list string);
  fs_readFile : Path -> World -> option string;
  fs_writeFile : Path -> string -> World -> option World
}.

(** What the build takes from outside the script: the directory above the
    script's own, the markdown renderer [marked], and the four documents
    that [generateSitemap], [generateRobots] and [generateCognitiveIndex]
    write (template literals evaluated at the date of the build). *)
Record Environment := {
  site : Path;
  marked : string -> string;
  sitemap : string;
  robots : string;
  cognitiveIndex : string;
  apiDoc : string
}.

Section Build.
Context {World : Type} {FS : FileSystem World}.
Variable env : Environment.

(** An asynchronous method of the builder: it runs on the file system and
    the log of the calls made so far and either throws ([None]) or returns
    a value. *)
Definition Async (A : Type) : Type :=
  World * list FsOp -> option A * (World * list FsOp).

Definition ret {A : Type} (a : A) : Async A := fun st => (Some a, st).

(** [await m] followed by [k]; a rejection of [m] propagates. *)
Definition bind {A B : Type} (m : Async A) (k : A -> Async B) : Async B :=
  fun st =>
    match m st with
    | (Some a, st') => k a st'
    | (None, st') => (None, st')
    end.

Notation "x <- m ;; k" := (bind m (fun x => k))
  (at level 100, m at next level, right associativity).
Notation "m ;; k" := (bind m (fun _ => k))
  (at level 100, right associativity).

(** One call that changes the file system. *)
Definition update (call : World -> option World) (op : FsOp) : Async unit :=
  fun '(w, log) =>
    match call w with
    | Some w' => (Some tt, (w', (log ++ [op])%list))
    | None => (None, (w, log))
    end.

(** One call that reads from the file system. *)
Definition read {A : Type} (call : World -> option A) (op : A -> FsOp) : Async A :=
  fun '(w, log) =>
    match call w with
    | Some a => (Some a, (w, (log ++ [op a])%list))
    | None => (None, (w, log))
    end.

Definition remove (p : Path) : Async unit := update (fs_remove p) (Remove p).
Definition ensureDir (p : Path) : Async unit := update (fs_ensureDir p) (EnsureDir p).
Definition copy (src dst : Path) : Async unit := update (fs_copy src dst) (Copy src dst).
Definition readdir (p : Path) : Async (list string) := read (fs_readdir p) (ReadDir p).
Definition readFile (p : Path) : Async string := read (fs_readFile p) (ReadFile p).
Definition writeFile (p : Path) (data : string) : Async unit :=
  update (fs_writeFile p data) (WriteFile p data).

(** [for (const x of l) { await f(x); }] *)
Fixpoint for_of {A : Type} (l : list A) (f : A -> Async unit) : Async unit :=
  match l with
  | [] => ret tt
  | x :: l' => f x ;; for_of l' f
  end.

(** The constructor's directories and [siteConfig]. *)
Definition publicDir : Path := join (site env) "public".
Definition contentDir : Path := join (site env) "content".
Definition templatesDir : Path := join (site env) "templates".
Definition assetsDir : Path := join (site env) "assets".

Definition siteConfig_title : string := "R" ++ String (chr 233) "gimA Zone".
Definition siteConfig_description : string :=
  "Advanced skincare solutions powered by cognitive architecture".

(** [frontmatter[key] || fallback] *)
Definition or_default (frontmatter : gmap string string) (key fallback : string) : string :=
  match frontmatter !! key with
  | Some v => if String.eqb v "" then fallback else v
  | None => fallback
  end.

(** [copyAssets()] *)
Definition copyAssets : Async unit :=
  let assetsTarget := join publicDir "assets" in
  copy assetsDir assetsTarget.

(** Where [buildPage] writes the page of [pageFile]. *)
Definition pageDir (pageFile : string) : Path :=
  join publicDir (basename pageFile ".md").

Definition outputPath (pageFile : string) : Path :=
  if String.eqb pageFile "index.md" then join publicDir "index.html"
  else join (pageDir pageFile) "index.html".

(** The HTML of a page, from the text of its markdown file and the text of
    the layout. *)
Definition render (content template : string) : string :=
  let '(frontmatter, body) := parseFrontmatter content in
  let htmlContent := marked env body in
  processTemplate template
    {| title := or_default frontmatter "title" siteConfig_title;
       description := or_default frontmatter "description" siteConfig_description;
       content := htmlContent;
       path := or_default frontmatter "path" "/";
       schemaType := or_default frontmatter "schemaType" "WebPage" |}.

(** [buildPage(pageFile)] *)
Definition buildPage (pageFile : string) : Async unit :=
  let pagePath := join (join contentDir "pages") pageFile in
  content <- readFile pagePath ;;
  template <- readFile (join templatesDir "layout.html") ;;
  let html := render content template in
  (if String.eqb pageFile "index.md" then ret tt
   else ensureDir (pageDir pageFile)) ;;
  writeFile (outputPath pageFile) html.

(** [buildPages()] *)
Definition buildPages : Async unit :=
  let pagesDir := join contentDir "pages" in
  pages <- readdir pagesDir ;;
  for_of pages (fun pageFile =>
    if endsWith pageFile ".md" then buildPage pageFile else ret tt).

(** [generateSitemap()], [generateRobots()] and [generateCognitiveIndex()] *)
Definition generateSitemap : Async unit :=
  writeFile (join publicDir "sitemap.xml") (sitemap env).

Definition generateRobots : Async unit :=
  writeFile (join publicDir "robots.txt") (robots env).

Definition generateCognitiveIndex : Async unit :=
  let cognitiveDir := join publicDir "cognitive" in
  ensureDir cognitiveDir ;;
  writeFile (join cognitiveDir "index.json") (cognitiveIndex env) ;;
  writeFile (join cognitiveDir "api.html") (apiDoc env).

(** The [try] block of [build()]. *)
Definition build_steps : Async unit :=
  remove publicDir ;;
  ensureDir publicDir ;;
  copyAssets ;;
  buildPages ;;
  generateSitemap ;;
  generateRobots ;;
  generateCognitiveIndex.

(** How a run of the script ends: normally, or through [process.exit(1)]
    in the [catch] block. *)
Inductive Exit : Type := Completed | Failed.

(** [build()] on a file system: how the run ended, the file system it
    leaves, and the calls it made, in order. *)
Definition build (w : World) : Exit * World * list FsOp :=
  match build_steps (w, []) with
  | (Some _, (w', log)) => (Completed, w', log)
  | (None, (w', log)) => (Failed, w', log)
  end.

(** **** The steps of a build, as the specification lists them *)

(** The calls of [buildPage] on one page, given the two texts read. *)
Definition page_calls (pageFile content template : string) : list FsOp :=
  ([ReadFile (join (join contentDir "pages") pageFile) content;
    ReadFile (join templatesDir "layout.html") template]
   ++ (if String.eqb pageFile "index.md" then [] else [EnsureDir (pageDir pageFile)])
   ++ [WriteFile (outputPath pageFile) (render content template)])%list.

(** The markdown files of a listing. *)
Definition markdown_files (names : list string) : list string :=
  List.filter (fun pageFile => endsWith pageFile ".md") names.

(** The calls of a whole build: [names] is the listing of the pages
    directory and [texts] holds, for each markdown file, the text of the
    file and the text of the layout read for it. *)
Definition build_calls (names : list string) (texts : list (string * string)) : list FsOp :=
  ([Remove publicDir; EnsureDir publicDir;
    Copy assetsDir (join publicDir "assets");
    ReadDir (join contentDir "pages") names]
   ++ List.concat (zip_with (fun pageFile t => page_calls pageFile (fst t) (snd t))
                            (markdown_files names) texts)
   ++ [WriteFile (join publicDir "sitemap.xml") (sitemap env);
       WriteFile (join publicDir "robots.txt") (robots env);
       EnsureDir (join publicDir "cognitive");
       WriteFile (join (join publicDir "cognitive") "index.json") (cognitiveIndex env);
       WriteFile (join (join publicDir "cognitive") "api.html") (apiDoc env)])%list.

(** The path a call writes to, creates, fills or removes, if any. *)
Definition written_path (op : FsOp) : option Path :=
  match op with
  | Remove p | EnsureDir p | WriteFile p _ => Some p
  | Copy _ dst => Some dst
  | ReadDir _ _ | ReadFile _ _ => None
  end.

(** The call touches nothing outside the output directory. *)
Definition inside_output (op : FsOp) : Prop :=
  match written_path op with
  | Some p => publicDir `prefix_of` p
  | None => True
  end.

(** **** Runs that fail *)

(** The calls of a method follow [complete]: a run that returns [a] has
    appended calls that [complete a] describes, and a run that throws has
    appended a proper initial part of such calls. *)
Definition follows {A : Type} (m : Async A) (complete : A -> list FsOp -> Prop) : Prop :=
  forall w log r w' log',
    m (w, log) = (r, (w', log')) ->
    exists calls,
      log' = (log ++ calls)%list
      /\ match r with
         | Some a => complete a calls
         | None => exists a more, more <> [] /\ complete a (calls ++ more)%list
         end.

End Build.

(** *** An in-memory file system *)

(** A small file system to run the build on: a table from paths to files
    and directories; the root always exists. *)
Inductive Node : Type :=
| File (data : string)
| Directory.

Definition MemFs : Type := list (Path * Node).

Definition mem_lookup (p : Path) (w : MemFs) : option Node :=
  match p with
  | [] => Some Directory
  | _ => snd <$> List.find (fun e => bool_decide (fst e = p)) w
  end.

Definition mem_put (p : Path) (n : Node) (w : MemFs) : MemFs :=
  (p, n) :: List.filter (fun e => negb (bool_decide (fst e = p))) w.

Definition mem_remove (p : Path) (w : MemFs) : option MemFs :=
  Some (List.filter (fun e => negb (bool_decide (p `prefix_of` fst e))) w).

(** Create the directories [above ++ [x1]], [above ++ [x1; x2]], ... that
    are missing; a file in the way is an error. *)
Fixpoint mem_mkdirs (above : Path) (below : list string) (w : MemFs) : option MemFs :=
  match below with
  | [] => Some w
  | x :: below' =>
      let q := (above ++ [x])%list in
      match mem_lookup q w with
      | Some (File _) => None
      | Some Directory => mem_mkdirs q below' w
      | None => mem_mkdirs q below' (mem_put q Directory w)
      end
  end.

Definition mem_ensureDir (p : Path) (w : MemFs) : option MemFs := mem_mkdirs [] p w.

Definition mem_copy (src dst : Path) (w : MemFs) : option MemFs :=
  match mem_lookup src w with
  | None => None
  | Some _ =>
      match mem_mkdirs [] (removelast dst) w with
      | None => None
      | Some w' =>
          let below := List.filter (fun e => bool_decide (src `prefix_of` fst e)) w in
          Some (fold_right
                  (fun e acc => mem_put (dst ++ drop (length src) (fst e))%list (snd e) acc)
                  w' below)
      end
  end.

Definition mem_readdir (p : Path) (w : MemFs) : option (list string) :=
  match mem_lookup p w with
  | Some Directory =>
      Some (omap (fun e => if bool_decide (removelast (fst e) = p) then last (fst e) else None) w)
  | _ => None
  end.

Definition mem_readFile (p : Path) (w : MemFs) : option string :=
  match mem_lookup p w with
  | Some (File data) => Some data
  | _ => None
  end.

Definition mem_writeFile (p : Path) (data : string) (w : MemFs) : option MemFs :=
  match p, mem_lookup (removelast p) w, mem_lookup p w with
  | _ :: _, Some Directory, (None | Some (File _)) => Some (mem_put p (File data) w)
  | _, _, _ => None
  end.

#[export] Instance mem_fs : FileSystem MemFs := {
  fs_remove := mem_remove;
  fs_ensureDir := mem_ensureDir;
  fs_copy := mem_copy;
  fs_readdir := mem_readdir;
  fs_readFile := mem_readFile;
  fs_writeFile := mem_writeFile
}.

(** *** A sample site *)

Definition sample_environment : Environment :=
  {| site := ["srv"];
     marked := fun body => "<p>" ++ body ++ "</p>";
     sitemap := "<urlset></urlset>";
     robots := "User-agent: *";
     cognitiveIndex := "{}";
     apiDoc := "<html></html>" |}.

(** Two pages, a file that is not markdown, the layout, one asset, and an
    output directory left by an earlier build. *)
Definition sample_site : MemFs :=
  [ (["srv"], Directory);
    (["srv"; "assets"], Directory);
    (["srv"; "assets"; "main.css"], File "body{}");
    (["srv"; "content"], Directory);
    (["srv"; "content"; "pages"], Directory);
    (["srv"; "content"; "pages"; "index.md"],
       File (opening ++ "title: Home" ++ closing ++ "Hello"));
    (["srv"; "content"; "pages"; "about.md"], File "About us");
    (["srv"; "content"; "pages"; "notes.txt"], File "not a page");
    (["srv"; "templates"], Directory);
    (["srv"; "templates"; "layout.html"], File "<title>{{title}}</title>{{content}}");
    (["srv"; "public"], Directory);
    (["srv"; "public"; "old.html"], File "stale") ].

(** The same site without its layout file. *)
Definition sample_site_without_layout : MemFs :=
  List.filter
    (fun e => negb (bool_decide (fst e = ["srv"; "templates"; "layout.html"])))
    sample_site.

End SiteBuilder.

(** * Properties *)

(** ** Strings *)

Section JsStringFacts.
Import JsString.

Lemma string_app_assoc (a b c : string) : (a ++ b) ++ c = a ++ (b ++ c).
Proof. induction a as [|x a IH]; simpl; [reflexivity | now rewrite IH]. Qed.

Lemma string_app_nil_r (a : string) : a ++ "" = a.
Proof. induction a as [|x a IH]; simpl; [reflexivity | now rewrite IH]. Qed.

Lemma string_length_app (a b : string) :
  String.length (a ++ b) = (String.length a + String.length b)%nat.
Proof. induction a as [|x a IH]; simpl; [reflexivity | now rewrite IH]. Qed.

Lemma substring_from_app (a b : string) :
  substring_from (a ++ b) (String.length a) = b.
Proof. induction a as [|x a IH]; simpl; [now destruct b | exact IH]. Qed.

Lemma startsWith_app (p r : string) : startsWith (p ++ r) p = true.
Proof.
  induction p as [|a p IH]; simpl; [reflexivity |].
  now rewrite Ascii.eqb_refl, IH.
Qed.

Lemma startsWith_spec (s p : string) :
  startsWith s p = true <-> exists r, s = p ++ r.
Proof.
  split.
  - revert s. induction p as [|a p IH]; intros s H; simpl in *.
    + now exists s.
    + destruct s as [|b s]; [discriminate |].
      apply andb_prop in H as [Hab Hp].
      apply Ascii.eqb_eq in Hab as ->.
      destruct (IH _ Hp) as [r ->]. now exists r.
  - intros [r ->]. apply startsWith_app.
Qed.

Lemma startsWith_substring_from (s p : string) :
  startsWith s p = true -> s = p ++ substring_from s (String.length p).
Proof.
  intros H. apply startsWith_spec in H as [r ->]. now rewrite substring_from_app.
Qed.

Lemma includes_spec (s sub : string) :
  includes s sub = true <-> exists pre post, s = pre ++ sub ++ post.
Proof.
  split.
  - induction s as [|c s IH]; simpl; intros H.
    + rewrite orb_false_r in H. apply startsWith_spec in H as [r Hr].
      now exists "", r.
    + apply orb_prop in H as [H | H].
      * apply startsWith_spec in H as [r Hr]. now exists "", r.
      * destruct (IH H) as (pre & post & ->). now exists (String c pre), post.
  - intros (pre & post & ->). induction pre as [|c pre IH]; simpl.
    + replace (includes (sub ++ post) sub) with true; [reflexivity |].
      symmetry. destruct (sub ++ post) eqn:E; simpl; rewrite <- E;
        now rewrite startsWith_app.
    + rewrite IH. apply orb_true_r.
Qed.

(** [trim] takes white space off both ends, and only white space: what is
    left neither begins nor ends with a white-space character. *)
Lemma trimStart_spec (s : string) :
  exists l, s = l ++ trimStart s
    /\ forall_chars is_whitespace l = true
    /\ forall c, first_char (trimStart s) = Some c -> is_whitespace c = false.
Proof.
  induction s as [|c s (l & E & W & F)]; cbn [trimStart].
  - exists "". repeat split. discriminate.
  - destruct (is_whitespace c) eqn:C.
    + exists (String c l). cbn. rewrite C, W. repeat split; [now f_equal | exact F].
    + exists "". repeat split. now intros ? [= <-].
Qed.

Lemma trimEnd_spec (s : string) :
  exists r, s = trimEnd s ++ r
    /\ forall_chars is_whitespace r = true
    /\ (forall c, last_char (trimEnd s) = Some c -> is_whitespace c = false)
    /\ (forall c, first_char s = Some c -> is_whitespace c = false ->
          first_char (trimEnd s) = Some c).
Proof.
  induction s as [|c s (r & E & W & L & _)]; cbn [trimEnd].
  - exists "". repeat split; discriminate.
  - destruct (trimEnd s) as [|d t] eqn:T.
    + destruct (is_whitespace c) eqn:C.
      * exists (String c r). cbn. rewrite C, W.
        repeat split; [now f_equal | discriminate | congruence].
      * exists r. cbn. repeat split; [now f_equal | exact W | congruence | congruence].
    + exists r. repeat split; [cbn; now f_equal | exact W | exact L | now intros ? [= <-]].
Qed.

Theorem trim_spec (s : string) :
  exists l r, s = l ++ trim s ++ r
    /\ forall_chars is_whitespace l = true
    /\ forall_chars is_whitespace r = true
    /\ (forall c, first_char (trim s) = Some c -> is_whitespace c = false)
    /\ (forall c, last_char (trim s) = Some c -> is_whitespace c = false).
Proof.
  destruct (trimStart_spec s) as (l & El & Wl & Fl).
  destruct (trimEnd_spec (trimStart s)) as (r & Er & Wr & Lr & Fr).
  exists l, r. unfold trim. repeat split; try assumption.
  - now rewrite <- Er.
  - intros c H. destruct (first_char (trimStart s)) as [d|] eqn:D.
    + specialize (Fr d eq_refl (Fl d eq_refl)). rewrite Fr in H.
      injection H as <-. now apply Fl.
    + destruct (trimStart s); [discriminate H | discriminate D].
Qed.

Lemma split_cons (s : string) (c : ascii) : exists p ps, split s c = p :: ps.
Proof.
  destruct s as [|a s]; cbn [split]; [now eexists _, _ |].
  destruct (Ascii.eqb a c); [now eexists _, _ |].
  destruct (split s c); now eexists _, _.
Qed.

(** The pieces of [split] have no separator in them, and joined by the
    separator they give the string back. *)
Lemma split_pieces (s : string) (c : ascii) :
  Forall (fun piece => forall_chars (fun a => negb (Ascii.eqb a c)) piece = true)
         (split s c)
  /\ String.concat (String c "") (split s c) = s.
Proof.
  induction s as [|a s [F J]]; cbn [split];
    [split; [now repeat constructor | reflexivity] |].
  destruct (split_cons s c) as (p & ps & S). rewrite S in *.
  apply Forall_cons in F as [Fp Fps].
  destruct (Ascii.eqb a c) eqn:E.
  - apply Ascii.eqb_eq in E as ->. split; [now repeat constructor |].
    change (String.concat (String c "") ("" :: p :: ps))
      with (String c (String.concat (String c "") (p :: ps))).
    now rewrite J.
  - split; [constructor; [cbn; now rewrite E, Fp | exact Fps] |].
    rewrite <- J. now destruct ps.
Qed.

Lemma split_no_separator (s : string) (c : ascii) :
  forall_chars (fun a => negb (Ascii.eqb a c)) s = true -> split s c = [s].
Proof.
  induction s as [|a s IH]; [reflexivity |]. cbn [forall_chars split].
  intros H. apply andb_prop in H as [Ha H]. apply negb_true_iff in Ha.
  now rewrite Ha, IH.
Qed.

Lemma split_at_separator (a b : string) (c : ascii) :
  forall_chars (fun x => negb (Ascii.eqb x c)) a = true ->
  split (a ++ String c b) c = a :: split b c.
Proof.
  induction a as [|x a IH]; cbn [forall_chars split String.append].
  - intros _. now rewrite Ascii.eqb_refl.
  - intros H. apply andb_prop in H as [Hx H]. apply negb_true_iff in Hx.
    now rewrite Hx, IH.
Qed.

Lemma includes_no_separator (s : string) (c : ascii) :
  forall_chars (fun a => negb (Ascii.eqb a c)) s = true ->
  includes s (String c "") = false.
Proof.
  induction s as [|a s IH]; [reflexivity |]. cbn [forall_chars includes startsWith].
  intros H. apply andb_prop in H as [Ha H]. apply negb_true_iff in Ha.
  now rewrite (Ascii.eqb_sym c a), Ha, IH.
Qed.

Lemma forall_chars_app (test : ascii -> bool) (a b : string) :
  forall_chars test (a ++ b) = forall_chars test a && forall_chars test b.
Proof.
  induction a as [|c a IH]; cbn; [reflexivity | now rewrite IH, andb_assoc].
Qed.

End JsStringFacts.

(** ** The gateway *)

Section GatewayFacts.
Import JsString Gateway.

(** What a string key must satisfy to pass [validateApiKey]. *)
Lemma validateApiKey_string (s : string) :
  validateApiKey (QString s)
  = Normal (startsWith s "regima_" && (20 <? String.length s)%nat).
Proof. reflexivity. Qed.

(** C1, as stated, fails: the key [regima_abc] begins with the prefix and
    the gateway rejects it. *)
Lemma validateApiKey_prefix_alone_counterexample :
  ~ (validateApiKey (QString "regima_abc") = Normal true
     <-> exists rest, "regima_abc" = "regima_" ++ rest).
Proof.
  intros [_ accept].
  assert (H : validateApiKey (QString "regima_abc") = Normal true).
  { apply accept. now exists "abc". }
  vm_compute in H. discriminate H.
Qed.

(** C1, amended: [validateApiKey] accepts a key string if and only if the
    key begins with the prefix [regima_] and is more than 20 characters
    long. *)
Theorem validateApiKey_accepts_iff (s : string) :
  validateApiKey (QString s) = Normal true
  <-> (exists rest, s = "regima_" ++ rest) /\ (20 < String.length s)%nat.
Proof.
  rewrite validateApiKey_string, <- startsWith_spec.
  split.
  - intros H. injection H as H.
    apply andb_prop in H as [Hp Hl]. split; [exact Hp |].
    now apply Nat.ltb_lt.
  - intros [Hp Hl]. f_equal. apply andb_true_intro.
    split; [exact Hp | now apply Nat.ltb_lt].
Qed.

(** C2: each of the ten placeholder handlers answers any two requests with
    the same response, whose body is the handler's own constant
    "... endpoint - implementation pending" message; the response owes
    nothing to the request. *)
Theorem placeholder_response_constant (h : Placeholder) (req1 req2 : Request)
    (res : Response) :
  placeholder h req1 res = placeholder h req2 res
  /\ statusCode (placeholder h req1 res) = statusCode res
  /\ exists label,
       sent (placeholder h req1 res)
       = Some (JObj [("message", JStr (label ++ " endpoint - implementation pending"))]).
Proof.
  split; [now destruct h |]. split; [now destruct h |].
  destruct h; cbn -[String.append];
    [ exists "Azure OpenAI" | exists "Cognitive analysis"
    | exists "Dermatology assistant" | exists "Product advisor"
    | exists "Vector search" | exists "Knowledge query"
    | exists "Routine generator" | exists "AtomSpace query"
    | exists "PLN reasoning" | exists "Pattern mining" ];
    reflexivity.
Qed.

(** One call of [updateServiceStats s], for a name [s] that
    [Object.prototype] does not define: the counter of [s] goes up by
    exactly one, counting from zero when there was none, and every other
    counter, the total and the error count stay as they were. *)
Lemma updateServiceStats_frame (s : string) (st : RequestStats) :
  inherited s = false ->
  byService (updateServiceStats s st) !! s
    = Some (Count (count_before (byService st !! s) + 1))
  /\ (forall s', s' <> s ->
        byService (updateServiceStats s st) !! s' = byService st !! s')
  /\ total (updateServiceStats s st) = total st
  /\ errors (updateServiceStats s st) = errors st.
Proof.
  intros I. unfold updateServiceStats, read_counter, write_counter.
  cbn [byService total errors].
  assert (P : String.eqb s "__proto__" = false).
  { apply String.eqb_neq. intros ->. discriminate I. }
  destruct (byService st !! s) as [[[|n]|]|] eqn:E;
    rewrite ?I; cbn [falsy incremented count_before N.eqb];
    rewrite ?E, ?P, ?lookup_insert_eq; cbn [incremented];
    rewrite ?lookup_insert_eq.
  all: split; [rewrite ?lookup_insert_eq; reflexivity |].
  all: split; [| split; reflexivity].
  all: intros s' Hs'; now rewrite !lookup_insert_ne by congruence.
Qed.


(** The authentication middleware on a request without a usable key. *)
Lemma authenticateRequest_no_key (req : Request) (res : Response) :
  truthy (js_or (QString <$> headers req !! "x-api-key") (query req !! "apiKey")) = false ->
  authenticateRequest req res
  = Responded (json (status res 401) authentication_required).
Proof.
  unfold authenticateRequest. intros H.
  destruct (js_or _ _); [now rewrite H | reflexivity].
Qed.

(** The authentication middleware on a request whose key is a string that
    [validateApiKey] rejects. *)
Lemma authenticateRequest_invalid_string (req : Request) (res : Response) (s : string) :
  js_or (QString <$> headers req !! "x-api-key") (query req !! "apiKey")
    = Some (QString s) ->
  s <> "" ->
  validateApiKey (QString s) = Normal false ->
  authenticateRequest req res = Responded (json (status res 403) invalid_api_key).
Proof.
  unfold authenticateRequest. intros -> Hs Hv.
  cbn [truthy]. apply String.eqb_neq in Hs. rewrite Hs. cbn [negb].
  now rewrite Hv.
Qed.

(** The gateway on a protected path, for a request without a usable key
    and for one whose key is a string that does not validate: 401 and 403,
    and no route handler runs. *)
Lemma serve_rejects (run : RouteHandler -> Request -> Response -> Response)
    (req : Request) :
  is_protected (path req) = true ->
  let key := js_or (QString <$> headers req !! "x-api-key") (query req !! "apiKey") in
  (truthy key = false ->
     serve run req
     = {| response := json (status fresh_response 401) authentication_required;
          invoked := [] |})
  /\ (forall s, key = Some (QString s) -> s <> "" ->
        validateApiKey (QString s) = Normal false ->
        serve run req
        = {| response := json (status fresh_response 403) invalid_api_key;
             invoked := [] |}).
Proof.
  intros P key. unfold serve. rewrite P. split.
  - intros H. now rewrite authenticateRequest_no_key.
  - intros s Hk Hs Hv.
    now rewrite (authenticateRequest_invalid_string req fresh_response s).
Qed.

(** C8 at [repeated_key_request], the request
    [GET /v1/services?apiKey=a&apiKey=b] without an [X-API-Key] header. A
    key is present and is not a valid key, yet the answer is not 403:
    [validateApiKey] throws on the array, the middleware ends with the
    exception, and the framework answers 500. No handler is invoked. *)
Theorem repeated_key_answers_500
    (run : RouteHandler -> Request -> Response -> Response) :
  is_protected (path repeated_key_request) = true
  /\ truthy (query repeated_key_request !! "apiKey") = true
  /\ validateApiKey (QArray [QString "a"; QString "b"])
     = Throw "TypeError: apiKey.startsWith is not a function"
  /\ statusCode (response (serve run repeated_key_request)) = 500%nat
  /\ invoked (serve run repeated_key_request) = [].
Proof.
  split; [vm_compute; reflexivity |]. split; [reflexivity |].
  split; [reflexivity |]. split; vm_compute; reflexivity.
Qed.

(** C10: [getServiceMetrics] divides only when the total is positive, and
    then the error rate is errors over total; when the total is zero the
    error rate is exactly 0 and no division takes place. No division has a
    zero divisor. *)
Theorem getServiceMetrics_errorRate (st : RequestStats) :
  (total st = 0%N ->
     errorRate (fst (getServiceMetrics st)) = Finite 0
     /\ snd (getServiceMetrics st) = [])
  /\ ((0 < total st)%N ->
        snd (getServiceMetrics st) = [(errors st, total st)]
        /\ exists q, errorRate (fst (getServiceMetrics st)) = Finite q
             /\ (q == inject_Z (Z.of_N (errors st)) / inject_Z (Z.of_N (total st)))%Q)
  /\ Forall (fun d => snd d <> 0%N) (snd (getServiceMetrics st)).
Proof.
  unfold getServiceMetrics.
  destruct (total st) as [|d] eqn:Ht; cbn.
  - split; [intros _; split; reflexivity |].
    split; [intros H; exfalso; revert H; apply N.lt_irrefl | constructor].
  - split; [discriminate |]. split.
    + intros _. split; [reflexivity |]. eexists; split; [reflexivity |].
      rewrite Qmake_Qdiv. reflexivity.
    + repeat constructor. discriminate.
Qed.

End GatewayFacts.

(** ** The cognitive layer *)

Section SortFacts.
Import CognitiveLayer.
Context {A : Type} (key : A -> Q).

(** The comparator [(a, b) => key(b) - key(a)] and the order it sorts by:
    larger keys first. *)
Let descending (a b : A) : Q := (key b - key a)%Q.
Let before (a b : A) : Prop := (key b <= key a)%Q.

Lemma descending_goes_before (x y : A) :
  Qle_bool (descending x y) 0 = true <-> before x y.
Proof.
  unfold descending, before. rewrite Qle_bool_iff. split; intros H; lra.
Qed.

Lemma insert_sorted_permutation (x : A) (l : list A) :
  Permutation (insert_sorted descending x l) (x :: l).
Proof.
  induction l as [|y l IH]; cbn; [reflexivity |].
  destruct (Qle_bool _ _); [reflexivity |].
  rewrite IH. apply perm_swap.
Qed.

Lemma sort_permutation (l : list A) : Permutation (sort descending l) l.
Proof.
  induction l as [|x l IH]; cbn; [reflexivity |].
  fold (sort descending l).
  rewrite insert_sorted_permutation. now apply perm_skip.
Qed.

Lemma insert_sorted_sorted (x : A) (l : list A) :
  StronglySorted before l -> StronglySorted before (insert_sorted descending x l).
Proof.
  induction 1 as [|y l Hl IH Hy]; cbn.
  - repeat constructor.
  - destruct (Qle_bool (descending x y) 0) eqn:E.
    + apply descending_goes_before in E.
      constructor; [now constructor |].
      constructor; [exact E |].
      eapply Forall_impl; [exact Hy |].
      unfold before in *. intros z Hz. lra.
    + constructor; [exact IH |].
      rewrite insert_sorted_permutation. constructor; [| exact Hy].
      assert (N : ~ before x y).
      { intros B. apply descending_goes_before in B. congruence. }
      unfold before in *. lra.
Qed.

Lemma sort_sorted (l : list A) : StronglySorted before (sort descending l).
Proof.
  induction l as [|x l IH]; cbn; [constructor |].
  now apply insert_sorted_sorted.
Qed.

End SortFacts.

Section CognitiveLayerFacts.
Import JsString CognitiveLayer.

(** The test on a node, in words: some keyword of the node, lower-cased,
    occurs inside the lower-cased query. *)
Lemma keyword_matches_iff (query : string) (n : AtomData) :
  keyword_matches query n = true
  <-> exists keyword, In keyword (keywords (attributes n))
        /\ exists before after,
             toLowerCase query = before ++ toLowerCase keyword ++ after.
Proof.
  unfold keyword_matches. rewrite existsb_exists.
  split; intros (k & Hk & H); exists k; (split; [exact Hk |]);
    now apply includes_spec.
Qed.

(** The single pass over the stored list: the results before sorting are
    the matching nodes, in stored order, the [i]-th of them with the
    [i]-th random number. *)
Lemma reasoning_pass (random : nat -> Q) (query : string) (knowledge : list AtomData)
    (results : list ReasoningResult) (calls : nat) :
  length results = calls ->
  fold_left (reasoning_step random query) knowledge (results, calls)
  = let found := List.filter (keyword_matches query) knowledge in
    ((results ++ zip_with result_for found (random <$> seq calls (length found)))%list,
     (calls + length found)%nat).
Proof.
  revert results calls.
  induction knowledge as [|n knowledge IH]; intros results calls Hlen; cbn.
  - now rewrite app_nil_r, Nat.add_0_r.
  - destruct (keyword_matches query n) eqn:E; cbn.
    + rewrite IH by (rewrite length_app; cbn; lia).
      cbn. rewrite <- app_assoc. cbn. f_equal. lia.
    + now rewrite IH.
Qed.

(** C3: [performReasoning] returns exactly the stored nodes that have a
    keyword which, case-insensitively, is a substring of the query: before
    sorting, the results are these nodes in stored order, found in one pass
    over the stored list; the returned list is a rearrangement of them and
    is sorted in non-increasing order of relevance. *)
Theorem performReasoning_matches_sorted (random : nat -> Q) (ls : LocalStorage)
    (query : string) :
  let knowledge := parse_or_empty (skintwin_knowledge ls) in
  let found := List.filter (keyword_matches query) knowledge in
  let results := zip_with result_for found (random <$> seq 0 (length found)) in
  (forall n, In n found
     <-> In n knowledge
         /\ exists keyword, In keyword (keywords (attributes n))
              /\ exists before after,
                   toLowerCase query = before ++ toLowerCase keyword ++ after)
  /\ fst (fold_left (reasoning_step random query) knowledge ([], 0%nat)) = results
  /\ (fun r => (node r, result_attributes r)) <$> results
     = (fun n => (name n, attributes n)) <$> found
  /\ Permutation (performReasoning random ls query) results
  /\ StronglySorted (fun a b => (relevance b <= relevance a)%Q)
       (performReasoning random ls query).
Proof.
  intros knowledge found results. split; [| split; [| split; [| split]]].
  - intros n. unfold found. rewrite filter_In, keyword_matches_iff. reflexivity.
  - now rewrite reasoning_pass.
  - unfold results. generalize 0%nat as start.
    induction found as [|n found IH]; intros start; cbn; [reflexivity |].
    f_equal. apply IH.
  - unfold performReasoning. fold knowledge.
    rewrite reasoning_pass by reflexivity. cbn.
    apply (sort_permutation relevance).
  - unfold performReasoning. apply (sort_sorted relevance).
Qed.

Lemma last_entries_length {A : Type} (k : nat) (l : list A) :
  length (last_entries k l) = Nat.min k (length l).
Proof. unfold last_entries. rewrite length_drop. lia. Qed.

Lemma last_entries_snoc {A : Type} (k : nat) (l : list A) (x : A) :
  (0 < k)%nat ->
  last_entries k (last_entries k l ++ [x])%list = last_entries k (l ++ [x])%list.
Proof.
  intros Hk. unfold last_entries.
  destruct (decide (length l < k)%nat) as [Hlt | Hge].
  - replace (length l - k)%nat with 0%nat by lia. reflexivity.
  - rewrite !length_app, length_drop. cbn [length].
    replace (length l - (length l - k) + 1 - k)%nat with 1%nat by lia.
    replace (length l + 1 - k)%nat with (length l - k + 1)%nat by lia.
    rewrite !drop_app_le by (rewrite ?length_drop; lia).
    now rewrite drop_drop.
Qed.

(** One call of [predictUserJourney] leaves the last 50 entries of the old
    history followed by the new entry. *)
Lemma predictUserJourney_storage (now : N) (currentPath : string) (ls : LocalStorage) :
  fst (predictUserJourney now currentPath ls)
  = {| skintwin_knowledge := skintwin_knowledge ls;
       skintwin_navigation :=
         Some (last_entries 50
                 (parse_or_empty (skintwin_navigation ls)
                  ++ [pushed_entry (now, currentPath)])%list) |}.
Proof.
  unfold predictUserJourney, last_entries, pushed_entry. cbn [fst snd].
  f_equal. f_equal.
  destruct (50 <? _)%nat eqn:E; [reflexivity |].
  apply Nat.ltb_ge in E.
  match goal with |- _ = drop ?n _ => replace n with 0%nat by lia end.
  reflexivity.
Qed.

(** C9: after any number of calls of [predictUserJourney] (one or more),
    from any stored state, the history stored under [skintwin_navigation]
    has at most 50 entries, and they are the most recent ones: the last 50
    of the prior history followed by the entries of the calls, in order. *)
Theorem navigation_history_last_50 (ls : LocalStorage)
    (call : N * string) (calls : list (N * string)) :
  let pushed := (parse_or_empty (skintwin_navigation ls)
                 ++ (pushed_entry <$> call :: calls))%list in
  skintwin_navigation (after_calls (call :: calls) ls)
    = Some (last_entries 50 pushed)
  /\ (length (last_entries 50 pushed) <= 50)%nat
  /\ last_entries 50 pushed `suffix_of` pushed.
Proof.
  intros pushed. split; [| split].
  - subst pushed. revert ls call.
    induction calls as [|next calls IH]; intros ls [now currentPath].
    + unfold after_calls. cbn [fold_left fst snd].
      now rewrite predictUserJourney_storage.
    + change (after_calls ((now, currentPath) :: next :: calls) ls)
        with (after_calls (next :: calls)
                (fst (predictUserJourney now currentPath ls))).
      rewrite IH, predictUserJourney_storage. cbn [skintwin_navigation parse_or_empty].
      f_equal.
      change (pushed_entry <$> (now, currentPath) :: next :: calls)
        with ([pushed_entry (now, currentPath)] ++ (pushed_entry <$> next :: calls))%list.
      rewrite (app_assoc (parse_or_empty _)).
      generalize (parse_or_empty (skintwin_navigation ls)
                  ++ [pushed_entry (now, currentPath)])%list as l.
      generalize (pushed_entry <$> next :: calls) as more.
      clear. intros more. induction more as [|x more IH] using rev_ind; intros l.
      * rewrite !app_nil_r. unfold last_entries at 1.
        rewrite last_entries_length.
        now replace (Nat.min 50 (length l) - 50)%nat with 0%nat by lia.
      * rewrite !app_assoc, <- last_entries_snoc by lia.
        rewrite IH. now rewrite last_entries_snoc by lia.
  - rewrite last_entries_length. lia.
  - apply suffix_drop.
Qed.

End CognitiveLayerFacts.

(** ** The site builder: front matter *)

Section FrontmatterFacts.
Import JsString SiteBuilder.

Lemma string_app_same_length (a b c d : string) :
  a ++ b = c ++ d -> String.length a = String.length c -> a = c /\ b = d.
Proof.
  revert c. induction a as [|x a IH]; intros [|y c] H L; try discriminate L.
  - now split.
  - cbn in H, L. injection H as -> H. injection L as L.
    destruct (IH c H L) as [-> ->]. now split.
Qed.

Lemma substring_prefix (a b : string) : substring 0 (String.length a) (a ++ b) = a.
Proof.
  induction a as [|x a IH]; cbn; [now destruct b | now rewrite IH].
Qed.

(** The lazy group stops at the first place where the separator follows. *)
Lemma lazy_until_some (sep s t r : string) :
  lazy_until sep s = Some (t, r) ->
  s = t ++ sep ++ r
  /\ forall t' r', s = t' ++ sep ++ r' -> (String.length t <= String.length t')%nat.
Proof.
  revert t. induction s as [|c s IH]; intros t; cbn [lazy_until].
  - destruct (startsWith "" sep) eqn:E; [| discriminate].
    intros [= <- <-]. split; [| intros; cbn; lia].
    now apply startsWith_substring_from.
  - destruct (startsWith (String c s) sep) eqn:E.
    + intros [= <- <-]. split; [| intros; cbn; lia].
      now apply startsWith_substring_from.
    + destruct (lazy_until sep s) as [[g rest]|] eqn:L; [| discriminate].
      intros [= <- <-]. destruct (IH g eq_refl) as [-> Hmin].
      split; [reflexivity |].
      intros [|c' t'] r' H.
      * exfalso. cbn [String.append] in H.
        assert (S : startsWith (String c (g ++ sep ++ rest)) sep = true)
          by (rewrite H; apply startsWith_app).
        congruence.
      * cbn in H. injection H as _ H. cbn. apply le_n_S. eapply Hmin, H.
Qed.

Lemma lazy_until_none (sep s : string) :
  lazy_until sep s = None -> forall t r, s <> t ++ sep ++ r.
Proof.
  induction s as [|c s IH]; cbn [lazy_until].
  - destruct (startsWith "" sep) eqn:E; [discriminate |].
    intros _ [|c t] r H; [| discriminate H].
    cbn [String.append] in H. rewrite H, startsWith_app in E. discriminate.
  - destruct (startsWith (String c s) sep) eqn:E; [discriminate |].
    destruct (lazy_until sep s) as [[g rest]|] eqn:L; [discriminate |].
    intros _ [|c' t] r H.
    + cbn [String.append] in H. rewrite H, startsWith_app in E. discriminate.
    + cbn in H. injection H as _ H. exact (IH eq_refl t r H).
Qed.

(** The regex matches exactly the contents that begin with a block, and
    its groups are the block and the rest. *)
Lemma frontmatterRegex_block (content t b : string) :
  frontmatterRegex content = Some (t, b) <-> frontmatter_block content t b.
Proof.
  unfold frontmatterRegex, frontmatter_block.
  split.
  - destruct (startsWith content opening) eqn:E; [| discriminate].
    apply startsWith_substring_from in E. intros L.
    apply lazy_until_some in L as [Hs Hmin].
    split; [now rewrite E at 1; rewrite Hs |].
    intros t' b' H. apply (Hmin t' b').
    rewrite H. apply (substring_from_app opening).
  - intros [-> Hmin]. rewrite startsWith_app.
    rewrite (substring_from_app opening).
    destruct (lazy_until closing (t ++ closing ++ b)) as [[g rest]|] eqn:L.
    + apply lazy_until_some in L as [Hs Hg].
      assert (String.length g = String.length t) as Hlen.
      { apply Nat.le_antisymm; [now apply (Hg t b) |].
        apply (Hmin g rest). now rewrite <- Hs. }
      destruct (string_app_same_length _ _ _ _ Hs (eq_sym Hlen)) as [-> Hrest].
      destruct (string_app_same_length closing b closing rest Hrest eq_refl) as [_ ->].
      reflexivity.
    + exfalso. exact (lazy_until_none _ _ L t b eq_refl).
Qed.

Lemma frontmatterRegex_no_block (content : string) :
  frontmatterRegex content = None
  <-> forall t b, content <> opening ++ t ++ closing ++ b.
Proof.
  unfold frontmatterRegex. split.
  - destruct (startsWith content opening) eqn:E.
    + intros L t b ->. rewrite (substring_from_app opening) in L.
      exact (lazy_until_none _ _ L t b eq_refl).
    + intros _ t b ->. rewrite startsWith_app in E. discriminate.
  - intros H. destruct (startsWith content opening) eqn:E; [| reflexivity].
    destruct (lazy_until closing _) as [[g rest]|] eqn:L; [| reflexivity].
    exfalso. apply lazy_until_some in L as [Hs _].
    apply startsWith_substring_from in E.
    apply (H g rest). rewrite E at 1. now rewrite Hs.
Qed.

(** The first colon of a line: where it is, and the text on either side. *)
Lemma indexOf_first_colon (i : nat) (before after : string) :
  forall_chars (fun c => negb (is_colon c)) before = true ->
  indexOf_from i (before ++ String ":" after) ":" = Z.of_nat (i + String.length before).
Proof.
  revert i. induction before as [|c before IH]; intros i H; cbn.
  - f_equal. lia.
  - cbn in H. apply andb_prop in H as [Hc H].
    unfold is_colon in Hc. destruct (Ascii.eqb c ":"); [discriminate |].
    rewrite IH by exact H. f_equal. lia.
Qed.

Lemma line_text (before after : string) :
  forall_chars (fun c => negb (is_colon c)) before = true ->
  let line := before ++ ":" ++ after in
  has_entry line = negb (String.eqb before "")
  /\ line_key line = trim before
  /\ line_value line = strip_quotes (trim after).
Proof.
  intros H line. unfold has_entry, line_key, line_value, indexOf.
  subst line. cbn [String.append]. rewrite indexOf_first_colon by exact H.
  cbn [Nat.add]. rewrite Nat2Z.id. split; [| split].
  - now destruct before.
  - unfold substring_between. rewrite Nat.sub_0_r. now rewrite substring_prefix.
  - do 2 f_equal.
    change (before ++ String ":" after) with (before ++ ":" ++ after).
    rewrite <- string_app_assoc.
    replace (String.length before + 1)%nat with (String.length (before ++ ":"))
      by (rewrite string_length_app; reflexivity).
    apply substring_from_app.
Qed.

(** Stripping the quotes is stripping one at the start, then one at the
    end. *)
Lemma strip_quotes_two_steps (s : string) :
  strip_quotes s = strip_final_quote (strip_leading_quote s).
Proof.
  destruct s as [|c s]; [reflexivity |]. cbn [strip_quotes strip_leading_quote].
  destruct (is_quote c) eqn:Q; [reflexivity |].
  destruct s as [|d s]; cbn; now rewrite ?Q.
Qed.

(** An assignment by cases. *)
Lemma set_property_ordinary (frontmatter : gmap string string) (key value : string) :
  key <> "__proto__" -> set_property frontmatter key value = <[key := value]> frontmatter.
Proof.
  intros H. unfold set_property. apply String.eqb_neq in H. rewrite H.
  now destruct (frontmatter !! key).
Qed.

Lemma set_property_other (frontmatter : gmap string string) (key value k : string) :
  key <> k -> set_property frontmatter key value !! k = frontmatter !! k.
Proof.
  intros H. unfold set_property.
  destruct (frontmatter !! key); [now apply lookup_insert_ne |].
  destruct (String.eqb key "__proto__"); [reflexivity | now apply lookup_insert_ne].
Qed.

Lemma set_property_same (frontmatter : gmap string string) (key value v : string) :
  set_property frontmatter key value !! key = Some v ->
  v = value \/ frontmatter !! key = Some v.
Proof.
  unfold set_property. destruct (frontmatter !! key) eqn:E.
  - rewrite lookup_insert_eq. intros [= <-]. now left.
  - destruct (String.eqb key "__proto__").
    + rewrite E. discriminate.
    + rewrite lookup_insert_eq. intros [= <-]. now left.
Qed.

(** One round of the loop, by cases. *)
Lemma frontmatter_line_cases (frontmatter : gmap string string) (line : string) :
  frontmatter_line frontmatter line
  = if has_entry line then set_property frontmatter (line_key line) (line_value line)
    else frontmatter.
Proof. reflexivity. Qed.

(** Lines that do not set [k] leave the entry of [k] alone. *)
Lemma fold_lines_other (k : string) (lines : list string) (frontmatter : gmap string string) :
  (forall l, In l lines -> has_entry l = true -> line_key l <> k) ->
  fold_left frontmatter_line lines frontmatter !! k = frontmatter !! k.
Proof.
  revert frontmatter. induction lines as [|l lines IH]; intros fm H; [reflexivity |].
  cbn [fold_left]. rewrite IH by (intros; apply H; [now right | assumption]).
  rewrite frontmatter_line_cases.
  destruct (has_entry l) eqn:E; [| reflexivity].
  apply set_property_other, H; [now left | exact E].
Qed.

(** Every entry of the result was there before or is set by a line. *)
Lemma fold_lines_origin (k v : string) (lines : list string) (frontmatter : gmap string string) :
  fold_left frontmatter_line lines frontmatter !! k = Some v ->
  frontmatter !! k = Some v
  \/ exists l, In l lines /\ has_entry l = true /\ line_key l = k /\ line_value l = v.
Proof.
  revert frontmatter. induction lines as [|l lines IH]; intros fm H; [now left |].
  cbn [fold_left] in H. apply IH in H as [H | (l' & Hin & H)].
  - rewrite frontmatter_line_cases in H.
    destruct (has_entry l) eqn:E; [| now left].
    destruct (decide (line_key l = k)) as [<- | Hne].
    + apply set_property_same in H as [-> | H]; [| now left].
      right. exists l. repeat split; [now left | exact E].
    + rewrite set_property_other in H by exact Hne. now left.
  - right. exists l'. split; [now right | exact H].
Qed.

(** No line creates a property named [__proto__]. *)
Lemma fold_lines_no_proto (lines : list string) (frontmatter : gmap string string) :
  frontmatter !! "__proto__" = None ->
  fold_left frontmatter_line lines frontmatter !! "__proto__" = None.
Proof.
  revert frontmatter. induction lines as [|l lines IH]; intros fm H; [exact H |].
  cbn [fold_left]. apply IH. rewrite frontmatter_line_cases.
  destruct (has_entry l); [| exact H].
  destruct (decide (line_key l = "__proto__")) as [E | Hne].
  - unfold set_property. now rewrite E, H.
  - now rewrite set_property_other.
Qed.

(** C7, as stated, fails: in a block with the lines [title: A] and
    [title: B] the first line has its colon at a positive index, and the
    front matter returned has no entry with its value. *)
Lemma duplicate_key_counterexample :
  let t := "title: A" ++ LF ++ "title: B" in
  let content := opening ++ t ++ closing ++ "body" in
  frontmatter_block content t "body"
  /\ ~ every_line_yields_entry t (fst (parseFrontmatter content)).
Proof.
  intros t content. split.
  - apply frontmatterRegex_block. reflexivity.
  - intros H. specialize (H "title: A").
    assert (E : fst (parseFrontmatter content) !! line_key "title: A" = Some "B")
      by reflexivity.
    rewrite E in H.
    assert (A : Some "B" = Some (line_value "title: A")).
    { apply H; [now left | reflexivity]. }
    vm_compute in A. discriminate A.
Qed.

(** C7, amended. A content that does not begin with a block (three dashes
    and a line feed, then a text followed by a line feed, three dashes and
    a line feed) gives the empty front matter and itself as the body.
    Otherwise the body is the text after the first closing line, and a
    line of the block with a non-empty text before its first colon gives
    the entry whose key is that text, trimmed, and whose value is the text
    after the colon, trimmed and without one leading and one trailing
    quote character - provided the key is not [__proto__] and no later
    line of the block sets the same key. The front matter has no other
    entries, and never one under the key [__proto__]. *)
Theorem parseFrontmatter_last_line_wins (content : string) :
  ((forall t b, content <> opening ++ t ++ closing ++ b) ->
     parseFrontmatter content = (∅, content))
  /\ (forall t b, frontmatter_block content t b ->
        snd (parseFrontmatter content) = b
        /\ (forall earlier later before after,
              block_lines t = (earlier ++ (before ++ ":" ++ after)%string :: later)%list ->
              forall_chars (fun c => negb (is_colon c)) before = true ->
              before <> "" ->
              trim before <> "__proto__" ->
              (forall l, In l later -> has_entry l = true -> line_key l <> trim before) ->
              fst (parseFrontmatter content) !! trim before
              = Some (strip_final_quote (strip_leading_quote (trim after))))
        /\ (forall k v, fst (parseFrontmatter content) !! k = Some v ->
              exists line, In line (block_lines t) /\ has_entry line = true
                /\ line_key line = k /\ line_value line = v))
  /\ fst (parseFrontmatter content) !! "__proto__" = None.
Proof.
  split; [| split].
  - intros H. apply frontmatterRegex_no_block in H.
    unfold parseFrontmatter. now rewrite H.
  - intros t b B. apply frontmatterRegex_block in B.
    unfold parseFrontmatter. rewrite B. cbn [fst snd].
    fold (block_lines t). split; [reflexivity |]. split.
    + intros earlier later before after -> Hcolon Hne Hproto Hlater.
      destruct (line_text before after Hcolon) as (He & Hk & Hv).
      rewrite fold_left_app. cbn [fold_left].
      rewrite fold_lines_other by exact Hlater.
      rewrite frontmatter_line_cases, He.
      apply String.eqb_neq in Hne. rewrite Hne. cbn [negb].
      rewrite Hk, Hv, set_property_ordinary by exact Hproto.
      rewrite lookup_insert_eq. now rewrite strip_quotes_two_steps.
    + intros k v H. apply fold_lines_origin in H as [H | H]; [| exact H].
      rewrite lookup_empty in H. discriminate H.
  - unfold parseFrontmatter.
    destruct (frontmatterRegex content) as [[t b]|]; cbn [fst];
      [apply fold_lines_no_proto |]; apply lookup_empty.
Qed.

(** The theorem at work: a content without a block, and a content whose
    block sets [title] twice, [path] once and names [__proto__]. *)
Lemma parseFrontmatter_last_line_wins_witness :
  parseFrontmatter "# Welcome" = (∅, "# Welcome")
  /\ let t := "title: 'A'" ++ LF ++ "title: B" ++ LF ++ "__proto__: x" ++ LF
              ++ "path: /about/" in
     let content := opening ++ t ++ closing ++ "body" in
     frontmatter_block content t "body"
     /\ snd (parseFrontmatter content) = "body"
     /\ fst (parseFrontmatter content) !! "title" = Some "B"
     /\ fst (parseFrontmatter content) !! "path" = Some "/about/"
     /\ fst (parseFrontmatter content) !! "__proto__" = None.
Proof.
  split.
  - apply (parseFrontmatter_last_line_wins "# Welcome").
    intros t b H. vm_compute in H. discriminate H.
  - intros t content.
    assert (B : frontmatter_block content t "body")
      by (apply frontmatterRegex_block; reflexivity).
    split; [exact B |].
    destruct (parseFrontmatter_last_line_wins content) as (_ & H & P).
    destruct (H t "body" B) as (Hbody & Hline & _).
    split; [exact Hbody |]. split; [| split; [| exact P]].
    + apply (Hline ["title: 'A'"] ["__proto__: x"; "path: /about/"] "title" " B");
        [reflexivity | reflexivity | discriminate | discriminate |].
      intros l [<- | [<- | []]] _; vm_compute; discriminate.
    + apply (Hline ["title: 'A'"; "title: B"; "__proto__: x"] [] "path" " /about/");
        [reflexivity | reflexivity | discriminate | discriminate |].
      intros l [].
Defined.

End FrontmatterFacts.

(** ** The site builder: templates *)

Section TemplateFacts.
Import JsString SiteBuilder.

Lemma template_text_app (a b : list Segment) :
  template_text (a ++ b)%list = template_text a ++ template_text b.
Proof.
  induction a as [|seg a IH]; cbn [template_text app]; [reflexivity |].
  now rewrite IH, string_app_assoc.
Qed.

Lemma template_text_literal (s : string) : template_text (literal s) = s.
Proof. induction s as [|c s IH]; cbn; [reflexivity | now rewrite IH]. Qed.

Lemma instantiate_app (variables : Variables) (a b : list Segment) :
  instantiate variables (a ++ b)%list
  = instantiate variables a ++ instantiate variables b.
Proof.
  induction a as [|[c|k] a IH]; cbn [instantiate app]; rewrite ?IH;
    [reflexivity | reflexivity | now rewrite string_app_assoc].
Qed.

Lemma instantiate_literal (variables : Variables) (s : string) :
  instantiate variables (literal s) = s.
Proof. induction s as [|c s IH]; cbn; [reflexivity | now rewrite IH]. Qed.

(** A replacement without a dollar sign stands for itself. *)
Lemma getSubstitution_plain (matched before after replacement : string) :
  forall_chars (fun c => negb (Ascii.eqb c "$" || is_open_brace c)) replacement = true ->
  getSubstitution matched before after replacement = replacement.
Proof.
  induction replacement as [|c r IH]; intros H; [reflexivity |].
  cbn in H. apply andb_prop in H as [Hc H].
  apply negb_true_iff, orb_false_elim in Hc as [Hc _].
  cbn [getSubstitution]. rewrite Hc. now rewrite IH.
Qed.

(** A literal character that is not the first of two opening braces does
    not begin a placeholder. *)
Lemma not_placeholder_start (c : ascii) (rest key : string) :
  is_open_brace c && starts_with_brace rest = false ->
  startsWith (String c rest) (placeholder_pattern key) = false.
Proof.
  unfold placeholder_pattern. cbn. unfold is_open_brace.
  rewrite (Ascii.eqb_sym "{" c).
  destruct (Ascii.eqb c "{"); [| reflexivity]. cbn.
  destruct rest as [|d rest]; [reflexivity |]. cbn. unfold is_open_brace.
  rewrite (Ascii.eqb_sym "{" d). now intros ->.
Qed.

(** One pass of the loop of [processTemplate] over a well-delimited
    template fills the holes of its key and nothing else. *)
Lemma replace_pass (k : Key) (value str : string) (segments : list Segment)
    (position : nat) :
  forall_chars (fun c => negb (Ascii.eqb c "$" || is_open_brace c)) value = true ->
  well_delimited segments = true ->
  replace_from (placeholder_pattern (key_name k)) value str position 0
    (template_text segments)
  = template_text (fill_hole k value segments).
Proof.
  intros Hv. revert position.
  induction segments as [|[c|k'] rest IH]; intros position W; [reflexivity | |].
  - cbn [well_delimited] in W. apply andb_prop in W as [Wc W].
    apply negb_true_iff in Wc.
    cbn [template_text segment_text String.append fill_hole replace_from].
    rewrite not_placeholder_start by exact Wc. now rewrite IH.
  - cbn [well_delimited] in W. cbn [fill_hole].
    destruct k, k'; cbn -[getSubstitution substring substring_from Nat.add];
      rewrite ?(getSubstitution_plain _ _ _ _ Hv), ?IH by exact W;
      rewrite ?template_text_app, ?template_text_literal; reflexivity.
Qed.

(** Filling a hole with a text without opening braces keeps the template
    well delimited. *)
Lemma fill_hole_first_brace (k : Key) (value : string) (segments : list Segment) :
  forall_chars (fun c => negb (Ascii.eqb c "$" || is_open_brace c)) value = true ->
  starts_with_brace (template_text (fill_hole k value segments)) = true ->
  starts_with_brace (template_text segments) = true.
Proof.
  intros Hv. induction segments as [|[c|k'] rest IH]; [easy | easy |].
  intros _. now destruct k'.
Qed.

Lemma well_delimited_literal (value : string) (segments : list Segment) :
  forall_chars (fun c => negb (Ascii.eqb c "$" || is_open_brace c)) value = true ->
  well_delimited (literal value ++ segments)%list = well_delimited segments.
Proof.
  induction value as [|c v IH]; intros H; [reflexivity |].
  cbn in H. apply andb_prop in H as [Hc H].
  apply negb_true_iff, orb_false_elim in Hc as [_ Hc].
  cbn [literal app well_delimited]. rewrite Hc. cbn. now apply IH.
Qed.

Lemma fill_hole_well_delimited (k : Key) (value : string) (segments : list Segment) :
  forall_chars (fun c => negb (Ascii.eqb c "$" || is_open_brace c)) value = true ->
  well_delimited segments = true ->
  well_delimited (fill_hole k value segments) = true.
Proof.
  intros Hv. induction segments as [|[c|k'] rest IH]; intros W; [reflexivity | |].
  - cbn [well_delimited] in W. apply andb_prop in W as [Wc W].
    cbn [fill_hole well_delimited]. rewrite IH by exact W.
    rewrite andb_true_r. apply negb_true_iff. apply negb_true_iff in Wc.
    destruct (is_open_brace c); [cbn in * | reflexivity].
    destruct (starts_with_brace (template_text (fill_hole k value rest))) eqn:E;
      [| reflexivity].
    apply fill_hole_first_brace in E; [congruence | exact Hv].
  - cbn [well_delimited] in W. cbn [fill_hole].
    destruct (same_key k k'); [| now apply IH].
    rewrite well_delimited_literal by exact Hv. now apply IH.
Qed.

(** Filling a hole with the value of its key does not change what the
    template instantiates to. *)
Lemma fill_hole_instantiate (variables : Variables) (k : Key) (segments : list Segment) :
  instantiate variables (fill_hole k (key_value variables k) segments)
  = instantiate variables segments.
Proof.
  induction segments as [|[c|k'] rest IH]; cbn [fill_hole instantiate];
    [reflexivity | now rewrite IH |].
  destruct (same_key k k') eqn:E.
  - rewrite instantiate_app, instantiate_literal, IH.
    now destruct k, k'.
  - cbn [instantiate]. now rewrite IH.
Qed.

(** The holes of a key are gone once it is filled, and no hole comes
    back. *)
Lemma fill_hole_filled (k k0 : Key) (value : string) (segments : list Segment) :
  same_key k k0 = true \/ ~ In (Hole k0) segments ->
  ~ In (Hole k0) (fill_hole k value segments).
Proof.
  intros H. induction segments as [|[c|k'] rest IH]; [easy | |].
  - cbn. intros [? | ?]; [discriminate |].
    apply IH; [| assumption]. destruct H as [H | H]; [now left | right].
    intros ?. apply H. now right.
  - assert (IH' : ~ In (Hole k0) (fill_hole k value rest)).
    { apply IH. destruct H as [H | H]; [now left | right].
      intros ?. apply H. now right. }
    cbn [fill_hole]. destruct (same_key k k') eqn:E.
    + rewrite in_app_iff. intros [L | R]; [| now apply IH'].
      clear -L. induction value as [|c v IHv]; [easy |].
      cbn in L. destruct L as [? | ?]; [discriminate | auto].
    + cbn. intros [[= ->] | ?]; [| now apply IH'].
      destruct H as [H | H]; [congruence |]. apply H. now left.
Qed.

(** A template without holes is its own instance. *)
Lemma no_holes_instantiate (variables : Variables) (segments : list Segment) :
  (forall k, ~ In (Hole k) segments) ->
  template_text segments = instantiate variables segments.
Proof.
  induction segments as [|[c|k] rest IH]; intros H; [reflexivity | |].
  - cbn. f_equal. apply IH. intros k ?. apply (H k). now right.
  - exfalso. apply (H k). now left.
Qed.

(** The claim's scan on a well-delimited template: it finds the holes and
    only them, whatever the values. *)
Lemma substitute_scan (variables : Variables) (segments : list Segment) :
  well_delimited segments = true ->
  substitute_from variables 0 (template_text segments)
  = instantiate variables segments.
Proof.
  induction segments as [|[c|k] rest IH]; intros W; [reflexivity | |].
  - cbn [well_delimited] in W. apply andb_prop in W as [Wc W].
    apply negb_true_iff in Wc.
    cbn [template_text segment_text String.append substitute_from entries List.find fst].
    rewrite !not_placeholder_start by exact Wc.
    cbn [instantiate]. now rewrite IH.
  - cbn [well_delimited] in W.
    destruct k; cbn; now rewrite IH.
Qed.

(** C5, as stated, fails: the value of [title] is the text of the
    placeholder of [content]. Replacing the placeholder of the template by
    the value of its variable gives that text; [processTemplate] goes on
    and replaces it, in its third pass, by the value of [content]. *)
Lemma processTemplate_rescans_counterexample :
  let variables :=
    {| title := "{{content}}"; description := "d"; content := "X";
       path := "/"; schemaType := "WebPage" |} in
  substitute_placeholders "{{title}}" variables = "{{content}}"
  /\ processTemplate "{{title}}" variables = "X"
  /\ processTemplate "{{title}}" variables
     <> substitute_placeholders "{{title}}" variables.
Proof. repeat split. discriminate. Qed.

(** A value with a dollar sign: [$&] in the replacement stands for the
    matched text, so the placeholder comes back. *)
Example processTemplate_dollar_pattern :
  processTemplate "<h1>{{title}}</h1>"
    {| title := "$&"; description := "d"; content := "X";
       path := "/"; schemaType := "WebPage" |}
  = "<h1>{{title}}</h1>".
Proof. reflexivity. Qed.

(** C5, amended. [processTemplate] makes five passes over the text, one
    per variable in the order title, description, content, path,
    schemaType, each over the result of the one before.  For a template
    made of literal characters and placeholders in which two opening
    braces in a row always begin a placeholder, and values without dollar
    signs and opening braces, the result is the template with every
    placeholder replaced by the value of its variable and every other
    character unchanged; it is also what the single scan of the claim
    gives. *)
Theorem processTemplate_fills_placeholders (variables : Variables)
    (segments : list Segment) :
  well_delimited segments = true ->
  plain_values variables = true ->
  processTemplate (template_text segments) variables = instantiate variables segments
  /\ processTemplate (template_text segments) variables
     = substitute_placeholders (template_text segments) variables.
Proof.
  intros W P.
  assert (E : processTemplate (template_text segments) variables
              = instantiate variables segments).
  { unfold plain_values in P. cbn [forallb entries snd] in P.
    apply andb_prop in P as [P1 P]. apply andb_prop in P as [P2 P].
    apply andb_prop in P as [P3 P]. apply andb_prop in P as [P4 P].
    apply andb_prop in P as [P5 _].
    unfold processTemplate. cbn [fold_left entries]. unfold replace_global.
    change "title" with (key_name KTitle).
    change "description" with (key_name KDescription).
    change "content" with (key_name KContent).
    change "path" with (key_name KPath).
    change "schemaType" with (key_name KSchemaType).
    rewrite (replace_pass KTitle) by assumption.
    rewrite (replace_pass KDescription)
      by auto using fill_hole_well_delimited.
    rewrite (replace_pass KContent)
      by auto using fill_hole_well_delimited.
    rewrite (replace_pass KPath)
      by auto using fill_hole_well_delimited.
    rewrite (replace_pass KSchemaType)
      by auto 6 using fill_hole_well_delimited.
    rewrite (no_holes_instantiate variables).
    - rewrite (fill_hole_instantiate variables KSchemaType),
        (fill_hole_instantiate variables KPath),
        (fill_hole_instantiate variables KContent),
        (fill_hole_instantiate variables KDescription).
      apply (fill_hole_instantiate variables KTitle).
    - intros k.
      destruct k;
        repeat (apply fill_hole_filled; first [left; reflexivity | right]). }
  split; [exact E |].
  rewrite E. unfold substitute_placeholders. now rewrite substitute_scan.
Qed.

(** The theorem at work on a small layout. *)
Lemma processTemplate_fills_placeholders_witness :
  let variables :=
    {| title := "Home"; description := "All about skin"; content := "<p>Hi</p>";
       path := "/"; schemaType := "WebPage" |} in
  let layout :=
    (literal "<title>" ++ [Hole KTitle] ++ literal "</title>{x}"
     ++ [Hole KContent; Hole KTitle])%list in
  template_text layout = "<title>{{title}}</title>{x}{{content}}{{title}}"
  /\ well_delimited layout = true
  /\ plain_values variables = true
  /\ processTemplate (template_text layout) variables
     = "<title>Home</title>{x}<p>Hi</p>Home".
Proof.
  intros variables layout. do 3 (split; [reflexivity |]).
  destruct (processTemplate_fills_placeholders variables layout) as [E _];
    [reflexivity | reflexivity |].
  rewrite E. reflexivity.
Defined.

End TemplateFacts.

(** ** The site builder: the build *)

Section BuildFacts.
Import JsString SiteBuilder.
Context {World : Type} {FS : FileSystem World}.
Variable env : Environment.

(** What a successful step tells. *)
Lemma bind_completed {A B : Type} (m : Async A) (k : A -> Async B)
    (st st2 : World * list FsOp) (b : B) :
  bind m k st = (Some b, st2) ->
  exists a st1, m st = (Some a, st1) /\ k a st1 = (Some b, st2).
Proof.
  unfold bind. destruct (m st) as [[a|] st1]; [| discriminate].
  intros H. now exists a, st1.
Qed.

Lemma update_completed (call : World -> option World) (op : FsOp)
    (w w' : World) (log log' : list FsOp) (u : unit) :
  update call op (w, log) = (Some u, (w', log')) ->
  call w = Some w' /\ log' = (log ++ [op])%list.
Proof.
  unfold update. destruct (call w) as [w1|]; [| discriminate].
  intros [= <- <-]. now split.
Qed.

Lemma read_completed {A : Type} (call : World -> option A) (op : A -> FsOp)
    (w w' : World) (log log' : list FsOp) (a : A) :
  read call op (w, log) = (Some a, (w', log')) ->
  call w = Some a /\ w' = w /\ log' = (log ++ [op a])%list.
Proof.
  unfold read. destruct (call w) as [a1|]; [| discriminate].
  intros [= <- <- <-]. now repeat split.
Qed.

(** The calls of a successful [buildPage]. *)
Lemma buildPage_completed (pageFile : string) (w w' : World)
    (log log' : list FsOp) (u : unit) :
  buildPage env pageFile (w, log) = (Some u, (w', log')) ->
  exists content template,
    log' = (log ++ page_calls env pageFile content template)%list.
Proof.
  unfold buildPage. intros H.
  apply bind_completed in H as (content & [w1 log1] & H1 & H).
  apply read_completed in H1 as (_ & -> & ->).
  apply bind_completed in H as (template & [w2 log2] & H2 & H).
  apply read_completed in H2 as (_ & -> & ->).
  apply bind_completed in H as ([] & [w3 log3] & H3 & H).
  apply update_completed in H as [_ ->].
  exists content, template. unfold page_calls.
  destruct (String.eqb pageFile "index.md").
  - injection H3 as <- <-. now rewrite <- !app_assoc.
  - apply update_completed in H3 as [_ ->]. now rewrite <- !app_assoc.
Qed.

(** The calls of a successful loop over the listing. *)
Lemma buildPages_loop_completed (names : list string) (w w' : World)
    (log log' : list FsOp) (u : unit) :
  for_of names
    (fun pageFile => if endsWith pageFile ".md" then buildPage env pageFile else ret tt)
    (w, log) = (Some u, (w', log')) ->
  exists texts,
    length texts = length (markdown_files names)
    /\ log' = (log ++ List.concat
                 (zip_with (fun pageFile t => page_calls env pageFile (fst t) (snd t))
                    (markdown_files names) texts))%list.
Proof.
  revert w log. induction names as [|pageFile names IH]; intros w log H.
  - injection H as <- <-. exists []. split; [reflexivity |].
    cbn. now rewrite app_nil_r.
  - cbn [for_of] in H.
    apply bind_completed in H as ([] & [w1 log1] & H1 & H).
    apply IH in H as (texts & Hlen & ->).
    unfold markdown_files. cbn [List.filter].
    destruct (endsWith pageFile ".md").
    + apply buildPage_completed in H1 as (content & template & ->).
      exists ((content, template) :: texts). split; [cbn; now f_equal |].
      cbn [zip_with List.concat fst snd]. now rewrite <- !app_assoc.
    + injection H1 as <- <-. now exists texts.
Qed.

(** A string is what precedes an index followed by what starts there. *)
Lemma substring_split (s : string) (k : nat) :
  (k <= String.length s)%nat ->
  s = substring 0 k s ++ substring k (String.length s - k) s.
Proof.
  revert k. induction s as [|c s IH]; intros [|k] H; cbn in *; try lia.
  - reflexivity.
  - f_equal. clear. induction s as [|d s IH]; cbn; [reflexivity | now f_equal].
  - f_equal. apply IH. lia.
Qed.

Lemma substring_suffix (a b : string) :
  substring (String.length a) (String.length b) (a ++ b) = b.
Proof.
  induction a as [|c a IH]; cbn; [| exact IH].
  induction b as [|d b IHb]; cbn; [reflexivity | now f_equal].
Qed.

Lemma endsWith_app (x ext : string) : endsWith (x ++ ext) ext = true.
Proof.
  unfold endsWith. rewrite string_length_app.
  replace (String.length x + String.length ext - String.length ext)%nat
    with (String.length x) by lia.
  rewrite substring_suffix, String.eqb_refl, andb_true_r.
  apply Nat.leb_le. lia.
Qed.

(** [basename] takes the extension off, and only the extension. *)
Lemma basename_app (x ext : string) : basename (x ++ ext) ext = x.
Proof.
  unfold basename, substring_between. rewrite endsWith_app, string_length_app.
  replace (String.length x + String.length ext - String.length ext - 0)%nat
    with (String.length x) by lia.
  apply substring_prefix.
Qed.

Lemma basename_ext (file ext : string) :
  endsWith file ext = true -> file = basename file ext ++ ext.
Proof.
  intros E. unfold basename, substring_between. rewrite E.
  unfold endsWith in E. apply andb_prop in E as [L E].
  apply Nat.leb_le in L. apply String.eqb_eq in E.
  rewrite Nat.sub_0_r.
  pose proof (substring_split file (String.length file - String.length ext)) as Hs.
  replace (String.length file - (String.length file - String.length ext))%nat
    with (String.length ext) in Hs by lia.
  rewrite E in Hs. apply Hs. lia.
Qed.

(** [join] stays below the directory unless the segment is two dots. *)
Lemma join_below (dir : Path) (segment : string) :
  segment <> ".." -> dir `prefix_of` join dir segment.
Proof.
  intros H. unfold join.
  destruct (String.eqb segment "" || String.eqb segment "."); [reflexivity |].
  apply String.eqb_neq in H. rewrite H. now apply prefix_app_r.
Qed.

(** Where the pages go. *)
Lemma outputPath_index : outputPath env "index.md" = (publicDir env ++ ["index.html"])%list.
Proof. reflexivity. Qed.

Lemma outputPath_page (x : string) :
  x <> "" -> x <> "." -> x <> ".." -> x <> "index" ->
  outputPath env (x ++ ".md") = (publicDir env ++ [x; "index.html"])%list.
Proof.
  intros H1 H2 H3 H4. unfold outputPath, pageDir.
  assert (E : String.eqb (x ++ ".md") "index.md" = false).
  { apply String.eqb_neq. intros E. apply H4.
    change "index.md" with ("index" ++ ".md") in E.
    assert (L : String.length x = String.length "index").
    { apply (f_equal String.length) in E. rewrite !string_length_app in E.
      cbn in *. lia. }
    now destruct (string_app_same_length _ _ _ _ E L). }
  rewrite E, basename_app. unfold join at 2.
  apply String.eqb_neq in H1, H2, H3. rewrite H1, H2, H3. cbn [orb].
  cbn. now rewrite <- app_assoc.
Qed.

Lemma page_calls_inside (pageFile content template : string) :
  endsWith pageFile ".md" = true -> pageFile <> "...md" ->
  Forall (inside_output env) (page_calls env pageFile content template).
Proof.
  intros E N.
  assert (B : publicDir env `prefix_of` pageDir env pageFile).
  { apply join_below. intros D. apply N.
    rewrite (basename_ext _ _ E), D. reflexivity. }
  unfold page_calls, outputPath. repeat constructor.
  destruct (String.eqb pageFile "index.md"); repeat constructor;
    unfold inside_output; cbn [written_path]; trivial.
  - now apply join_below.
  - etrans; [exact B | now apply join_below].
Qed.

(** C6, amended. A run of the build in which no file-system call fails
    makes these calls and no others, in this order: it removes and
    recreates the output directory, copies the assets into it, lists the
    pages directory and, for every markdown file of the listing in turn,
    reads the file and the layout and writes the rendered page (for
    [index.md] to [index.html] at the output root, for any other [x.md] to
    [x/index.html], whose directory it creates first); then it writes
    [sitemap.xml] and [robots.txt], and last the cognitive index.  Unless
    a page file is named [...md], no call touches anything outside the
    output directory. *)
Theorem build_completed_calls (w w' : World) (log : list FsOp) :
  build env w = (Completed, w', log) ->
  (exists names texts,
     length texts = length (markdown_files names)
     /\ log = build_calls env names texts
     /\ (~ In "...md" names -> Forall (inside_output env) log))
  /\ outputPath env "index.md" = (publicDir env ++ ["index.html"])%list
  /\ (forall x, x <> "" -> x <> "." -> x <> ".." -> x <> "index" ->
        outputPath env (x ++ ".md") = (publicDir env ++ [x; "index.html"])%list).
Proof.
  intros H. split; [| split; [apply outputPath_index | apply outputPath_page]].
  unfold build in H.
  destruct (build_steps env (w, [])) as [[[]|] [w1 log1]] eqn:S;
    [| discriminate H].
  injection H as <- <-. unfold build_steps in S.
  apply bind_completed in S as ([] & [w2 log2] & H1 & S).
  apply update_completed in H1 as [_ ->].
  apply bind_completed in S as ([] & [w3 log3] & H2 & S).
  apply update_completed in H2 as [_ ->].
  apply bind_completed in S as ([] & [w4 log4] & H3 & S).
  apply update_completed in H3 as [_ ->].
  apply bind_completed in S as ([] & [w5 log5] & H4 & S).
  unfold buildPages in H4.
  apply bind_completed in H4 as (names & [w6 log6] & H4 & H5).
  apply read_completed in H4 as (_ & -> & ->).
  apply buildPages_loop_completed in H5 as (texts & Hlen & ->).
  apply bind_completed in S as ([] & [w7 log7] & H6 & S).
  apply update_completed in H6 as [_ ->].
  apply bind_completed in S as ([] & [w8 log8] & H7 & S).
  apply update_completed in H7 as [_ ->].
  unfold generateCognitiveIndex in S.
  apply bind_completed in S as ([] & [w9 log9] & H8 & S).
  apply update_completed in H8 as [_ ->].
  apply bind_completed in S as ([] & [w10 log10] & H9 & S).
  apply update_completed in H9 as [_ ->].
  apply update_completed in S as [_ ->].
  exists names, texts. split; [exact Hlen |]. split.
  - unfold build_calls. cbn [app]. now rewrite <- !app_assoc.
  - intros N. rewrite <- !app_assoc. cbn [app].
    assert (P : publicDir env `prefix_of` publicDir env) by reflexivity.
    assert (J : forall segment, segment <> ".." ->
                  publicDir env `prefix_of` join (publicDir env) segment)
      by (intros; now apply join_below).
    repeat (apply Forall_cons; split;
            [unfold inside_output; cbn [written_path]; trivial;
             try (apply J; discriminate) |]).
    apply Forall_app. split.
    + assert (M : Forall (fun pageFile => endsWith pageFile ".md" = true
                                          /\ pageFile <> "...md")
                    (markdown_files names)).
      { apply Forall_forall. intros pageFile I.
        apply list_elem_of_In, filter_In in I as [I E]. split; [exact E |].
        intros ->. now apply N. }
      clear -M. revert texts.
      induction M as [|pageFile files [E D] M IH]; intros [|t texts];
        cbn [zip_with List.concat]; [constructor .. |].
      apply Forall_app. split; [now apply page_calls_inside | apply IH].
    + repeat (apply Forall_cons; split;
              [unfold inside_output; cbn [written_path]; trivial |]);
        try (now constructor).
      * apply J. discriminate.
      * apply J. discriminate.
      * apply J. discriminate.
      * etrans; [apply (J "cognitive"); discriminate | now apply join_below].
      * etrans; [apply (J "cognitive"); discriminate | now apply join_below].
Qed.

End BuildFacts.

Section SampleSiteFacts.
Import JsString SiteBuilder.

(** C6, as stated, fails: on the sample site without its layout file the
    run reads the first page, fails to read the layout, and ends through
    the [catch] block; no page is rendered and neither the sitemap nor the
    robots file is written. *)
Lemma missing_layout_counterexample :
  let run := build sample_environment sample_site_without_layout in
  fst (fst run) = Failed
  /\ snd run
     = [ Remove ["srv"; "public"]; EnsureDir ["srv"; "public"];
         Copy ["srv"; "assets"] ["srv"; "public"; "assets"];
         ReadDir ["srv"; "content"; "pages"] ["index.md"; "about.md"; "notes.txt"];
         ReadFile ["srv"; "content"; "pages"; "index.md"]
           (opening ++ "title: Home" ++ closing ++ "Hello") ]
  /\ forall names texts, snd run <> build_calls sample_environment names texts.
Proof.
  split; [reflexivity |]. split; [reflexivity |].
  intros names texts H.
  assert (I : In (WriteFile ["srv"; "public"; "robots.txt"] "User-agent: *")
                 (build_calls sample_environment names texts)).
  { unfold build_calls. rewrite !in_app_iff. right. right. right. now left. }
  rewrite <- H in I. vm_compute in I.
  repeat (destruct I as [I | I]; [discriminate I |]). exact I.
Qed.

(** The theorem at work: the build of the sample site completes, and its
    calls are those of a build over the listing [index.md], [about.md],
    [notes.txt], all inside the output directory. *)
Lemma build_completed_calls_witness :
  exists w' log,
    build sample_environment sample_site = (Completed, w', log)
    /\ exists texts,
         log = build_calls sample_environment ["index.md"; "about.md"; "notes.txt"] texts
         /\ Forall (inside_output sample_environment) log.
Proof.
  pose (run := build sample_environment sample_site).
  assert (H : build sample_environment sample_site
              = (Completed, snd (fst run), snd run))
    by (vm_compute; reflexivity).
  exists (snd (fst run)), (snd run). split; [exact H |].
  destruct (build_completed_calls sample_environment _ _ _ H)
    as [(names & texts & L & E & I) _].
  assert (R : nth_error (snd run) 3
              = Some (ReadDir (join (contentDir sample_environment) "pages") names))
    by (rewrite E; reflexivity).
  vm_compute in R. injection R as <-.
  exists texts. split; [exact E |].
  apply I. intros [D | [D | [D | []]]]; discriminate D.
Defined.

End SampleSiteFacts.

(** ** The gateway: statistics, authentication and handlers *)

Section GatewayStatsFacts.
Import JsString Gateway.

(** [updateServiceStats] changes the table of counters only. *)
Lemma updateServiceStats_totals (s : string) (st : RequestStats) :
  total (updateServiceStats s st) = total st
  /\ errors (updateServiceStats s st) = errors st.
Proof. now split. Qed.

Lemma updateServiceStats_counter (s s' : string) (st : RequestStats) :
  inherited s = false ->
  byService (updateServiceStats s st) !! s'
  = if decide (s = s') then Some (Count (count_before (byService st !! s) + 1))
    else byService st !! s'.
Proof.
  intros I. destruct (updateServiceStats_frame s st I) as (C & O & _).
  destruct (decide (s = s')) as [<- | Hne]; [exact C | now apply O].
Qed.

(** The errors counted never exceed the responses finished. *)
Lemma stats_run_bound (events : list StatsEvent) (open k : nat) (st : RequestStats) :
  in_flight events open = Some k ->
  (errors st + N.of_nat open <= total st)%N ->
  (errors (stats_run events st) + N.of_nat k <= total (stats_run events st))%N.
Proof.
  revert open st. induction events as [|e events IH]; intros open st F B.
  - injection F as <-. exact B.
  - destruct e as [|code|name]; cbn [in_flight stats_run fold_left stats_step] in *.
    + apply (IH (S open)); [exact F |]. cbn [request_received total errors]. lia.
    + destruct open as [|open']; [discriminate F |].
      apply (IH open'); [exact F |]. unfold response_finished.
      destruct (400 <=? code)%nat; cbn [total errors]; lia.
    + apply (IH open); [exact F |]. now cbn.
Qed.

(** X1. Along every run of the gateway, from the statistics the constructor
    sets up, the error count with the requests still in flight never
    exceeds the total, so the error rate that [getServiceMetrics] reports
    is a number between 0 and 1. *)
Theorem error_rate_between_0_and_1 (events : list StatsEvent) (k : nat) :
  in_flight events 0 = Some k ->
  let st := stats_run events initial_stats in
  (errors st + N.of_nat k <= total st)%N
  /\ exists q, errorRate (fst (getServiceMetrics st)) = Finite q
       /\ (0 <= q)%Q /\ (q <= 1)%Q.
Proof.
  intros F st.
  assert (B : (errors st + N.of_nat k <= total st)%N).
  { apply (stats_run_bound events 0 k initial_stats F). cbn. lia. }
  split; [exact B |].
  unfold getServiceMetrics. destruct (total st) as [|d] eqn:T; cbn.
  - exists 0%Q. split; [reflexivity |]. split; [apply Qle_refl | discriminate].
  - eexists. split; [reflexivity |].
    unfold Qle. cbn. lia.
Qed.

(** The theorem at work: two requests, one counted and answered with 200,
    one answered with 401. *)
Lemma error_rate_between_0_and_1_witness :
  let events := [Received; Counted "openai"; Finished 200; Received; Finished 401] in
  in_flight events 0 = Some 0%nat
  /\ total (stats_run events initial_stats) = 2%N
  /\ errors (stats_run events initial_stats) = 1%N
  /\ exists q, errorRate (fst (getServiceMetrics (stats_run events initial_stats)))
               = Finite q /\ (0 <= q)%Q /\ (q <= 1)%Q.
Proof.
  intros events. split; [reflexivity |]. split; [reflexivity |]. split; [reflexivity |].
  exact (proj2 (error_rate_between_0_and_1 events 0 eq_refl)).
Defined.

End GatewayStatsFacts.

Section GatewayRoutingFacts.
Import JsString Gateway.

(** What [next()] in the authentication middleware tells about the key. *)
Lemma authenticateRequest_next (req req' : Request) (res : Response) :
  authenticateRequest req res = Next req' ->
  exists s,
    js_or (QString <$> headers req !! "x-api-key") (query req !! "apiKey")
      = Some (QString s)
    /\ startsWith s "regima_" = true
    /\ (20 < String.length s)%nat
    /\ req' = with_user req {| apiKey := QString s; role := "user" |}.
Proof.
  unfold authenticateRequest.
  destruct (js_or _ _) as [key|]; [| discriminate].
  destruct (negb (truthy (Some key))); [discriminate |].
  destruct key as [s| |]; cbn [validateApiKey]; try discriminate.
  destruct (startsWith s "regima_") eqn:P; cbn [andb]; [| discriminate].
  destruct (20 <? String.length s)%nat eqn:L; [| discriminate].
  intros [= <-]. exists s. repeat split; try assumption. now apply Nat.ltb_lt.
Qed.

(** A path that matches a route is the path of the route in some letter
    case, with or without a slash at its end. *)
Lemma path_matches_cases (route p : string) :
  path_matches route p = true ->
  toLowerCase p = route \/ toLowerCase p = route ++ "/".
Proof.
  unfold path_matches. intros H. apply orb_prop in H as [H | H];
    apply String.eqb_eq in H; [now left | now right].
Qed.

Lemma startsWith_app_l (s t prefix : string) :
  startsWith s prefix = true -> startsWith (s ++ t) prefix = true.
Proof.
  intros H. apply startsWith_spec in H as [rest ->].
  apply startsWith_spec. exists (rest ++ t). now rewrite string_app_assoc.
Qed.

(** A path that matches a route under a mount path is under it too. *)
Lemma path_matches_protected (route p : string) :
  path_matches route p = true ->
  existsb (startsWith route) protected_prefixes = true ->
  is_protected p = true.
Proof.
  intros M H. unfold is_protected.
  apply existsb_exists in H as (prefix & I & H).
  apply existsb_exists. exists prefix. split; [exact I |].
  destruct (path_matches_cases _ _ M) as [-> | ->];
    [exact H | now apply startsWith_app_l].
Qed.

(** Every route of the two tables is on the side of the mount paths where
    its table says. *)
Lemma find_route_protected (m p : string) (h : RouteHandler) :
  find_route m p = Some h -> is_protected p = true.
Proof.
  unfold find_route. destruct (List.find _ routes) as [r|] eqn:F; [| discriminate].
  intros _. apply find_some in F as [I E].
  apply andb_prop in E as [_ E].
  apply (path_matches_protected _ _ E).
  cbn in I. repeat (destruct I as [<- | I]; [reflexivity |]). destruct I.
Qed.

Lemma find_open_route_unprotected (m p : string) (h : OpenHandler) :
  find_open_route m p = Some h -> is_protected p = false.
Proof.
  unfold find_open_route.
  destruct (List.find _ open_routes) as [r|] eqn:F; [| discriminate].
  intros _. apply find_some in F as [I E].
  apply andb_prop in E as [_ E]. apply path_matches_cases in E.
  unfold is_protected.
  cbn in I.
  repeat (destruct I as [<- | I];
          [destruct E as [-> | ->]; vm_compute; reflexivity |]).
  destruct I.
Qed.

(** X2. A handler of a service, agent, data or tool route runs on a request
    only if the request carries, in its header or else in its query, a
    string key with the prefix [regima_] and more than 20 characters; the
    handler then gets the request with [user] set to that key and the role
    [user]. This holds for every way the framework matches a request with
    such a route: in any letter case, with or without a slash at the end
    of the path, and for HEAD on a GET route. *)
Theorem protected_handler_needs_valid_key (req req' : Request) (h : RouteHandler) :
  route_request req = ReachedProtected h req' ->
  exists s,
    js_or (QString <$> headers req !! "x-api-key") (query req !! "apiKey")
      = Some (QString s)
    /\ (exists rest, s = "regima_" ++ rest)
    /\ (20 < String.length s)%nat
    /\ req' = with_user req {| apiKey := QString s; role := "user" |}
    /\ find_route (method req) (path req) = Some h.
Proof.
  unfold route_request, find_handler.
  destruct (is_protected (path req)) eqn:P.
  - destruct (authenticateRequest req fresh_response) as [res|req1|e] eqn:A;
      try discriminate.
    apply authenticateRequest_next in A as (s & K & Hp & Hl & ->).
    cbn [method path with_user].
    destruct (find_open_route _ _); [discriminate |].
    destruct (find_route _ _) as [h1|] eqn:R; [| discriminate].
    intros [= <- <-]. exists s. repeat split; try assumption.
    now apply startsWith_spec.
  - destruct (find_open_route _ _); [discriminate |].
    destruct (find_route _ _) as [h1|] eqn:R; [| discriminate].
    apply find_route_protected in R. congruence.
Qed.

(** The theorem at work, on a request that reaches the handler of
    [GET /v1/services] by another method, letter case and ending. *)
Lemma protected_handler_needs_valid_key_witness :
  route_request variant_request
  = ReachedProtected ServicesInfo
      (with_user variant_request
         {| apiKey := QString "regima_0123456789abcdef"; role := "user" |})
  /\ exists s,
       query variant_request !! "apiKey" = Some (QString s)
       /\ (20 < String.length s)%nat.
Proof.
  assert (R : route_request variant_request
              = ReachedProtected ServicesInfo
                  (with_user variant_request
                     {| apiKey := QString "regima_0123456789abcdef"; role := "user" |}))
    by (vm_compute; reflexivity).
  split; [exact R |].
  destruct (protected_handler_needs_valid_key _ _ _ R) as (s & K & _ & L & _).
  exists s. split; [exact K | exact L].
Defined.

(** X3. A non-empty [X-API-Key] header decides the authentication alone:
    the [apiKey] query parameter is not looked at, so a valid key in the
    query string does not make up for an invalid one in the header. *)
Theorem header_key_decides (req : Request) (res : Response) (s : string) :
  headers req !! "x-api-key" = Some s ->
  s <> "" ->
  authenticateRequest req res
  = if startsWith s "regima_" && (20 <? String.length s)%nat
    then Next (with_user req {| apiKey := QString s; role := "user" |})
    else Responded (json (status res 403) invalid_api_key).
Proof.
  intros H Hs. unfold authenticateRequest, js_or. rewrite H.
  cbn [fmap option_fmap option_map truthy].
  apply String.eqb_neq in Hs. rewrite Hs. cbn [negb truthy validateApiKey].
  rewrite Hs. cbn [negb].
  now destruct (startsWith s "regima_" && (20 <? String.length s)%nat).
Qed.

Lemma header_key_decides_witness :
  validateApiKey (QString "regima_0123456789abcdef") = Normal true
  /\ authenticateRequest two_key_request fresh_response
     = Responded (json (status fresh_response 403) invalid_api_key).
Proof.
  split; [reflexivity |].
  rewrite (header_key_decides two_key_request fresh_response "guest");
    [reflexivity | reflexivity | discriminate].
Defined.

(** X4. The routes of the gateway information, the health check, the
    configuration, the cognitive integration, the metrics, the policies and
    the documentation are outside the protected prefixes: a request to one
    of them reaches its handler whatever its headers and query string are,
    and the authentication middleware does not run. *)
Theorem open_route_needs_no_key (req : Request) (h : OpenHandler) :
  find_open_route (method req) (path req) = Some h ->
  is_protected (path req) = false /\ route_request req = ReachedOpen h.
Proof.
  intros F. pose proof (find_open_route_unprotected _ _ _ F) as P.
  split; [exact P |]. unfold route_request, find_handler. now rewrite P, F.
Qed.

Lemma open_route_needs_no_key_witness :
  authenticateRequest config_request fresh_response
  = Responded (json (status fresh_response 401) authentication_required)
  /\ route_request config_request = ReachedOpen GatewayConfig.
Proof.
  split; [reflexivity |].
  exact (proj2 (open_route_needs_no_key config_request GatewayConfig eq_refl)).
Defined.

End GatewayRoutingFacts.

Section GatewayHandlerFacts.
Import JsString Gateway.

(** Reading a member throws for the null body only. *)
Lemma member_normal (rt : Runtime) (doc : Json) (key : string) :
  doc <> JNull -> exists v, member rt doc key = Normal v.
Proof. destruct doc; intros H; try congruence; now eexists. Qed.

(** X5. Each of the three mock handlers (chat completion, skincare
    consultation, image analysis), on a request whose body is not null,
    sends a JSON object with the status it was given and counts exactly one
    request for its own service: that counter goes up by one, and the other
    counters, the total and the error count stay. On a null body, where
    reading a member throws, the [catch] block answers 500 with the error
    message and the statistics stay as they were. *)
Theorem mock_handler_counts_its_service (m : Mock) (rt : Runtime) (req : Request)
    (res : Response) (st : RequestStats) :
  let out := mock_handler m rt req res st in
  (body req <> JNull ->
     statusCode (fst out) = statusCode res
     /\ (exists fields, sent (fst out) = Some (JObj fields))
     /\ byService (snd out) !! mock_service m
        = Some (Count (count_before (byService st !! mock_service m) + 1))
     /\ (forall s, s <> mock_service m ->
           byService (snd out) !! s = byService st !! s)
     /\ total (snd out) = total st
     /\ errors (snd out) = errors st)
  /\ (body req = JNull ->
        statusCode (fst out) = 500%nat
        /\ (exists message, sent (fst out) = Some (JObj [("error", JStr message)]))
        /\ snd out = st).
Proof.
  intros out. subst out. split.
  - intros B.
    assert (S : exists fields,
              mock_handler m rt req res st
              = (json res (JObj fields), updateServiceStats (mock_service m) st)).
    { destruct m; cbn [mock_handler mock_service];
        unfold handleOpenAIChat, handleSkincareConsultant, handleImageAnalysis.
      - destruct (member_normal rt (body req) "model" B) as [v ->]. now eexists.
      - destruct (member_normal rt (body req) "skinType" B) as [v1 ->].
        destruct (member_normal rt (body req) "concerns" B) as [v2 ->].
        destruct (member_normal rt (body req) "routine" B) as [v3 ->].
        destruct (member_normal rt (body req) "goals" B) as [v4 ->]. now eexists.
      - destruct (member_normal rt (body req) "imageData" B) as [v1 ->].
        destruct (member_normal rt (body req) "analysisType" B) as [v2 ->]. now eexists. }
    destruct S as [fields ->]. cbn [fst snd].
    split; [reflexivity |]. split; [now exists fields |].
    split; [| split; [| now split]].
    + rewrite updateServiceStats_counter by now destruct m.
      now destruct (decide _).
    + intros s Hs. rewrite updateServiceStats_counter by now destruct m.
      destruct (decide _); [congruence | reflexivity].
  - intros B.
    destruct m; cbn [mock_handler];
      unfold handleOpenAIChat, handleSkincareConsultant, handleImageAnalysis;
      rewrite B; cbn; (split; [reflexivity | split; [now eexists | reflexivity]]).
Qed.

Lemma mock_handler_counts_its_service_witness :
  let req := consultation_request (JArr [JStr "clear-skin"]) in
  let rt := {| now := 1700000000000; isoString := "2023-11-14T22:13:20.000Z";
       typeErrorMessage :=
         fun key => "Cannot read properties of null (reading '" ++ key ++ "')" |} in
  let out := mock_handler MockConsultant rt req fresh_response initial_stats in
  body req <> JNull
  /\ statusCode (fst out) = 200%nat
  /\ byService (snd out) !! "skincare-consultant" = Some (Count 1)
  /\ byService (snd out) !! "openai" = None.
Proof.
  intros req rt out.
  destruct (mock_handler_counts_its_service MockConsultant rt req
              fresh_response initial_stats) as [H _].
  assert (B : body req <> JNull) by discriminate.
  destruct (H B) as (S & _ & C & O & _).
  split; [exact B |]. split; [exact S |]. split; [exact C |].
  unfold out. rewrite (O "openai"); [reflexivity | discriminate].
Defined.

(** X6. The answer of each mock handler depends on the request through
    the members of the body it echoes only ([model] for the chat
    completion, [skinType], [concerns] and [routine] for the consultation,
    [analysisType] for the image analysis): two requests that agree on
    them get the same response and leave the same statistics, whatever
    else they carry. In particular the consultation ignores [goals] and
    the image analysis ignores the image. *)
Theorem mock_handler_ignores_the_rest (m : Mock) (rt : Runtime)
    (req1 req2 : Request) (res : Response) (st : RequestStats) :
  (forall key, In key (mock_inputs m) ->
     member rt (body req1) key = member rt (body req2) key) ->
  mock_handler m rt req1 res st = mock_handler m rt req2 res st.
Proof.
  intros H.
  assert (N : body req1 = JNull <-> body req2 = JNull).
  { assert (K : exists key, In key (mock_inputs m))
      by (destruct m; eexists; now left).
    destruct K as [key K]. specialize (H key K).
    destruct (body req1), (body req2); cbn in H; split; intros E;
      congruence. }
  destruct m; cbn [mock_handler mock_inputs] in *;
    unfold handleOpenAIChat, handleSkincareConsultant, handleImageAnalysis.
  - now rewrite (H "model") by now left.
  - rewrite (H "skinType"), (H "concerns"), (H "routine")
      by (cbn; tauto).
    destruct (body req1) eqn:B1, (body req2) eqn:B2; cbn;
      try reflexivity; try (now destruct N as [N1 N2]; first [discriminate (N1 eq_refl) | discriminate (N2 eq_refl)]);
      now destruct (List.find _ _), (List.find _ _), (List.find _ _).
  - rewrite (H "analysisType") by now left.
    destruct (body req1) eqn:B1, (body req2) eqn:B2; cbn;
      try reflexivity; try (now destruct N as [N1 N2]; first [discriminate (N1 eq_refl) | discriminate (N2 eq_refl)]);
      now destruct (List.find _ _).
Qed.

Lemma mock_handler_ignores_the_rest_witness :
  let rt := {| now := 1700000000000; isoString := "2023-11-14T22:13:20.000Z";
       typeErrorMessage :=
         fun key => "Cannot read properties of null (reading '" ++ key ++ "')" |} in
  mock_handler MockImage rt (image_request "a photograph") fresh_response initial_stats
  = mock_handler MockImage rt (image_request "another one") fresh_response initial_stats
  /\ mock_handler MockConsultant rt (consultation_request (JStr "clear skin"))
       fresh_response initial_stats
     = mock_handler MockConsultant rt (consultation_request JNull)
         fresh_response initial_stats.
Proof.
  intros rt. split.
  - apply (mock_handler_ignores_the_rest MockImage).
    intros key [<- | []]. reflexivity.
  - apply (mock_handler_ignores_the_rest MockConsultant).
    intros key [<- | [<- | [<- | []]]]; reflexivity.
Defined.

End GatewayHandlerFacts.

(** ** The cognitive layer: counting, mining and prediction *)

Section CountingFacts.
Import JsString CognitiveLayer.

(** [Map.get] after [Map.set]. *)
Lemma map_get_set (key k : string) (v : nat) (m : list (string * nat)) :
  map_get k (map_set key v m)
  = if String.eqb key k then Some v else map_get k m.
Proof.
  induction m as [|[k0 v0] m IH]; cbn [map_set map_get].
  - destruct (String.eqb key k); reflexivity.
  - destruct (String.eqb k0 key) eqn:E0; cbn [map_get].
    + apply String.eqb_eq in E0 as ->.
      destruct (String.eqb key k); reflexivity.
    + rewrite IH. destruct (String.eqb k0 k) eqn:E1; [| reflexivity].
      apply String.eqb_eq in E1 as ->.
      now rewrite String.eqb_sym, E0.
Qed.

(** [Map.set] keeps the keys of a map distinct. *)
Lemma map_set_keys (key : string) (v : nat) (m : list (string * nat)) :
  NoDup (m.*1) ->
  NoDup ((map_set key v m).*1)
  /\ forall k, In k ((map_set key v m).*1) -> k = key \/ In k (m.*1).
Proof.
  induction m as [|[k0 v0] m IH]; cbn [map_set fmap list_fmap fst]; intros N.
  - split; [repeat constructor; intros H; inversion H |].
    intros k [<- | []]. now left.
  - apply NoDup_cons in N as [N0 N].
    destruct (String.eqb k0 key) eqn:E0; cbn [fmap list_fmap fst].
    + split; [now apply NoDup_cons |]. intros k H. now right.
    + destruct (IH N) as [N1 S]. split.
      * apply NoDup_cons. split; [| exact N1].
        intros H. apply list_elem_of_In, S in H as [-> | H].
        -- now rewrite String.eqb_refl in E0.
        -- apply N0. now apply list_elem_of_In.
      * intros k [<- | H]; [right; now left |].
        destruct (S k H) as [-> | H']; [now left | right; now right].
Qed.

Lemma map_get_in (k : string) (v : nat) (m : list (string * nat)) :
  NoDup (m.*1) -> In (k, v) m -> map_get k m = Some v.
Proof.
  induction m as [|[k0 v0] m IH]; [easy |].
  cbn [fmap list_fmap fst map_get]. intros N [[= -> ->] | H].
  - now rewrite String.eqb_refl.
  - apply NoDup_cons in N as [N0 N].
    destruct (String.eqb k0 k) eqn:E; [| now apply IH].
    apply String.eqb_eq in E as ->. exfalso. apply N0.
    apply list_elem_of_In. change k with (fst (k, v)). now apply in_map.
Qed.

Lemma count_keys_get (k : string) (keys : list string) (m : list (string * nat)) :
  map_get k (fold_left count_key keys m)
  = match map_get k m, occurrences k keys with
    | None, O => None
    | None, n => Some n
    | Some c, n => Some (c + n)%nat
    end.
Proof.
  revert m. induction keys as [|key keys IH]; intros m.
  - cbn. destruct (map_get k m); [f_equal; lia | reflexivity].
  - cbn [fold_left]. rewrite IH. unfold count_key at 1. rewrite map_get_set.
    unfold occurrences. cbn [List.filter]. rewrite (String.eqb_sym k key).
    destruct (String.eqb key k) eqn:E.
    + apply String.eqb_eq in E as ->. cbn [length].
      destruct (map_get k m); [f_equal; lia |].
      cbn. f_equal.
    + destruct (map_get k m); reflexivity.
Qed.

Lemma count_keys_nodup (keys : list string) (m : list (string * nat)) :
  NoDup (m.*1) -> NoDup ((fold_left count_key keys m).*1).
Proof.
  revert m. induction keys as [|key keys IH]; intros m N; [exact N |].
  cbn [fold_left]. apply IH. now apply map_set_keys.
Qed.

Lemma occurrences_le (k : string) (keys : list string) :
  (occurrences k keys <= length keys)%nat.
Proof. apply filter_length_le. Qed.

(** Every entry of a map counted from the empty map holds the number of
    occurrences of its key, which is at least one. *)
Lemma count_keys_entry (keys : list string) (k : string) (c : nat) :
  In (k, c) (fold_left count_key keys []) ->
  c = occurrences k keys /\ (1 <= c <= length keys)%nat.
Proof.
  intros H. apply map_get_in in H; [| apply count_keys_nodup; constructor].
  rewrite count_keys_get in H. cbn [map_get] in H.
  pose proof (occurrences_le k keys).
  destruct (occurrences k keys) as [|n] eqn:O; [discriminate |].
  injection H as <-. split; [reflexivity | lia].
Qed.

(** The two loops are such counts. *)
Lemma count_transitions_keys (history : list NavigationEntry) (m : list (string * nat)) :
  count_transitions history m = fold_left count_key (transition_keys history) m.
Proof.
  revert m. induction history as [|from rest IH]; intros m; [reflexivity |].
  destruct rest as [|to rest]; [reflexivity |].
  change (count_transitions (from :: to :: rest) m)
    with (count_transitions (to :: rest) (count_key m (path from ++ "_" ++ path to))).
  now rewrite IH.
Qed.

Lemma transition_keys_length (history : list NavigationEntry) :
  length (transition_keys history) = (length history - 1)%nat.
Proof.
  induction history as [|from rest IH]; [reflexivity |].
  destruct rest as [|to rest]; [reflexivity |].
  change (transition_keys (from :: to :: rest))
    with ((path from ++ "_" ++ path to) :: transition_keys (to :: rest)).
  cbn [length] in *. rewrite IH. lia.
Qed.

Lemma mine_relationships_keys (rels : list Relationship) (m : list (string * nat)) :
  fold_left mine_relationship rels m
  = fold_left count_key
      (flat_map (fun rel => if String.eqb (relationship_type rel) "treats"
                            then [source rel ++ "_" ++ target rel] else []) rels) m.
Proof.
  revert m. induction rels as [|rel rels IH]; intros m; [reflexivity |].
  cbn [fold_left flat_map]. rewrite IH, fold_left_app. unfold mine_relationship.
  now destruct (String.eqb (relationship_type rel) "treats").
Qed.

End CountingFacts.

Section MiningFacts.
Import JsString CognitiveLayer.

Lemma mine_nodes_keys (knowledge : list AtomData) (m : list (string * nat)) :
  fold_left
    (fun pairs n => fold_left mine_relationship (relationships (attributes n)) pairs)
    knowledge m
  = fold_left count_key (treats_keys knowledge) m.
Proof.
  revert m. induction knowledge as [|n knowledge IH]; intros m; [reflexivity |].
  cbn [fold_left]. rewrite IH. unfold treats_keys. cbn [flat_map].
  now rewrite fold_left_app, mine_relationships_keys.
Qed.

(** X7. [minePatterns] counts the [treats] relationships of all stored
    nodes by the text [source_target]: the count under a key is the number
    of [treats] relationships whose source and target join to that text (so
    two pairs that join to the same text are counted together), a key
    without such a relationship is absent, no key occurs twice, and the
    other two members of the result are always empty. *)
Theorem minePatterns_counts (ls : LocalStorage) (key : string) :
  let pairs := productConcernPairs (minePatterns ls) in
  map_get key pairs
  = match occurrences key (treats_keys (getKnowledgeGraph ls)) with
    | O => None
    | n => Some n
    end
  /\ NoDup (pairs.*1)
  /\ commonIngredients (minePatterns ls) = []
  /\ pageNavigationPatterns (minePatterns ls) = [].
Proof.
  intros pairs. subst pairs. unfold minePatterns, getKnowledgeGraph.
  cbn [productConcernPairs commonIngredients pageNavigationPatterns].
  rewrite mine_nodes_keys. split; [| split; [| now split]].
  - now rewrite count_keys_get.
  - apply count_keys_nodup. constructor.
Qed.

End MiningFacts.

Section PredictionFacts.
Import JsString CognitiveLayer.

Lemma take_strongly_sorted {A : Type} (R : A -> A -> Prop) (n : nat) (l : list A) :
  StronglySorted R l -> StronglySorted R (take n l).
Proof.
  intros S. revert n. induction S as [|x l S IH F]; intros [|n]; cbn;
    try constructor; [apply IH |].
  apply Forall_forall. intros y Hy.
  rewrite Forall_forall in F. apply F, (subseteq_take n l), Hy.
Qed.

(** The predictions before sorting come from the transitions counted. *)
Lemma prediction_origin (history : list NavigationEntry) (p : Prediction) :
  In p (generateNavigationPredictions history) ->
  exists key count,
    In (key, count) (count_transitions history [])
    /\ split key "_" !! 0%nat = path <$> last history
    /\ predicted_path p = split key "_" !! 1%nat
    /\ probability p = Z.of_nat count # Pos.of_nat (length history).
Proof.
  unfold generateNavigationPredictions. intros H.
  apply list_elem_of_In in H. apply (subseteq_take 3) in H.
  apply list_elem_of_In in H.
  apply (Permutation_in _ (sort_permutation probability _)) in H.
  apply in_flat_map in H as ([key count] & I & H).
  destruct (decide _) as [E | _]; [| destruct H].
  destruct H as [<- | []]. now exists key, count.
Qed.

(** X8. [generateNavigationPredictions] returns at most three predictions,
    in non-increasing order of probability, and each probability is the
    count of a transition over the length of the history, a number
    strictly between 0 and 1. *)
Theorem predictions_bounded (history : list NavigationEntry) :
  let predictions := generateNavigationPredictions history in
  (length predictions <= 3)%nat
  /\ StronglySorted (fun a b => (probability b <= probability a)%Q) predictions
  /\ forall p, In p predictions ->
       (0 < probability p)%Q /\ (probability p < 1)%Q.
Proof.
  intros predictions. split; [| split].
  - unfold predictions, generateNavigationPredictions. rewrite length_take. lia.
  - unfold predictions, generateNavigationPredictions.
    apply take_strongly_sorted, (sort_sorted probability).
  - intros p H. apply prediction_origin in H as (key & count & I & _ & _ & ->).
    rewrite count_transitions_keys in I.
    apply count_keys_entry in I as [_ [L U]].
    rewrite transition_keys_length in U.
    destruct (length history) as [|n]; [lia |].
    replace (Pos.of_nat (S n)) with (Pos.of_succ_nat n)
      by apply Pos.of_nat_succ.
    unfold Qlt. cbn [Qnum Qden]. split; lia.
Qed.

(** The consecutive pairs behind the keys of the transitions. *)
Lemma transition_keys_pairs (history : list NavigationEntry) (key : string) :
  In key (transition_keys history) ->
  exists i from to,
    history !! i = Some from /\ history !! S i = Some to
    /\ key = path from ++ "_" ++ path to.
Proof.
  induction history as [|e rest IH]; [easy |].
  destruct rest as [|e' rest]; [easy |].
  change (transition_keys (e :: e' :: rest))
    with ((path e ++ "_" ++ path e') :: transition_keys (e' :: rest)).
  intros [<- | H].
  - now exists 0%nat, e, e'.
  - destruct (IH H) as (i & from & to & H1 & H2 & ->).
    now exists (S i), from, to.
Qed.

Lemma occurrences_positive (key : string) (keys : list string) :
  (1 <= occurrences key keys)%nat -> In key keys.
Proof.
  unfold occurrences. induction keys as [|k keys IH]; cbn; [lia |].
  destruct (String.eqb key k) eqn:E; [| auto].
  apply String.eqb_eq in E. now left.
Qed.

(** X9. When the current path contains an underscore, [predictUserJourney]
    predicts nothing: the keys of the transitions are cut at their first
    underscore, so no transition is recognised as leaving the current
    page. *)
Theorem underscore_path_predicts_nothing (now : N) (currentPath : string)
    (ls : LocalStorage) :
  includes currentPath "_" = true ->
  snd (predictUserJourney now currentPath ls) = [].
Proof.
  intros U. unfold predictUserJourney. cbn [snd].
  set (pushed := (parse_or_empty (skintwin_navigation ls)
                  ++ [{| path := currentPath; timestamp := now |}])%list).
  set (history := if (50 <? length pushed)%nat
                  then drop (length pushed - 50) pushed else pushed).
  assert (L : last history = Some {| path := currentPath; timestamp := now |}).
  { subst history. destruct (50 <? length pushed)%nat eqn:E.
    - apply Nat.ltb_lt in E. subst pushed. rewrite length_app in *. cbn [length] in *.
      rewrite drop_app_le by lia. apply last_snoc.
    - apply last_snoc. }
  destruct (generateNavigationPredictions history) as [|p ps] eqn:G; [reflexivity |].
  exfalso.
  assert (I : In p (generateNavigationPredictions history)) by (rewrite G; now left).
  apply prediction_origin in I as (key & count & _ & F & _).
  rewrite L in F. cbn in F.
  destruct (split_cons key "_") as (piece & pieces & S).
  pose proof (split_pieces key "_") as [P _]. rewrite S in P, F.
  apply Forall_cons in P as [P _]. cbn in F. injection F as ->.
  apply includes_no_separator in P. congruence.
Qed.

Lemma underscore_path_predicts_nothing_witness :
  let ls := {| skintwin_knowledge := None;
               skintwin_navigation :=
                 Some [ {| path := "/skin_care"; timestamp := 1 |};
                        {| path := "/products"; timestamp := 2 |} ] |} in
  includes "/skin_care" "_" = true
  /\ snd (predictUserJourney 3 "/skin_care" ls) = [].
Proof.
  intros ls. split; [reflexivity |].
  now apply underscore_path_predicts_nothing.
Defined.

(** X10. When no path of the history contains an underscore, every
    prediction names a page that was visited directly after a visit of the
    current page (the last entry), and its probability is the number of
    these transitions divided by the length of the history. *)
Theorem predictions_follow_transitions (history : list NavigationEntry)
    (current : NavigationEntry) (p : Prediction) :
  Forall (fun e => forall_chars (fun a => negb (Ascii.eqb a "_")) (path e) = true)
         history ->
  last history = Some current ->
  In p (generateNavigationPredictions history) ->
  exists i from to,
    history !! i = Some from /\ history !! S i = Some to
    /\ path from = path current
    /\ predicted_path p = Some (path to)
    /\ probability p
       = Z.of_nat (occurrences (path current ++ "_" ++ path to) (transition_keys history))
         # Pos.of_nat (length history).
Proof.
  intros F L H.
  apply prediction_origin in H as (key & count & I & H0 & H1 & ->).
  rewrite count_transitions_keys in I.
  apply count_keys_entry in I as [-> [O _]].
  destruct (transition_keys_pairs history key (occurrences_positive _ _ O))
    as (i & from & to & Hi & Hj & ->).
  rewrite Forall_forall in F.
  pose proof (F from (list_elem_of_lookup_2 _ _ _ Hi)) as Ffrom.
  pose proof (F to (list_elem_of_lookup_2 _ _ _ Hj)) as Fto.
  cbn [String.append] in H0, H1.
  rewrite (split_at_separator _ _ _ Ffrom), (split_no_separator _ _ Fto) in H0, H1.
  rewrite L in H0. cbn in H0, H1. injection H0 as E.
  exists i, from, to. repeat split; try assumption.
  now rewrite <- E.
Qed.

Lemma predictions_follow_transitions_witness :
  let history :=
    [ {| path := "/"; timestamp := 1 |}; {| path := "/products"; timestamp := 2 |};
      {| path := "/"; timestamp := 3 |}; {| path := "/products"; timestamp := 4 |};
      {| path := "/"; timestamp := 5 |} ] in
  generateNavigationPredictions history
  = [ {| predicted_path := Some "/products"; probability := 2 # 5 |} ]
  /\ exists i from to,
       history !! i = Some from /\ history !! S i = Some to
       /\ path from = "/" /\ path to = "/products".
Proof.
  intros history.
  assert (G : generateNavigationPredictions history
              = [ {| predicted_path := Some "/products"; probability := 2 # 5 |} ])
    by reflexivity.
  split; [exact G |].
  destruct (predictions_follow_transitions history {| path := "/"; timestamp := 5 |}
              {| predicted_path := Some "/products"; probability := 2 # 5 |})
    as (i & from & to & Hi & Hj & Hf & Hp & _).
  - repeat constructor.
  - reflexivity.
  - rewrite G. now left.
  - exists i, from, to. cbn in Hp. injection Hp as Hp. now repeat split.
Defined.

End PredictionFacts.

(** ** The cognitive layer: reasoning and page loads *)

Section ReasoningFacts.
Import JsString CognitiveLayer.

(** The results of [performReasoning], up to their order. *)
Lemma performReasoning_results (random : nat -> Q) (ls : LocalStorage) (q : string) :
  let found := List.filter (keyword_matches q) (getKnowledgeGraph ls) in
  Permutation (performReasoning random ls q)
    (zip_with result_for found (random <$> seq 0 (length found))).
Proof.
  intros found. unfold performReasoning. fold (getKnowledgeGraph ls).
  rewrite reasoning_pass by reflexivity. cbn [fst app].
  apply (sort_permutation relevance).
Qed.

Lemma zip_with_result_for_length (found : list AtomData) (randoms : list Q) :
  length randoms = length found ->
  length (zip_with result_for found randoms) = length found.
Proof. intros H. rewrite length_zip_with. lia. Qed.

Lemma performReasoning_length (random : nat -> Q) (ls : LocalStorage) (q : string) :
  length (performReasoning random ls q)
  = length (List.filter (keyword_matches q) (getKnowledgeGraph ls)).
Proof.
  rewrite (Permutation_length (performReasoning_results random ls q)).
  apply zip_with_result_for_length. now rewrite length_fmap, length_seq.
Qed.

(** X11. [performReasoning] returns one result for each stored node that
    matches (a node stored twice gives two results), so never more results
    than stored nodes and none on an empty store; and when [Math.random()]
    yields numbers from 0 up to, not including, 1, every relevance lies
    between 0.2 and 1. *)
Theorem performReasoning_size_and_range (random : nat -> Q) (ls : LocalStorage)
    (q : string) :
  (forall i, (0 <= random i)%Q /\ (random i < 1)%Q) ->
  length (performReasoning random ls q)
    = length (List.filter (keyword_matches q) (getKnowledgeGraph ls))
  /\ (length (performReasoning random ls q) <= length (getKnowledgeGraph ls))%nat
  /\ (getKnowledgeGraph ls = [] -> performReasoning random ls q = [])
  /\ forall r, In r (performReasoning random ls q) ->
       (2 # 10 <= relevance r)%Q /\ (relevance r <= 1)%Q.
Proof.
  intros R. pose proof (performReasoning_results random ls q) as P. cbn zeta in P.
  pose proof (performReasoning_length random ls q) as L.
  split; [exact L |]. split; [rewrite L; apply filter_length_le |]. split.
  - intros E. rewrite E in L. cbn in L. now destruct (performReasoning random ls q).
  - intros r H. apply (Permutation_in _ P) in H.
    apply list_elem_of_In, elem_of_lookup_zip_with in H
      as (i & n & x & -> & _ & Hx).
    apply list_lookup_fmap_Some in Hx as (j & -> & _).
    destruct (R j) as [R0 R1]. cbn [relevance result_for]. split; lra.
Qed.

Lemma performReasoning_size_and_range_witness :
  let random := fun i : nat => (1 # 2)%Q in
  let atom :=
    {| atom_type := "ConceptNode"; name := "Page__";
       truthValue := {| tv_strength := 9 # 10; confidence := 8 # 10 |};
       attributes := {| url := "/"; title := "Home"; domain := "dermatology";
                        keywords := ["serum"]; entities := []; relationships := [] |} |} in
  let ls := {| skintwin_knowledge := Some [atom; atom]; skintwin_navigation := None |} in
  (forall i, (0 <= random i)%Q /\ (random i < 1)%Q)
  /\ length (performReasoning random ls "Which SERUM?") = 2%nat.
Proof.
  intros random atom ls.
  assert (R : forall i, (0 <= random i)%Q /\ (random i < 1)%Q)
    by (intros i; unfold random, Qle, Qlt; cbn; lia).
  split; [exact R |].
  destruct (performReasoning_size_and_range random ls "Which SERUM?" R) as [L _].
  rewrite L. reflexivity.
Defined.

(** X12. A node that has just been stored is found by every query that
    contains one of its keywords, in whatever letter case: the result
    carries the name and the attributes of the node. *)
Theorem stored_node_is_found (random : nat -> Q) (ls : LocalStorage)
    (atom : AtomData) (searchTerm keyword : string) :
  In keyword (keywords (attributes atom)) ->
  includes (toLowerCase searchTerm) (toLowerCase keyword) = true ->
  exists r, In r (query random (storeKnowledgeNode atom ls) searchTerm)
    /\ node r = name atom
    /\ result_attributes r = attributes atom.
Proof.
  intros K I. unfold query.
  pose proof (performReasoning_results random (storeKnowledgeNode atom ls) searchTerm) as P.
  cbn zeta in P.
  set (found := List.filter (keyword_matches searchTerm)
                  (getKnowledgeGraph (storeKnowledgeNode atom ls))) in *.
  assert (M : keyword_matches searchTerm atom = true).
  { unfold keyword_matches. apply existsb_exists. now exists keyword. }
  assert (F : In atom found).
  { apply filter_In. split; [| exact M].
    unfold getKnowledgeGraph, storeKnowledgeNode. cbn. apply in_app_iff. right. now left. }
  apply list_elem_of_In, list_elem_of_lookup in F as [i Hi].
  assert (Hr : (random <$> seq 0 (length found)) !! i = Some (random i)).
  { apply list_lookup_fmap_Some. exists i. split; [reflexivity |].
    apply lookup_seq. split; [reflexivity |]. now apply lookup_lt_Some in Hi. }
  exists (result_for atom (random i)). split; [| now split].
  apply (Permutation_in _ (Permutation_sym P)), list_elem_of_In.
  apply elem_of_lookup_zip_with. now exists i, atom, (random i).
Qed.

Lemma stored_node_is_found_witness :
  let atom :=
    {| atom_type := "ConceptNode"; name := "Page__products";
       truthValue := {| tv_strength := 9 # 10; confidence := 8 # 10 |};
       attributes := {| url := "/products"; title := "Products"; domain := "dermatology";
                        keywords := ["retinol"]; entities := []; relationships := [] |} |} in
  let ls := {| skintwin_knowledge := None; skintwin_navigation := None |} in
  includes (toLowerCase "Is RETINOL safe?") (toLowerCase "retinol") = true
  /\ exists r, In r (query (fun _ => 0%Q) (storeKnowledgeNode atom ls) "Is RETINOL safe?")
       /\ node r = "Page__products".
Proof.
  intros atom ls. split; [reflexivity |].
  destruct (stored_node_is_found (fun _ => 0%Q) ls atom "Is RETINOL safe?" "retinol")
    as (r & I & N & _); [now left | reflexivity |].
  now exists r.
Defined.

End ReasoningFacts.

Section PageLoadFacts.
Import JsString CognitiveLayer.
Variable brain : string.
Variable extractEntities : string -> list Entity.

Lemma toLowerCase_app (a b : string) :
  toLowerCase (a ++ b) = toLowerCase a ++ toLowerCase b.
Proof. induction a as [|c a IH]; cbn; [reflexivity | now rewrite IH]. Qed.

(** The keywords of the dictionary are in lower case. *)
Lemma dermatologyKeywords_lower (keyword : string) :
  In keyword dermatologyKeywords -> toLowerCase keyword = keyword.
Proof.
  intros H. cbn in H.
  repeat (destruct H as [<- | H]; [reflexivity |]). destruct H.
Qed.

Lemma extractKeywords_filter (doc : Document) :
  extractKeywords doc
  = List.filter (fun keyword => includes (toLowerCase (textContent doc)) keyword)
      dermatologyKeywords.
Proof. reflexivity. Qed.

(** X13. [extractKeywords] returns the keywords of its dictionary that
    occur in the lower-cased text of the page, and no others; so the
    stored node of a page is matched by a query that contains one of the
    extracted keywords in any letter case. *)
Theorem extractKeywords_spec (doc : Document) (keyword : string) :
  (In keyword (extractKeywords doc)
   <-> In keyword dermatologyKeywords
       /\ exists before after,
            toLowerCase (textContent doc) = before ++ keyword ++ after)
  /\ (In keyword (extractKeywords doc) ->
      forall n searchTerm before after,
        keywords (attributes n) = extractKeywords doc ->
        toLowerCase searchTerm = before ++ keyword ++ after ->
        keyword_matches searchTerm n = true).
Proof.
  split.
  - rewrite extractKeywords_filter. split.
    + intros H. apply filter_In in H. destruct H as [I H].
      split; [exact I | now apply includes_spec].
    + intros [I H]. apply filter_In. split; [exact I | now apply includes_spec].
  - intros H n searchTerm before after K E.
    apply keyword_matches_iff. exists keyword. rewrite K. split; [exact H |].
    exists before, after. rewrite E.
    rewrite (dermatologyKeywords_lower keyword); [reflexivity |].
    rewrite extractKeywords_filter in H. now apply filter_In in H.
Qed.

(** X14. [extractRelationships] pairs every product entity with every
    concern entity of the page data stored for the current page, as a
    [treats] relationship of strength 0.8: as many relationships as
    products times concerns, and none while the map has no data for the
    page. *)
Theorem extractRelationships_product (layer : Layer) :
  let entities :=
    match knowledgeNodes layer !! currentPage layer with
    | Some data => data_entities data
    | None => []
    end in
  let products := List.filter (fun e => String.eqb (entity_type e) "product") entities in
  let concerns := List.filter (fun e => String.eqb (entity_type e) "concern") entities in
  length (extractRelationships layer) = (length products * length concerns)%nat
  /\ (forall rel, In rel (extractRelationships layer) <->
        exists product concern,
          In product products /\ In concern concerns
          /\ rel = {| relationship_type := "treats"; source := value product;
                      target := value concern; strength := 8 # 10 |})
  /\ (knowledgeNodes layer !! currentPage layer = None ->
      extractRelationships layer = []).
Proof.
  intros entities products concerns. unfold extractRelationships.
  fold entities. fold products. fold concerns. split; [| split].
  - induction products as [|product products' IH]; [reflexivity |].
    cbn [flat_map length]. rewrite length_app, length_map, IH. lia.
  - intros rel. rewrite in_flat_map. split.
    + intros (product & Hp & H). apply in_map_iff in H as (concern & <- & Hc).
      now exists product, concern.
    + intros (product & concern & Hp & Hc & ->).
      exists product. split; [exact Hp |]. apply in_map_iff. now exists concern.
  - intros N. subst products concerns entities. now rewrite N.
Qed.

(** The replacement works character by character. *)
Lemma map_chars_get (f : ascii -> ascii) (s : string) (i : nat) :
  String.get i (map_chars f s) = f <$> String.get i s.
Proof.
  revert i. induction s as [|c s IH]; intros [|i]; cbn; try reflexivity. apply IH.
Qed.

(** X15. The name of the node of a page is [Page_] followed by the URL with
    every character that is not a letter or a digit replaced by an
    underscore, and every letter and digit kept where it is: the name
    begins with [Page_], has five characters more than the URL, and its
    character at position [5 + i] is the character of the URL at position
    [i] when that is a letter or a digit, and an underscore otherwise. So
    it consists of letters, digits and underscores only, and it is [Page_]
    followed by the URL itself when the URL is alphanumeric. *)
Theorem node_name_identifier (pageUrl : string) :
  String.length (node_name pageUrl) = (5 + String.length pageUrl)%nat
  /\ substring 0 5 (node_name pageUrl) = "Page_"
  /\ (forall i c, String.get i pageUrl = Some c ->
        String.get (5 + i) (node_name pageUrl)
        = Some (if is_alphanumeric c then c else "_"%char))
  /\ forall_chars (fun c => is_alphanumeric c || Ascii.eqb c "_") (node_name pageUrl)
     = true
  /\ (forall_chars is_alphanumeric pageUrl = true -> node_name pageUrl = "Page_" ++ pageUrl).
Proof.
  unfold node_name. split; [| split; [| split; [| split]]].
  - cbn. do 5 f_equal. induction pageUrl as [|c u IH]; cbn; [reflexivity | now rewrite IH].
  - apply (substring_prefix "Page_").
  - intros i c H. cbn [Nat.add String.append String.get Ascii.eqb].
    change (String.get i
              (map_chars (fun c => if is_alphanumeric c then c else "_"%char) pageUrl)
            = Some (if is_alphanumeric c then c else "_"%char)).
    now rewrite map_chars_get, H.
  - rewrite forall_chars_app. apply andb_true_intro. split; [reflexivity |].
    induction pageUrl as [|c u IH]; [reflexivity |].
    cbn [map_chars forall_chars]. rewrite IH, andb_true_r.
    destruct (is_alphanumeric c) eqn:E; [now rewrite E | reflexivity].
  - intros H. f_equal. induction pageUrl as [|c u IH]; [reflexivity |].
    cbn in *. apply andb_prop in H as [Hc H]. now rewrite Hc, IH.
Qed.

(** The indicator puts [skin] into the text of every page. *)
Lemma indicator_mentions_skin (doc : Document) :
  In "skin" (extractKeywords (setupCognitiveIndicator brain doc)).
Proof.
  unfold extractKeywords. apply filter_In. split; [now left |].
  apply includes_spec. cbn [setupCognitiveIndicator textContent].
  exists (toLowerCase (textContent doc) ++ toLowerCase brain ++ " "), "twin active".
  rewrite !toLowerCase_app, !string_app_assoc. reflexivity.
Qed.

(** The node that the constructor appends to the stored knowledge. *)
Lemma construct_node (doc : Document) (ls : LocalStorage) :
  exists n,
    getKnowledgeGraph (storage_after (construct brain extractEntities doc ls))
    = (getKnowledgeGraph ls ++ [n])%list
    /\ name n = node_name (pathname doc)
    /\ relationships (attributes n) = []
    /\ In "skin" (keywords (attributes n)).
Proof.
  unfold construct, init, extractPageKnowledge.
  cbn [storage_after currentPage knowledgeNodes].
  eexists. split; [reflexivity |]. cbn [name atom_of attributes relationships keywords
    data_url data_relationships data_keywords].
  split; [reflexivity |]. split.
  - unfold extractRelationships. cbn [knowledgeNodes currentPage].
    now rewrite lookup_empty.
  - apply indicator_mentions_skin.
Qed.

(** X16. The constructor never completes: [init] calls
    [setupAtomSpaceConnection], which the class does not define, so it ends
    with a TypeError and [initialized] stays false. By then the page has
    been processed: the indicator is in the document and exactly one node
    has been appended to the stored knowledge. That node is named after the
    path of the page, has no relationships (the map of the new layer is
    still empty when they are extracted), and always has the keyword
    [skin], which the text of the indicator contains. *)
Theorem construct_stores_then_throws (doc : Document) (ls : LocalStorage) :
  let loaded := construct brain extractEntities doc ls in
  completion loaded
    = Some "TypeError: this.setupAtomSpaceConnection is not a function"
  /\ initialized (layer_after loaded) = false
  /\ textContent (document_after loaded)
     = textContent doc ++ brain ++ " SkinTwin Active"
  /\ skintwin_navigation (storage_after loaded) = skintwin_navigation ls
  /\ exists n,
       getKnowledgeGraph (storage_after loaded) = (getKnowledgeGraph ls ++ [n])%list
       /\ name n = node_name (pathname doc)
       /\ relationships (attributes n) = []
       /\ In "skin" (keywords (attributes n)).
Proof.
  intros loaded. subst loaded. split; [| split; [| split; [| split]]];
    [reflexivity .. | apply construct_node].
Qed.

(** The storage after page loads: one node more per load. *)
Lemma page_loads_knowledge (docs : list Document) (ls : LocalStorage) :
  exists nodes,
    getKnowledgeGraph (page_loads brain extractEntities docs ls)
    = (getKnowledgeGraph ls ++ nodes)%list
    /\ length nodes = length docs
    /\ Forall (fun n => relationships (attributes n) = []
                        /\ In "skin" (keywords (attributes n))) nodes.
Proof.
  revert ls. induction docs as [|doc docs IH]; intros ls.
  - exists []. cbn. now rewrite app_nil_r.
  - cbn [page_loads fold_left].
    destruct (construct_node doc ls) as (n & E & _ & R & K).
    destruct (IH (storage_after (construct brain extractEntities doc ls)))
      as (nodes & E' & L & F).
    exists (n :: nodes). unfold page_loads in E'. rewrite E', E, <- app_assoc.
    split; [reflexivity |]. split; [cbn; now f_equal |]. now constructor.
Qed.

(** X17. Knowledge that comes from page loads alone, into a storage that
    was empty: every stored node has the keyword [skin], so a query that
    contains [skin] (in any letter case) returns as many results as pages
    were loaded; and no stored node has a relationship, so [minePatterns]
    finds no product-concern pair. *)
Theorem page_loads_search_and_mining (random : nat -> Q) (docs : list Document)
    (searchTerm : string) :
  includes (toLowerCase searchTerm) "skin" = true ->
  let ls := page_loads brain extractEntities docs
              {| skintwin_knowledge := None; skintwin_navigation := None |} in
  length (query random ls searchTerm) = length docs
  /\ productConcernPairs (minePatterns ls) = [].
Proof.
  intros S ls.
  destruct (page_loads_knowledge docs
              {| skintwin_knowledge := None; skintwin_navigation := None |})
    as (nodes & E & L & F).
  fold ls in E. cbn [getKnowledgeGraph skintwin_knowledge parse_or_empty app] in E.
  change (parse_or_empty (skintwin_knowledge ls)) with (getKnowledgeGraph ls) in E.
  split.
  - unfold query. rewrite performReasoning_length, E, <- L. f_equal.
    clear E L. induction F as [|n nodes [_ K] F IH]; [reflexivity |].
    cbn [List.filter].
    assert (M : keyword_matches searchTerm n = true).
    { unfold keyword_matches. apply existsb_exists. now exists "skin". }
    rewrite M. now f_equal.
  - unfold minePatterns. cbn [productConcernPairs].
    change (parse_or_empty (skintwin_knowledge ls)) with (getKnowledgeGraph ls).
    rewrite mine_nodes_keys, E.
    replace (treats_keys nodes) with (@nil string); [reflexivity |].
    clear E L. induction F as [|n nodes [R _] F IH]; [reflexivity |].
    unfold treats_keys in *. cbn [flat_map]. now rewrite R, <- IH.
Qed.

End PageLoadFacts.

Section PageLoadSample.
Import JsString CognitiveLayer.

(** The theorem at work: two page loads, neither page mentions skin in
    its own text, and a query in capitals. *)
Lemma page_loads_search_and_mining_witness :
  let docs :=
    [ {| pathname := "/"; document_title := "Home"; meta_description := None;
         textContent := "Welcome" |};
      {| pathname := "/contact"; document_title := "Contact";
         meta_description := Some None; textContent := "Write to us" |} ] in
  let ls := page_loads "*" (fun _ => [{| entity_type := "product"; value := "A" |};
                                      {| entity_type := "concern"; value := "acne" |}])
              docs {| skintwin_knowledge := None; skintwin_navigation := None |} in
  length (query (fun _ => 0%Q) ls "Dry SKIN") = 2%nat
  /\ productConcernPairs (minePatterns ls) = [].
Proof.
  intros docs.
  apply (page_loads_search_and_mining "*" _ (fun _ => 0%Q) docs "Dry SKIN").
  reflexivity.
Defined.

End PageLoadSample.

(** ** The site builder: runs that fail, templates without placeholders *)

Section BuildRunFacts.
Import JsString SiteBuilder.
Context {World : Type} {FS : FileSystem World}.
Variable env : Environment.

Lemma follows_ret {A : Type} (a : A) :
  @follows World _ (ret a) (fun b calls => b = a /\ calls = []).
Proof.
  intros w log r w' log' [= <- <- <-]. exists []. now rewrite app_nil_r.
Qed.

Lemma follows_update (call : World -> option World) (op : FsOp) :
  @follows World _ (update call op) (fun _ calls => calls = [op]).
Proof.
  intros w log r w' log'. unfold update. destruct (call w) as [w1|].
  - intros [= <- <- <-]. now exists [op].
  - intros [= <- <- <-]. exists []. rewrite app_nil_r. split; [reflexivity |].
    now exists tt, [op].
Qed.

Lemma follows_read {A : Type} `{Inhabited A} (call : World -> option A)
    (op : A -> FsOp) :
  @follows World _ (read call op) (fun a calls => calls = [op a]).
Proof.
  intros w log r w' log'. unfold read. destruct (call w) as [a|].
  - intros [= <- <- <-]. now exists [op a].
  - intros [= <- <- <-]. exists []. rewrite app_nil_r. split; [reflexivity |].
    now exists inhabitant, [op inhabitant].
Qed.

Lemma follows_bind {A B : Type} (m : @Async World A) (k : A -> @Async World B)
    (P1 : A -> list FsOp -> Prop) (P2 : A -> B -> list FsOp -> Prop) :
  @follows World _ m P1 ->
  (forall a, @follows World _ (k a) (P2 a)) ->
  (forall a, exists b calls, P2 a b calls) ->
  @follows World _ (bind m k)
    (fun b calls => exists a c1 c2, calls = (c1 ++ c2)%list /\ P1 a c1 /\ P2 a b c2).
Proof.
  intros F1 F2 I w log r w' log'. unfold bind.
  destruct (m (w, log)) as [[a|] [w1 log1]] eqn:M.
  - destruct (F1 _ _ _ _ _ M) as (c1 & -> & H1). intros K.
    destruct (F2 a _ _ _ _ _ K) as (c2 & -> & H2).
    exists (c1 ++ c2)%list. split; [now rewrite app_assoc |].
    destruct r as [b|].
    + now exists a, c1, c2.
    + destruct H2 as (b & more & N & H2). exists b, more. split; [exact N |].
      exists a, c1, (c2 ++ more)%list. now rewrite app_assoc.
  - destruct (F1 _ _ _ _ _ M) as (c1 & -> & a & more & N & H1).
    intros [= <- <- <-]. exists c1. split; [reflexivity |].
    destruct (I a) as (b & c2 & H2).
    exists b, (more ++ c2)%list. split; [now destruct more |].
    exists a, (c1 ++ more)%list, c2. now rewrite app_assoc.
Qed.

Lemma follows_weaken {A : Type} (m : @Async World A) (P Q : A -> list FsOp -> Prop) :
  @follows World _ m P -> (forall a calls, P a calls -> Q a calls) -> @follows World _ m Q.
Proof.
  intros F W w log r w' log' M. destruct (F _ _ _ _ _ M) as (calls & E & H).
  exists calls. split; [exact E |]. destruct r as [a|]; [now apply W |].
  destruct H as (a & more & N & H). exists a, more. split; [exact N | now apply W].
Qed.

(** The calls of [buildPage], complete or not. *)
Lemma buildPage_follows (pageFile : string) :
  @follows World _ (buildPage env pageFile)
    (fun _ calls => exists content template,
       calls = page_calls env pageFile content template).
Proof.
  unfold buildPage.
  pose (E := fun (_ : unit) (calls : list FsOp) =>
               calls = if String.eqb pageFile "index.md" then []
                       else [EnsureDir (pageDir env pageFile)]).
  pose (W := fun (content template : string) (_ _ : unit) (calls : list FsOp) =>
               calls = [WriteFile (outputPath env pageFile) (render env content template)]).
  pose (B := fun (content template : string) (_ : unit) (calls : list FsOp) =>
               exists (a : unit) c1 c2, calls = (c1 ++ c2)%list /\ E a c1
                                        /\ W content template a tt c2).
  pose (R2 := fun (template : string) (calls : list FsOp) =>
                calls = [ReadFile (join (templatesDir env) "layout.html") template]).
  pose (C := fun (content : string) (_ : unit) (calls : list FsOp) =>
               exists template c1 c2, calls = (c1 ++ c2)%list /\ R2 template c1
                                      /\ B content template tt c2).
  pose (R1 := fun (content : string) (calls : list FsOp) =>
                calls = [ReadFile (join (join (contentDir env) "pages") pageFile) content]).
  assert (FE : @follows World _
                 (if String.eqb pageFile "index.md" then ret tt
                  else ensureDir (pageDir env pageFile)) E).
  { unfold E. destruct (String.eqb pageFile "index.md").
    - eapply follows_weaken; [apply follows_ret | now intros ? ? [_ ->]].
    - apply follows_update. }
  assert (FB : forall content template,
             @follows World _
               (bind (if String.eqb pageFile "index.md" then ret tt
                      else ensureDir (pageDir env pageFile))
                  (fun _ => writeFile (outputPath env pageFile)
                              (render env content template)))
               (B content template)).
  { intros content template.
    eapply follows_weaken.
    - apply (follows_bind _ _ E (W content template)); [exact FE | |].
      + intros a. eapply follows_weaken; [apply follows_update |].
        intros [] calls ->. reflexivity.
      + intros a. now exists tt, [WriteFile (outputPath env pageFile)
                                     (render env content template)].
    - intros [] calls (a & c1 & c2 & H). exists a, c1, c2. exact H. }
  assert (IB : forall content template, exists (b : unit) calls, B content template b calls).
  { intros content template. exists tt. eexists. exists tt. eexists _, _.
    split; [reflexivity |]. split; reflexivity. }
  assert (FC : forall content,
             @follows World _
               (bind (readFile (join (templatesDir env) "layout.html"))
                  (fun template =>
                     bind (if String.eqb pageFile "index.md" then ret tt
                           else ensureDir (pageDir env pageFile))
                       (fun _ => writeFile (outputPath env pageFile)
                                   (render env content template))))
               (C content)).
  { intros content. eapply follows_weaken.
    - apply (follows_bind _ _ R2 (fun template => B content template));
        [apply follows_read | intros template; apply FB | intros template; apply IB].
    - intros [] calls (template & c1 & c2 & H). exists template, c1, c2. exact H. }
  assert (IC : forall content, exists (b : unit) calls, C content b calls).
  { intros content. destruct (IB content "") as ([] & calls & H).
    exists tt. eexists. exists "". eexists _, _.
    split; [reflexivity |]. split; [reflexivity | exact H]. }
  eapply follows_weaken.
  - apply (follows_bind _ _ R1 C);
      [apply follows_read | exact FC | exact IC].
  - intros [] calls (content & c1 & c2 & -> & -> & template & c3 & c4 & -> & -> & H).
    destruct H as ([] & c5 & c6 & -> & -> & ->).
    exists content, template. unfold page_calls. reflexivity.
Qed.

Lemma follows_update_then {B : Type} (call : World -> option World) (op : FsOp)
    (k : @Async World B) (P : B -> list FsOp -> Prop) :
  @follows World _ k P -> (exists b calls, P b calls) ->
  @follows World _ (bind (update call op) (fun _ => k))
    (fun b calls => exists rest, calls = op :: rest /\ P b rest).
Proof.
  intros F I. eapply follows_weaken.
  - apply (follows_bind _ _ (fun _ calls => calls = [op]) (fun _ => P));
      [apply follows_update | intros _; exact F | intros _; exact I].
  - intros b calls (a & c1 & c2 & -> & -> & H). now exists c2.
Qed.

(** The calls of the loop over the listing, complete or not. *)
Lemma buildPages_loop_follows (names : list string) :
  @follows World _
    (for_of names
       (fun pageFile => if endsWith pageFile ".md" then buildPage env pageFile else ret tt))
    (fun _ calls => exists texts,
       length texts = length (markdown_files names)
       /\ calls = List.concat
                    (zip_with (fun pageFile t => page_calls env pageFile (fst t) (snd t))
                       (markdown_files names) texts)).
Proof.
  induction names as [|pageFile names IH].
  - eapply follows_weaken; [apply follows_ret |].
    intros a calls [_ ->]. now exists [].
  - cbn [for_of]. eapply follows_weaken.
    + apply (follows_bind _ _
               (fun _ calls =>
                  if endsWith pageFile ".md"
                  then exists content template,
                         calls = page_calls env pageFile content template
                  else calls = [])
               (fun _ _ calls => exists texts,
                  length texts = length (markdown_files names)
                  /\ calls = List.concat
                               (zip_with
                                  (fun pageFile t => page_calls env pageFile (fst t) (snd t))
                                  (markdown_files names) texts))).
      * destruct (endsWith pageFile ".md").
        -- apply buildPage_follows.
        -- eapply follows_weaken; [apply follows_ret | now intros ? ? [_ ->]].
      * intros _. exact IH.
      * intros _. exists tt. eexists.
        exists (repeat ("", "") (length (markdown_files names))).
        split; [apply repeat_length | reflexivity].
    + intros [] calls (a & c1 & c2 & -> & H1 & texts & L & ->).
      unfold markdown_files. cbn [List.filter].
      destruct (endsWith pageFile ".md").
      * destruct H1 as (content & template & ->).
        exists ((content, template) :: texts). split; [cbn; now f_equal |].
        reflexivity.
      * subst c1. now exists texts.
Qed.

(** The calls of the [try] block of [build], complete or not. *)
Lemma build_steps_follows :
  @follows World _ (build_steps env)
    (fun _ calls => exists names texts,
       length texts = length (markdown_files names)
       /\ calls = build_calls env names texts).
Proof.
  pose (tail3 := [EnsureDir (join (publicDir env) "cognitive");
                  WriteFile (join (join (publicDir env) "cognitive") "index.json")
                    (cognitiveIndex env);
                  WriteFile (join (join (publicDir env) "cognitive") "api.html")
                    (apiDoc env)]).
  pose (tail5 := WriteFile (join (publicDir env) "sitemap.xml") (sitemap env)
                 :: WriteFile (join (publicDir env) "robots.txt") (robots env)
                 :: tail3).
  assert (F3 : @follows World _ (generateCognitiveIndex env)
                 (fun _ calls => calls = tail3)).
  { unfold generateCognitiveIndex. eapply follows_weaken.
    - apply follows_update_then.
      + apply follows_update_then; [apply follows_update |].
        exists tt. eexists. reflexivity.
      + exists tt. eexists. eexists. split; reflexivity.
    - intros [] calls (r1 & -> & r2 & -> & ->). reflexivity. }
  assert (F5 : @follows World _
                 (bind (generateSitemap env)
                    (fun _ => bind (generateRobots env)
                                (fun _ => generateCognitiveIndex env)))
                 (fun _ calls => calls = tail5)).
  { eapply follows_weaken.
    - apply follows_update_then.
      + apply follows_update_then; [exact F3 | now exists tt, tail3].
      + exists tt. eexists. eexists. split; reflexivity.
    - intros [] calls (r1 & -> & r2 & -> & ->). reflexivity. }
  assert (FP : @follows World _
                 (bind (buildPages env)
                    (fun _ => bind (generateSitemap env)
                                (fun _ => bind (generateRobots env)
                                            (fun _ => generateCognitiveIndex env))))
                 (fun _ calls => exists names texts,
                    length texts = length (markdown_files names)
                    /\ calls
                       = (ReadDir (join (contentDir env) "pages") names
                          :: List.concat
                               (zip_with
                                  (fun pageFile t => page_calls env pageFile (fst t) (snd t))
                                  (markdown_files names) texts)
                          ++ tail5)%list)).
  { eapply follows_weaken.
    - apply (follows_bind _ _
               (fun _ calls => exists names texts,
                  length texts = length (markdown_files names)
                  /\ calls
                     = ReadDir (join (contentDir env) "pages") names
                       :: List.concat
                            (zip_with
                               (fun pageFile t => page_calls env pageFile (fst t) (snd t))
                               (markdown_files names) texts))
               (fun _ _ calls => calls = tail5)).
      + unfold buildPages. eapply follows_weaken.
        * apply (follows_bind _ _
                   (fun names calls => calls = [ReadDir (join (contentDir env) "pages") names])
                   (fun names _ calls => exists texts,
                      length texts = length (markdown_files names)
                      /\ calls = List.concat
                                   (zip_with
                                      (fun pageFile t =>
                                         page_calls env pageFile (fst t) (snd t))
                                      (markdown_files names) texts))).
          -- apply follows_read.
          -- intros names. apply buildPages_loop_follows.
          -- intros names. exists tt. eexists.
             exists (repeat ("", "") (length (markdown_files names))).
             split; [apply repeat_length | reflexivity].
        * intros [] calls (names & c1 & c2 & -> & -> & texts & L & ->).
          now exists names, texts.
      + intros _. exact F5.
      + intros _. now exists tt, tail5.
    - intros [] calls (a & c1 & c2 & -> & (names & texts & L & ->) & ->).
      now exists names, texts. }
  unfold build_steps, copyAssets. eapply follows_weaken.
  - apply follows_update_then.
    + apply follows_update_then.
      * apply follows_update_then; [exact FP |].
        exists tt. eexists. exists [], []. split; reflexivity.
      * exists tt. eexists. eexists. split; [reflexivity |].
        exists [], []. split; reflexivity.
    + exists tt. eexists. eexists. split; [reflexivity |].
      eexists. split; [reflexivity |]. exists [], []. split; reflexivity.
  - intros [] calls (r1 & -> & r2 & -> & r3 & -> & names & texts & L & ->).
    exists names, texts. split; [exact L |]. reflexivity.
Qed.

(** The calls of a build stay inside the output directory, unless a page
    file of the listing is named with three dots and [md]. *)
Lemma build_calls_inside (names : list string) (texts : list (string * string)) :
  ~ In "...md" names -> Forall (inside_output env) (build_calls env names texts).
Proof.
  intros N. unfold build_calls.
  assert (J : forall segment, segment <> ".." ->
                publicDir env `prefix_of` join (publicDir env) segment)
    by (intros; now apply join_below).
  assert (C : publicDir env `prefix_of` join (publicDir env) "cognitive")
    by (apply J; discriminate).
  apply Forall_app. split; [| apply Forall_app; split].
  - repeat constructor; unfold inside_output; cbn [written_path]; trivial.
    apply J. discriminate.
  - assert (M : Forall (fun pageFile => endsWith pageFile ".md" = true
                                        /\ pageFile <> "...md")
                  (markdown_files names)).
    { apply Forall_forall. intros pageFile I.
      apply list_elem_of_In, filter_In in I as [I E]. split; [exact E |].
      intros ->. now apply N. }
    clear -M. revert texts.
    induction M as [|pageFile files [E D] M IH]; intros [|t texts];
      cbn [zip_with List.concat]; [constructor .. |].
    apply Forall_app. split; [now apply page_calls_inside | apply IH].
  - repeat constructor; unfold inside_output; cbn [written_path]; trivial.
    + apply J. discriminate.
    + apply J. discriminate.
    + etrans; [exact C | now apply join_below].
    + etrans; [exact C | now apply join_below].
Qed.

(** X18. Every run of [build], whether it completes or ends in the
    [catch] block: the calls it made are an initial part of the calls of a
    complete build over some listing; nothing is missing exactly when the
    run completed, so a failed run stopped at its first failing call and
    made none after it. Unless a page file of that listing is named with
    three dots and [md], no call of the run touched anything outside the
    output directory. *)
Theorem build_run_is_initial_part (w w' : World) (exit : Exit) (log : list FsOp) :
  build env w = (exit, w', log) ->
  exists names texts more,
    length texts = length (markdown_files names)
    /\ (log ++ more)%list = build_calls env names texts
    /\ (more = [] <-> exit = Completed)
    /\ (~ In "...md" names -> Forall (inside_output env) log).
Proof.
  unfold build.
  destruct (build_steps env (w, [])) as [r [w1 log1]] eqn:S.
  destruct (build_steps_follows _ _ _ _ _ S) as (calls & E & H).
  cbn [app] in E. subst log1.
  destruct r as [[]|]; intros [= <- <- <-].
  - destruct H as (names & texts & L & E). exists names, texts, [].
    rewrite app_nil_r. repeat split; try assumption.
    intros N. rewrite E. now apply build_calls_inside.
  - destruct H as ([] & more & M & names & texts & L & E).
    exists names, texts, more. repeat split; try assumption.
    + intros ->. now destruct M.
    + discriminate.
    + intros N. apply (build_calls_inside names texts) in N.
      rewrite <- E in N. now apply Forall_app in N.
Qed.

(** Where the page of [x.md] goes. *)
Lemma outputPath_shape (x : string) :
  x <> "" -> x <> "." -> x <> ".." ->
  outputPath env (x ++ ".md")
  = if String.eqb x "index" then (publicDir env ++ ["index.html"])%list
    else (publicDir env ++ [x; "index.html"])%list.
Proof.
  intros H1 H2 H3. destruct (String.eqb x "index") eqn:E.
  - apply String.eqb_eq in E. subst x. reflexivity.
  - apply String.eqb_neq in E. now apply outputPath_page.
Qed.

(** X19. Two different markdown files of the pages directory are written
    to different files: for different names [x] and [y], neither of them
    empty, one dot or two dots, [buildPage] writes [x.md] and [y.md] to
    different output paths. *)
Theorem pages_are_written_apart (x y : string) :
  ~ In x [""; "."; ".."] -> ~ In y [""; "."; ".."] ->
  x <> y ->
  outputPath env (x ++ ".md") <> outputPath env (y ++ ".md").
Proof.
  intros Hx Hy D.
  rewrite !outputPath_shape by (intros ->; cbn in *; tauto).
  destruct (String.eqb x "index") eqn:Ex, (String.eqb y "index") eqn:Ey; intros E.
  - apply String.eqb_eq in Ex, Ey. congruence.
  - apply (f_equal (@length string)) in E. rewrite !length_app in E. cbn in E. lia.
  - apply (f_equal (@length string)) in E. rewrite !length_app in E. cbn in E. lia.
  - apply app_inv_head in E. now injection E.
Qed.

(** The precondition is needed: the page file whose name is the extension
    alone is written where [index.md] is. *)
Lemma extension_alone_collides_with_index :
  outputPath env (".md") = outputPath env "index.md".
Proof. reflexivity. Qed.

End BuildRunFacts.

Section BuildRunSample.
Import JsString SiteBuilder.

(** The theorem at work: the build of the sample site without its layout
    fails, and its calls lack a non-empty rest of a complete build. *)
Lemma build_run_is_initial_part_witness :
  exists names texts more,
    fst (fst (build sample_environment sample_site_without_layout)) = Failed
    /\ more <> []
    /\ (snd (build sample_environment sample_site_without_layout) ++ more)%list
       = build_calls sample_environment names texts.
Proof.
  pose (run := build sample_environment sample_site_without_layout).
  assert (H : build sample_environment sample_site_without_layout
              = (Failed, snd (fst run), snd run))
    by (vm_compute; reflexivity).
  destruct (build_run_is_initial_part sample_environment _ _ _ _ H)
    as (names & texts & more & _ & E & M & _).
  exists names, texts, more. split; [reflexivity |]. split; [| exact E].
  intros N. apply M in N. discriminate N.
Defined.

(** The theorem at work: [about.md] and [contact.md]. *)
Lemma pages_are_written_apart_witness :
  outputPath sample_environment "about.md" <> outputPath sample_environment "contact.md".
Proof.
  apply (pages_are_written_apart sample_environment "about" "contact");
    try discriminate;
    cbn; intros H; repeat (destruct H as [H | H]; [discriminate H |]); exact H.
Defined.

End BuildRunSample.

(** ** Templates without placeholders *)

Section TemplateScanFacts.
Import JsString SiteBuilder.

(** A scan that meets no match keeps the text. *)
Lemma replace_from_no_match (pattern replacement str rest : string) (position : nat) :
  includes rest pattern = false ->
  replace_from pattern replacement str position 0 rest = rest.
Proof.
  revert position. induction rest as [|c rest IH]; intros position H; [reflexivity |].
  cbn [includes] in H. apply orb_false_elim in H as [S H].
  cbn [replace_from]. rewrite S. now rewrite IH.
Qed.

(** X20. A template in which none of the five placeholders occurs comes
    back from [processTemplate] unchanged, whatever the values of the
    variables (dollar signs and braces included). *)
Theorem processTemplate_without_placeholders (template : string) (variables : Variables) :
  (forall k : Key, includes template (placeholder_pattern (key_name k)) = false) ->
  processTemplate template variables = template.
Proof.
  intros H. unfold processTemplate, entries. cbn [fold_left].
  unfold replace_global.
  rewrite (replace_from_no_match _ _ _ _ _ (H KTitle)).
  rewrite (replace_from_no_match _ _ _ _ _ (H KDescription)).
  rewrite (replace_from_no_match _ _ _ _ _ (H KContent)).
  rewrite (replace_from_no_match _ _ _ _ _ (H KPath)).
  now rewrite (replace_from_no_match _ _ _ _ _ (H KSchemaType)).
Qed.

(** The theorem at work: braces with spaces inside are no placeholder. *)
Lemma processTemplate_without_placeholders_witness :
  processTemplate "<h1>{{ title }}</h1>"
    {| title := "$&"; description := "{{title}}"; content := "<p></p>";
       path := "/"; schemaType := "WebPage" |}
  = "<h1>{{ title }}</h1>".
Proof.
  apply processTemplate_without_placeholders. now intros [].
Defined.

End TemplateScanFacts.
